(** * share_capacity: exposure report of a storage cluster

    A shallow embedding of [share_capacity.py] and the properties of its
    row builder, deduplicator and report writer.

    Conventions of the embedding:
    - a Python [str] is a list of Unicode code points ([pystr]); string
      literals of the source are written [lit "..."];
    - a Python [float] is an IEEE 754 binary64 value, [spec_float] with the
      operations of [SpecFloat] at precision 53 and maximal exponent 1024;
    - a Python [dict] is an association list in insertion order, without
      duplicate keys ([Dict]);
    - a call that may raise returns a [result];  code that talks to the
      cluster, the file system or the terminal runs in the monad [M], which
      threads a [World]. *)

From Stdlib Require Import List ZArith NArith Bool String Ascii Lia Ring.
From Stdlib Require Import Permutation.
From Stdlib.Strings Require Import Byte.
From Stdlib Require Import Floats.SpecFloat.
Import ListNotations.

Set Implicit Arguments.
Set Warnings "-register-all".

(** ** Python strings *)

Definition pystr := list N.

Definition lit (s : string) : pystr :=
  map N_of_ascii (list_ascii_of_string s).

Definition pystr_eq_dec : forall s t : pystr, {s = t} + {s <> t} :=
  list_eq_dec N.eq_dec.

Definition pystr_eqb (s t : pystr) : bool :=
  if pystr_eq_dec s t then true else false.

(** [sep.join(parts)] *)
Fixpoint join (sep : pystr) (parts : list pystr) : pystr :=
  match parts with
  | [] => []
  | [p] => p
  | p :: rest => p ++ sep ++ join sep rest
  end.

(** ** Insertion-ordered dictionaries *)

(** Keys are compared with a decidable equality (Python: [__eq__] on
    hashable values of one type). *)
Class EqDec (K : Type) := eq_dec : forall a b : K, {a = b} + {a <> b}.

Module Dict.
Section Dict.
Context {K V : Type} {EqK : EqDec K}.

Definition t := list (K * V).

(** [d.get(k)] *)
Fixpoint get (k : K) (d : t) : option V :=
  match d with
  | [] => None
  | (k', v) :: d' => if eq_dec k k' then Some v else get k d'
  end.

(** [k in d] *)
Definition contains (k : K) (d : t) : bool :=
  match get k d with Some _ => true | None => false end.

(** [d[k] = v]: an existing key keeps its position, a new key goes last. *)
Fixpoint set (k : K) (v : V) (d : t) : t :=
  match d with
  | [] => [(k, v)]
  | (k', v') :: d' =>
      if eq_dec k k' then (k', v) :: d' else (k', v') :: set k v d'
  end.

(** In-place update of the value stored under [k] (as [d[k].append(x)]
    does for a list value); nothing happens when [k] is absent. *)
Fixpoint adjust (f : V -> V) (k : K) (d : t) : t :=
  match d with
  | [] => []
  | (k', v') :: d' =>
      if eq_dec k k' then (k', f v') :: d' else (k', v') :: adjust f k d'
  end.

Definition keys (d : t) : list K := map fst d.

(** [list(d.values())] *)
Definition values (d : t) : list V := map snd d.
End Dict.
Arguments t : clear implicits.
End Dict.

(** ** Numbers *)

Definition float := spec_float.

Definition prec : Z := 53.
Definition emax : Z := 1024.

Definition fadd : float -> float -> float := SFadd prec emax.
Definition fmul : float -> float -> float := SFmul prec emax.
Definition fdiv : float -> float -> float := SFdiv prec emax.

(** The literals [0] (as a float), [100] and [1e9]. *)
Definition f0 : float := S754_zero false.
Definition f100 : float := S754_finite false 7036874417766400 (-46).
Definition f1e9 : float := S754_finite false 8388608000000000 (-23).

Definition is_nan (x : float) : bool :=
  match x with S754_nan => true | _ => false end.

(** Neither an infinity nor a NaN. *)
Definition is_finite (x : float) : bool :=
  match x with S754_zero _ | S754_finite _ _ _ => true | _ => false end.

(** A float that is not a NaN and whose sign bit is [s]. *)
Definition signed (s : bool) (x : float) : Prop :=
  match x with
  | S754_nan => False
  | S754_zero s' | S754_infinity s' | S754_finite s' _ _ => s' = s
  end.

(** A Python number: the source mixes the integer literal [0] with floats. *)
Inductive number :=
| PyInt (n : Z)
| PyFloat (x : float).

(** [x < 0] and [x != x] on numbers. *)
Definition number_negative (x : number) : bool :=
  match x with
  | PyInt n => (n <? 0)%Z
  | PyFloat x => SFltb x f0
  end.

Definition number_is_nan (x : number) : bool :=
  match x with
  | PyInt _ => false
  | PyFloat x => is_nan x
  end.

(** ** Rows *)

(** Values of user metadata and of JSON-like data returned by the cluster. *)
Inductive pyval :=
| VNone
| VInt (n : Z)
| VStr (s : pystr)
| VBytes (b : list byte)
| VList (l : list pyval)
| VDict (d : list (pystr * pyval)).

(** The hashable values that can be keys of the tags dictionary. *)
Inductive key :=
| KInt (n : Z)
| KStr (s : pystr)
| KBytes (b : list byte).

Definition key_eq_dec : forall a b : key, {a = b} + {a <> b}.
Proof.
  decide equality.
  - apply Z.eq_dec.
  - apply pystr_eq_dec.
  - apply (list_eq_dec Byte.byte_eq_dec).
Defined.

#[export] Instance pystr_EqDec : EqDec pystr := pystr_eq_dec.
#[export] Instance key_EqDec : EqDec key := key_eq_dec.

Definition tags_t := Dict.t key pyval.

(** The list
    [[protocol, exposure_type, name, fs_path, used_space, free_space,
      usable_space, used_pct, tags_dict]]. *)
Record Row := mkRow {
  protocol : pystr;
  exposure_type : pystr;
  name : pystr;
  fs_path : pystr;
  used_space : float;
  free_space : float;
  usable_space : float;
  used_pct : number;
  tags_dict : tags_t
}.

(** The dictionary built per path by [deduplicate_rows]. *)
Record DedupRow := mkDedupRow {
  d_fs_path : pystr;
  d_used_space : float;
  d_free_space : float;
  d_usable_space : float;
  d_used_pct : number;
  d_exposures : list pystr;
  d_tags : tags_t
}.

(** ** Exceptions, results and the world *)

Inductive exn :=
| KeyError (k : pystr)
| AttributeError (attr : pystr)
| TypeError
| OverflowError
| SystemExit (status : Z)
| RequestError (msg : pystr).

Inductive result (A : Type) :=
| Ok (a : A)
| Raise (e : exn).
Arguments Ok {A} a.
Arguments Raise {A} e.

Definition rbind {A B} (r : result A) (k : A -> result B) : result B :=
  match r with
  | Ok a => k a
  | Raise e => Raise e
  end.

(** A request sent to the cluster. *)
Inductive call :=
| FsStats
| SmbListShares
| NfsListExports
| S3ListBuckets
| DirAggregates (path : pystr)
| ListUserMetadata (path : pystr).

(** What the program has done so far: the connections it has built, the
    requests it has sent (oldest first), the CSV files it has opened for
    writing with the rows written to each, and the lines it has printed. *)
Record World := mkWorld {
  connections : list (pystr * pystr);
  calls : list call;
  files : Dict.t pystr (list (list pystr));
  stdout : list pystr
}.

Definition initial_world : World := mkWorld [] [] [] [].

(** An exposure record: a dictionary (SMB shares, NFS exports) or an object
    with attributes (S3 buckets). *)
Inductive item :=
| DictItem (d : Dict.t pystr pystr)
| ObjItem (attrs : Dict.t pystr pystr).

(** A page of the metadata listing: a response with or without a [data]
    attribute. *)
Inductive page :=
| PageNoData
| PageData (data : pyval).

(** The paginated metadata sequence: the pages it yields and the exception,
    if any, that ends the iteration after them. *)
Record page_stream := mkStream {
  pages : list page;
  failure : option exn
}.

(** The cluster behind the connection.  Each answer may depend on the
    requests made before ([list call]).  [read_fs_stats] answers
    [(float(data["free_size_bytes"]), float(data["total_size_bytes"]))],
    [read_dir_aggregates] answers [float(data["total_capacity"])], the three
    listings answer [data["entries"]] and [buckets]. *)
Record Cluster := mkCluster {
  read_fs_stats : list call -> result (float * float);
  smb_list_shares : list call -> result (list item);
  nfs_list_exports : list call -> result (list item);
  s3_list_buckets : list call -> result (list item);
  read_dir_aggregates : list call -> pystr -> result float;
  list_user_metadata : list call -> pystr -> page_stream
}.

(** State and exception monad over the world. *)
Definition M (A : Type) := World -> result A * World.

Definition ret {A} (a : A) : M A := fun w => (Ok a, w).

Definition bind {A B} (m : M A) (k : A -> M B) : M B :=
  fun w =>
    match m w with
    | (Ok a, w') => k a w'
    | (Raise e, w') => (Raise e, w')
    end.

Definition raise {A} (e : exn) : M A := fun w => (Raise e, w).

Definition lift {A} (r : result A) : M A := fun w => (r, w).

Declare Scope monad_scope.
Delimit Scope monad_scope with monad.
Notation "x <- c1 ;; c2" := (bind c1 (fun x => c2))
  (at level 100, c1 at next level, right associativity) : monad_scope.
Notation "' pat <- c1 ;; c2" := (bind c1 (fun x => match x with pat => c2 end))
  (at level 100, pat pattern, c1 at next level, right associativity)
  : monad_scope.
Notation "c1 ;; c2" := (bind c1 (fun _ => c2))
  (at level 100, right associativity) : monad_scope.
Open Scope monad_scope.

(** [for x in l: acc = body(acc, x)] *)
Fixpoint for_each {A S} (body : S -> A -> M S) (l : list A) (acc : S) : M S :=
  match l with
  | [] => ret acc
  | x :: l' => acc' <- body acc x ;; for_each body l' acc'
  end.

(** Sending a request: it is recorded, and answered from the history. *)
Definition request {A} (c : call) (answer : list call -> result A) : M A :=
  fun w =>
    (answer (calls w),
     mkWorld (connections w) (calls w ++ [c]) (files w) (stdout w)).

Definition print (line : pystr) : M unit :=
  fun w =>
    (Ok tt, mkWorld (connections w) (calls w) (files w) (stdout w ++ [line])).

(** [open(name, "w")]: the file is created, or emptied. *)
Definition open_w (name : pystr) : M unit :=
  fun w =>
    (Ok tt,
     mkWorld (connections w) (calls w) (Dict.set name [] (files w)) (stdout w)).

(** [writer.writerow(cells)] on the file opened under [name]. *)
Definition writerow (name : pystr) (cells : list pystr) : M unit :=
  fun w =>
    (Ok tt,
     mkWorld (connections w) (calls w)
       (Dict.adjust (fun rows => rows ++ [cells]) name (files w)) (stdout w)).

(** ** Decoding bytes: [bytes.decode("utf-8")] *)

Definition in_range (lo hi b : N) : bool := ((lo <=? b) && (b <=? hi))%N.

Definition is_cont (b : N) : bool := in_range 128 191 b.

(** The second byte a lead byte of a three- or four-byte sequence admits. *)
Definition second_ok (b0 b1 : N) : bool :=
  if (b0 =? 224)%N then in_range 160 191 b1
  else if (b0 =? 237)%N then in_range 128 159 b1
  else if (b0 =? 240)%N then in_range 144 191 b1
  else if (b0 =? 244)%N then in_range 128 143 b1
  else is_cont b1.

(** The code points of a byte string, with [None] for every maximal
    ill-formed part. *)
Fixpoint utf8_scan (bs : list N) : list (option N) :=
  match bs with
  | [] => []
  | b0 :: r0 =>
      if (b0 <? 128)%N then Some b0 :: utf8_scan r0
      else if in_range 194 223 b0 then
        match r0 with
        | [] => [None]
        | b1 :: r1 =>
            if is_cont b1
            then Some ((b0 - 192) * 64 + (b1 - 128))%N :: utf8_scan r1
            else None :: utf8_scan r0
        end
      else if in_range 224 239 b0 then
        match r0 with
        | [] => [None]
        | b1 :: r1 =>
            if second_ok b0 b1 then
              match r1 with
              | [] => [None]
              | b2 :: r2 =>
                  if is_cont b2
                  then Some ((b0 - 224) * 4096 + (b1 - 128) * 64
                             + (b2 - 128))%N :: utf8_scan r2
                  else None :: utf8_scan r1
              end
            else None :: utf8_scan r0
        end
      else if in_range 240 244 b0 then
        match r0 with
        | [] => [None]
        | b1 :: r1 =>
            if second_ok b0 b1 then
              match r1 with
              | [] => [None]
              | b2 :: r2 =>
                  if is_cont b2 then
                    match r2 with
                    | [] => [None]
                    | b3 :: r3 =>
                        if is_cont b3
                        then Some ((b0 - 240) * 262144 + (b1 - 128) * 4096
                                   + (b2 - 128) * 64 + (b3 - 128))%N
                               :: utf8_scan r3
                        else None :: utf8_scan r2
                    end
                  else None :: utf8_scan r1
              end
            else None :: utf8_scan r0
        end
      else None :: utf8_scan r0
  end.

Fixpoint all_some {A} (l : list (option A)) : option (list A) :=
  match l with
  | [] => Some []
  | Some a :: l' =>
      match all_some l' with Some r => Some (a :: r) | None => None end
  | None :: _ => None
  end.

(** [b.decode("utf-8")]; [None] stands for [UnicodeDecodeError]. *)
Definition decode_utf8 (b : list byte) : option pystr :=
  all_some (utf8_scan (map Byte.to_N b)).

(** [b.decode("utf-8", errors="replace")] *)
Definition decode_utf8_replace (b : list byte) : pystr :=
  map (fun c => match c with Some c => c | None => 65533%N end)
    (utf8_scan (map Byte.to_N b)).

(** ** get_user_metadata *)

(** [for record in entries]: the elements the iteration yields. *)
Definition iterate (entries : pyval) : result (list pyval) :=
  match entries with
  | VList l => Ok l
  | VDict d => Ok (map (fun kv => VStr (fst kv)) d)
  | VStr s => Ok (map (fun c => VStr [c]) s)
  | VBytes b => Ok (map (fun x => VInt (Z.of_N (Byte.to_N x))) b)
  | VNone | VInt _ => Raise TypeError
  end.

(** [record.get(k)] *)
Definition record_get (record : pyval) (k : pystr) : result pyval :=
  match record with
  | VDict d =>
      Ok (match Dict.get k d with Some v => v | None => VNone end)
  | _ => Raise (AttributeError (lit "get"))
  end.

(** The conversion of a bytes value (lines 87-92), other values unchanged. *)
Definition decode_value (value : pyval) : pyval :=
  match value with
  | VBytes b =>
      match decode_utf8 b with
      | Some s => VStr s
      | None => VStr (decode_utf8_replace b)
      end
  | _ => value
  end.

(** [if key is not None: tags[key] = value] *)
Definition store (tags : tags_t) (k value : pyval) : result tags_t :=
  match k with
  | VNone => Ok tags
  | VInt n => Ok (Dict.set (KInt n) value tags)
  | VStr s => Ok (Dict.set (KStr s) value tags)
  | VBytes b => Ok (Dict.set (KBytes b) value tags)
  | VList _ | VDict _ => Raise TypeError
  end.

(** The body of the inner loop, for one record. *)
Definition store_record (tags : tags_t) (record : pyval) : result tags_t :=
  rbind (record_get record (lit "key")) (fun k =>
  rbind (record_get record (lit "value")) (fun value =>
  store tags k (decode_value value))).

Fixpoint fold_result {A S} (body : S -> A -> result S) (l : list A) (acc : S)
  : result S :=
  match l with
  | [] => Ok acc
  | x :: l' => rbind (body acc x) (fold_result body l')
  end.

(** The body of the outer loop, for one page. *)
Definition store_page (tags : tags_t) (pg : page) : result tags_t :=
  match pg with
  | PageData (VDict d) =>
      let entries :=
        match Dict.get (lit "entries") d with Some v => v | None => VList [] end
      in
      rbind (iterate entries) (fun records =>
      fold_result store_record records tags)
  | _ => Ok tags
  end.

Definition get_user_metadata (cluster : Cluster) (path : pystr) : M tags_t :=
  metadata_iter <-
    request (ListUserMetadata path)
      (fun h => Ok (list_user_metadata cluster h path)) ;;
  tags <- lift (fold_result store_page (pages metadata_iter) []) ;;
  match failure metadata_iter with
  | Some e => raise e
  | None => ret tags
  end.

(** ** Capacity readers and process_exposure_item *)

Definition get_directory_capacity (cluster : Cluster) (path : pystr)
  : M float :=
  total_capacity <-
    request (DirAggregates path) (fun h => read_dir_aggregates cluster h path) ;;
  ret (fdiv total_capacity f1e9).

Definition get_cluster_stats (cluster : Cluster) : M (float * float) :=
  stats <- request FsStats (read_fs_stats cluster) ;;
  ret (fdiv (fst stats) f1e9, fdiv (snd stats) f1e9).

Definition get_smb_shares (cluster : Cluster) : M (list item) :=
  request SmbListShares (smb_list_shares cluster).

Definition get_nfs_exports (cluster : Cluster) : M (list item) :=
  request NfsListExports (nfs_list_exports cluster).

Definition get_s3_buckets (cluster : Cluster) : M (list item) :=
  request S3ListBuckets (s3_list_buckets cluster).

(** [item[k]] on a dictionary, [getattr(item, k)] on an object. *)
Definition item_field (it : item) (k : pystr) : result pystr :=
  match it with
  | DictItem d =>
      match Dict.get k d with Some v => Ok v | None => Raise (KeyError k) end
  | ObjItem attrs =>
      match Dict.get k attrs with
      | Some v => Ok v
      | None => Raise (AttributeError k)
      end
  end.

(** [(used_space / (used_space + free_space)) * 100 if free_space > 0 else 0] *)
Definition compute_used_pct (used_space free_space : float) : number :=
  if SFltb f0 free_space
  then PyFloat (fmul (fdiv used_space (fadd used_space free_space)) f100)
  else PyInt 0.

Definition process_exposure_item (cluster : Cluster) (it : item)
    (protocol exposure_type name_key fs_path_key : pystr)
    (free_space usable_space : float) : M Row :=
  name <- lift (item_field it name_key) ;;
  fs_path <- lift (item_field it fs_path_key) ;;
  used_space <- get_directory_capacity cluster fs_path ;;
  let used_pct := compute_used_pct used_space free_space in
  tags_dict <- get_user_metadata cluster fs_path ;;
  ret (mkRow protocol exposure_type name fs_path used_space free_space
         usable_space used_pct tags_dict).

(** ** Formatting numbers: [str(n)] and [f"{x:.3f}"] *)

Fixpoint decimal_aux (fuel : nat) (n : N) (acc : pystr) : pystr :=
  match fuel with
  | O => acc
  | S fuel' =>
      let acc' := (48 + n mod 10)%N :: acc in
      if (n / 10 =? 0)%N then acc' else decimal_aux fuel' (n / 10) acc'
  end.

(** The decimal digits of a natural number. *)
Definition decimal (n : N) : pystr := decimal_aux (S (N.size_nat n)) n [].

(** [str(n)] for an integer. *)
Definition str_of_int (n : Z) : pystr :=
  (if (n <? 0)%Z then lit "-" else []) ++ decimal (Z.abs_N n).

(** The integer nearest to [num / den], ties to even ([0 < den]). *)
Definition round_half_even (num den : Z) : Z :=
  let q := (num / den)%Z in
  match (2 * (num mod den) ?= den)%Z with
  | Lt => q
  | Gt => (q + 1)%Z
  | Eq => if Z.even q then q else (q + 1)%Z
  end.

(** A number of thousandths [q >= 0] in fixed notation, with three digits
    after the point. *)
Definition fixed3 (negative : bool) (q : Z) : pystr :=
  (if negative then lit "-" else [])
  ++ decimal (Z.to_N (q / 1000))
  ++ lit "."
  ++ [ (48 + Z.to_N (q mod 1000 / 100))%N;
       (48 + Z.to_N (q mod 100 / 10))%N;
       (48 + Z.to_N (q mod 10))%N ].

(** The thousandths nearest to [m * 2^e], ties to even. *)
Definition thousandths (m : positive) (e : Z) : Z :=
  match e with
  | Zneg p => round_half_even (Zpos m * 1000) (2 ^ Zpos p)
  | _ => (Zpos m * 2 ^ e * 1000)%Z
  end.

(** [f"{x:.3f}"] for a float: the correctly rounded decimal expansion. *)
Definition format_3f (x : float) : pystr :=
  match x with
  | S754_nan => lit "nan"
  | S754_infinity s => if s then lit "-inf" else lit "inf"
  | S754_zero s => fixed3 s 0
  | S754_finite s m e => fixed3 s (thousandths m e)
  end.

(** [float(n)] for an integer. *)
Definition float_of_int (n : Z) : result float :=
  match binary_normalize prec emax n 0 false with
  | S754_infinity _ => Raise OverflowError
  | x => Ok x
  end.

(** [f"{x:.3f}"] for a number: an integer is converted to a float first. *)
Definition format_number_3f (x : number) : result pystr :=
  match x with
  | PyFloat x => Ok (format_3f x)
  | PyInt n => rbind (float_of_int n) (fun x => Ok (format_3f x))
  end.

(** ** [json.dumps] *)

Definition hex_digit (d : N) : N :=
  if (d <? 10)%N then (48 + d)%N else (87 + d)%N.

(** ['{0:04x}'.format(n)] *)
Definition hex4 (n : N) : pystr :=
  [ hex_digit (n / 4096 mod 16); hex_digit (n / 256 mod 16);
    hex_digit (n / 16 mod 16); hex_digit (n mod 16) ]%N.

(** The replacement of one character in [json.dumps], [ensure_ascii] on.
    (In the literals below the backslash is an ordinary character.) *)
Definition escape_char (c : N) : pystr :=
  if (c =? 34)%N then [92; 34]%N
  else if (c =? 92)%N then lit "\\"
  else if (c =? 10)%N then lit "\n"
  else if (c =? 13)%N then lit "\r"
  else if (c =? 9)%N then lit "\t"
  else if (c =? 8)%N then lit "\b"
  else if (c =? 12)%N then lit "\f"
  else if in_range 32 126 c then [c]
  else if (c <? 65536)%N then lit "\u" ++ hex4 c
  else
    let n := (c - 65536)%N in
    lit "\u" ++ hex4 (55296 + n / 1024 mod 1024)
    ++ lit "\u" ++ hex4 (56320 + n mod 1024).

Definition json_string (s : pystr) : pystr :=
  [34%N] ++ flat_map escape_char s ++ [34%N].

Fixpoint json_dumps (v : pyval) : result pystr :=
  match v with
  | VNone => Ok (lit "null")
  | VInt n => Ok (str_of_int n)
  | VStr s => Ok (json_string s)
  | VBytes _ => Raise TypeError
  | VList l =>
      rbind
        ((fix items (l : list pyval) : result (list pystr) :=
            match l with
            | [] => Ok []
            | x :: l' =>
                rbind (json_dumps x) (fun px =>
                rbind (items l') (fun pl => Ok (px :: pl)))
            end) l)
        (fun parts => Ok (lit "[" ++ join (lit ", ") parts ++ lit "]"))
  | VDict d =>
      rbind
        ((fix members (d : list (pystr * pyval)) : result (list pystr) :=
            match d with
            | [] => Ok []
            | (k, x) :: d' =>
                rbind (json_dumps x) (fun px =>
                rbind (members d') (fun pl =>
                Ok ((json_string k ++ lit ": " ++ px) :: pl)))
            end) d)
        (fun parts => Ok (lit "{" ++ join (lit ", ") parts ++ lit "}"))
  end.

(** A dictionary key as [json.dumps] writes it. *)
Definition json_key (k : key) : result pystr :=
  match k with
  | KStr s => Ok (json_string s)
  | KInt n => Ok (json_string (str_of_int n))
  | KBytes _ => Raise TypeError
  end.

Fixpoint json_members (tags : tags_t) : result (list pystr) :=
  match tags with
  | [] => Ok []
  | (k, x) :: tags' =>
      rbind (json_key k) (fun pk =>
      rbind (json_dumps x) (fun px =>
      rbind (json_members tags') (fun pl =>
      Ok ((pk ++ lit ": " ++ px) :: pl))))
  end.

(** [json.dumps(tags_dict)] *)
Definition json_dumps_tags (tags : tags_t) : result pystr :=
  rbind (json_members tags) (fun parts =>
  Ok (lit "{" ++ join (lit ", ") parts ++ lit "}")).

(** ** deduplicate_rows *)

(** [f"{protocol}:{exposure_type}:{name}"] *)
Definition exposure_label (row : Row) : pystr :=
  protocol row ++ lit ":" ++ exposure_type row ++ lit ":" ++ name row.

Definition append_exposure (exposure : pystr) (e : DedupRow) : DedupRow :=
  mkDedupRow (d_fs_path e) (d_used_space e) (d_free_space e)
    (d_usable_space e) (d_used_pct e) (d_exposures e ++ [exposure]) (d_tags e).

Definition new_entry (row : Row) : DedupRow :=
  mkDedupRow (fs_path row) (used_space row) (free_space row)
    (usable_space row) (used_pct row) [exposure_label row] (tags_dict row).

(** One iteration of the loop of [deduplicate_rows]. *)
Definition dedup_step (dedup : Dict.t pystr DedupRow) (row : Row)
  : Dict.t pystr DedupRow :=
  let exposure := exposure_label row in
  if Dict.contains (fs_path row) dedup
  then Dict.adjust (append_exposure exposure) (fs_path row) dedup
  else Dict.set (fs_path row) (new_entry row) dedup.

Definition deduplicate_rows (data_rows : list Row) : list DedupRow :=
  Dict.values (fold_left dedup_step data_rows []).

(** ** [json.loads] *)

(** The value of a hexadecimal digit. *)
Definition hex_value (c : N) : option N :=
  if in_range 48 57 c then Some (c - 48)%N
  else if in_range 97 102 c then Some (c - 87)%N
  else if in_range 65 70 c then Some (c - 55)%N
  else None.

Definition hex4_value (a b c d : N) : option N :=
  match hex_value a, hex_value b, hex_value c, hex_value d with
  | Some x3, Some x2, Some x1, Some x0 =>
      Some (((x3 * 16 + x2) * 16 + x1) * 16 + x0)%N
  | _, _, _, _ => None
  end.

(** The character a one-letter escape stands for. *)
Definition unescape (e : N) : option N :=
  if (e =? 34)%N then Some 34%N
  else if (e =? 92)%N then Some 92%N
  else if (e =? 47)%N then Some 47%N
  else if (e =? 98)%N then Some 8%N
  else if (e =? 102)%N then Some 12%N
  else if (e =? 110)%N then Some 10%N
  else if (e =? 114)%N then Some 13%N
  else if (e =? 116)%N then Some 9%N
  else None.

Definition cons_char (c : N) (r : option (pystr * pystr))
  : option (pystr * pystr) :=
  match r with
  | Some (s, rest) => Some (c :: s, rest)
  | None => None
  end.

(** The scanner of a JSON string, from the character after the opening
    quote: the string and the text after the closing quote.  Control
    characters are refused; an escaped high surrogate followed by an escaped
    low surrogate is one character. *)
Fixpoint scanstring (s : pystr) : option (pystr * pystr) :=
  match s with
  | [] => None
  | c :: r =>
      if (c =? 34)%N then Some ([], r)
      else if (c =? 92)%N then
        match r with
        | [] => None
        | e :: r1 =>
            if (e =? 117)%N then
              match r1 with
              | a :: b :: c1 :: d :: r2 =>
                  match hex4_value a b c1 d with
                  | None => None
                  | Some u =>
                      if in_range 55296 56319 u then
                        match r2 with
                        | x :: y :: a2 :: b2 :: c2 :: d2 :: r3 =>
                            if ((x =? 92) && (y =? 117))%N then
                              match hex4_value a2 b2 c2 d2 with
                              | None => None
                              | Some u2 =>
                                  if in_range 56320 57343 u2
                                  then cons_char
                                         (65536 + (u - 55296) * 1024
                                          + (u2 - 56320))%N
                                         (scanstring r3)
                                  else cons_char u (scanstring r2)
                              end
                            else cons_char u (scanstring r2)
                        | _ => cons_char u (scanstring r2)
                        end
                      else cons_char u (scanstring r2)
                  end
              | _ => None
              end
            else
              match unescape e with
              | Some ch => cons_char ch (scanstring r1)
              | None => None
              end
        end
      else if (c <? 32)%N then None
      else cons_char c (scanstring r)
  end.

Definition is_ws (c : N) : bool :=
  ((c =? 32) || (c =? 9) || (c =? 10) || (c =? 13))%N.

Fixpoint skip_ws (s : pystr) : pystr :=
  match s with
  | c :: r => if is_ws c then skip_ws r else s
  | [] => []
  end.

(** The members of an object whose values are strings, up to the closing
    brace and the end of the text. *)
Fixpoint parse_members (fuel : nat) (s : pystr) (acc : tags_t)
  : option tags_t :=
  match fuel with
  | O => None
  | S fuel' =>
      match s with
      | q :: r =>
          if negb (q =? 34)%N then None else
          match scanstring r with
          | None => None
          | Some (k, r1) =>
              match skip_ws r1 with
              | colon :: r2 =>
                  if negb (colon =? 58)%N then None else
                  match skip_ws r2 with
                  | q2 :: r3 =>
                      if negb (q2 =? 34)%N then None else
                      match scanstring r3 with
                      | None => None
                      | Some (v, r4) =>
                          let acc' := Dict.set (KStr k) (VStr v) acc in
                          match skip_ws r4 with
                          | x :: r5 =>
                              if (x =? 125)%N then
                                match skip_ws r5 with
                                | [] => Some acc'
                                | _ :: _ => None
                                end
                              else if (x =? 44)%N
                              then parse_members fuel' (skip_ws r5) acc'
                              else None
                          | [] => None
                          end
                      end
                  | [] => None
                  end
              | [] => None
              end
          end
      | [] => None
      end
  end.

(** [json.loads(text)] on the texts that are objects with string values:
    the dictionary, or [None] for a text that is not valid JSON.  Texts
    with other kinds of values are outside this model (also [None]). *)
Definition json_loads (text : pystr) : option tags_t :=
  match skip_ws text with
  | brace :: r =>
      if negb (brace =? 123)%N then None else
      match skip_ws r with
      | x :: r' =>
          if (x =? 125)%N then
            match skip_ws r' with
            | [] => Some []
            | _ :: _ => None
            end
          else parse_members (List.length text) (x :: r') []
      | [] => None
      end
  | [] => None
  end.

(** ** The report writers *)

Definition enumerated_header : list pystr :=
  [ lit "Date"; lit "Protocol"; lit "Exposure Type"; lit "Exposure Name";
    lit "Filesystem Path"; lit "Path Used Space (GB)";
    lit "Cluster Free Space (GB)"; lit "Cluster Usable Space (GB)";
    lit "Used %"; lit "tags" ].

(** The cells of one data row of the enumerated report. *)
Definition enumerated_cells (date_str : pystr) (row : Row)
  : result (list pystr) :=
  rbind (format_number_3f (used_pct row)) (fun pct =>
  rbind (json_dumps_tags (tags_dict row)) (fun tags =>
  Ok [ date_str; protocol row; exposure_type row; name row; fs_path row;
       format_3f (used_space row); format_3f (free_space row);
       format_3f (usable_space row); pct; tags ])).

Definition write_csv_enumerated (data_rows : list Row)
    (date_str output_filename : pystr) : M unit :=
  open_w output_filename ;;
  writerow output_filename enumerated_header ;;
  for_each
    (fun _ row =>
       cells <- lift (enumerated_cells date_str row) ;;
       writerow output_filename cells)
    data_rows tt.

Definition dedup_header : list pystr :=
  [ lit "Date"; lit "Filesystem Path"; lit "Path Used Space (GB)";
    lit "Cluster Free Space (GB)"; lit "Cluster Usable Space (GB)";
    lit "Used %"; lit "Exposures"; lit "tags" ].

(** The cells of one data row of the deduplicated report. *)
Definition dedup_cells (date_str : pystr) (row : DedupRow)
  : result (list pystr) :=
  rbind (format_number_3f (d_used_pct row)) (fun pct =>
  rbind (json_dumps_tags (d_tags row)) (fun tags =>
  Ok [ date_str; d_fs_path row;
       format_3f (d_used_space row); format_3f (d_free_space row);
       format_3f (d_usable_space row); pct;
       join (lit ", ") (d_exposures row); tags ])).

Definition write_csv_dedup (dedup_rows : list DedupRow)
    (date_str output_filename : pystr) : M unit :=
  open_w output_filename ;;
  writerow output_filename dedup_header ;;
  for_each
    (fun _ row =>
       cells <- lift (dedup_cells date_str row) ;;
       writerow output_filename cells)
    dedup_rows tt.

(** ** main *)

(** The parsed command line. *)
Record Args := mkArgs {
  enumerate_exposures : bool;
  host : option pystr;
  access_token : option pystr
}.

(** What a run finds around it: the dictionary [load_config] returns (empty
    when there is no file), the date of the day as ['%Y-%m-%d'], and the
    cluster. *)
Record Env := mkEnv {
  config : Dict.t pystr pystr;
  today : pystr;
  cluster : Cluster
}.

(** Truth value of [None] or a string. *)
Definition truthy (x : option pystr) : bool :=
  match x with
  | Some (_ :: _) => true
  | _ => false
  end.

(** [parser.error(message)]: usage and message go to the standard error
    stream, and the process exits with status 2. *)
Definition parser_error {A} (message : pystr) : M A := raise (SystemExit 2).

Definition get_connection (host access_token : pystr) : M unit :=
  fun w =>
    (Ok tt,
     mkWorld (connections w ++ [(host, access_token)]) (calls w) (files w)
       (stdout w)).

(** One of the three loops of [main] over a listing. *)
Definition process_all (cluster : Cluster) (items : list item)
    (protocol exposure_type name_key fs_path_key : pystr)
    (free_space usable_space : float) (data_rows : list Row) : M (list Row) :=
  for_each
    (fun data_rows it =>
       row <- process_exposure_item cluster it protocol exposure_type name_key
                fs_path_key free_space usable_space ;;
       ret (data_rows ++ [row]))
    items data_rows.

Definition summary (count_smb count_nfs count_s3 : nat) : pystr :=
  lit "Summary: Processed " ++ str_of_int (Z.of_nat count_smb)
  ++ lit " SMB shares, " ++ str_of_int (Z.of_nat count_nfs)
  ++ lit " NFS exports, and " ++ str_of_int (Z.of_nat count_s3)
  ++ lit " S3 buckets ("
  ++ str_of_int (Z.of_nat (count_smb + count_nfs + count_s3))
  ++ lit " total exposures).".

Definition output_name (args : Args) (today : pystr) : pystr :=
  let base_filename := lit "qumulo_exposure_report_" ++ today in
  if enumerate_exposures args
  then base_filename ++ lit "_enumerated.csv"
  else base_filename ++ lit "_dedup.csv".

(** [main], from the parsed arguments on. *)
Definition main (env : Env) (args : Args) : M unit :=
  let host :=
    if truthy (host args) then host args
    else Dict.get (lit "host") (config env) in
  let access_token :=
    if truthy (access_token args) then access_token args
    else Dict.get (lit "access_token") (config env) in
  match host, access_token with
  | Some ((_ :: _) as host), Some ((_ :: _) as access_token) =>
      get_connection host access_token ;;
      let today := today env in
      let output_csv := output_name args today in
      stats <- get_cluster_stats (cluster env) ;;
      let free_space := fst stats in
      let usable_space := snd stats in
      let data_rows := [] in
      smb_shares <- get_smb_shares (cluster env) ;;
      data_rows <-
        process_all (cluster env) smb_shares (lit "SMB") (lit "Share")
          (lit "share_name") (lit "fs_path") free_space usable_space data_rows ;;
      nfs_exports <- get_nfs_exports (cluster env) ;;
      data_rows <-
        process_all (cluster env) nfs_exports (lit "NFS") (lit "Export")
          (lit "export_path") (lit "fs_path") free_space usable_space
          data_rows ;;
      s3_buckets <- get_s3_buckets (cluster env) ;;
      data_rows <-
        process_all (cluster env) s3_buckets (lit "S3") (lit "Bucket")
          (lit "name") (lit "path") free_space usable_space data_rows ;;
      (if enumerate_exposures args
       then write_csv_enumerated data_rows today output_csv
       else write_csv_dedup (deduplicate_rows data_rows) today output_csv) ;;
      print (lit "Report written to " ++ output_csv) ;;
      print (summary (List.length smb_shares) (List.length nfs_exports)
               (List.length s3_buckets))
  | _, _ =>
      parser_error
        (lit "Host and access token must be provided via command line or .config file.")
  end.

(** The vocabulary of the statements about [deduplicate_rows]. *)

Definition has_path (p : pystr) (row : Row) : bool :=
  pystr_eqb (fs_path row) p.

(** The distinct elements of a list, in the order of their first occurrence. *)
Fixpoint first_seen (l : list pystr) : list pystr :=
  match l with
  | [] => []
  | p :: l' => p :: filter (fun q => negb (pystr_eqb q p)) (first_seen l')
  end.

(** The entry the specification expects for path [p]: the capacity figures
    and tags of the first row carrying [p], and the labels of all the rows
    carrying [p], in input order. *)
Definition merged_entry (p : pystr) (rows : list Row) : option DedupRow :=
  match find (has_path p) rows with
  | Some r =>
      Some (mkDedupRow (fs_path r) (used_space r) (free_space r)
              (usable_space r) (used_pct r)
              (map exposure_label (filter (has_path p) rows)) (tags_dict r))
  | None => None
  end.

(** ** The two phases of [main] *)

(** Lines 236-282: the capacity snapshot, the three listings and the rows;
    returns the rows with the three listings' lengths. *)
Definition gather (cluster : Cluster) : M (list Row * (nat * nat * nat)) :=
  stats <- get_cluster_stats cluster ;;
  let free_space := fst stats in
  let usable_space := snd stats in
  smb_shares <- get_smb_shares cluster ;;
  data_rows <-
    process_all cluster smb_shares (lit "SMB") (lit "Share")
      (lit "share_name") (lit "fs_path") free_space usable_space [] ;;
  nfs_exports <- get_nfs_exports cluster ;;
  data_rows <-
    process_all cluster nfs_exports (lit "NFS") (lit "Export")
      (lit "export_path") (lit "fs_path") free_space usable_space data_rows ;;
  s3_buckets <- get_s3_buckets cluster ;;
  data_rows <-
    process_all cluster s3_buckets (lit "S3") (lit "Bucket")
      (lit "name") (lit "path") free_space usable_space data_rows ;;
  ret (data_rows,
       (List.length smb_shares, List.length nfs_exports,
        List.length s3_buckets)).

(** Lines 284-298: the CSV output and the two printed lines. *)
Definition emit (args : Args) (today : pystr) (data_rows : list Row)
    (counts : nat * nat * nat) : M unit :=
  let output_csv := output_name args today in
  (if enumerate_exposures args
   then write_csv_enumerated data_rows today output_csv
   else write_csv_dedup (deduplicate_rows data_rows) today output_csv) ;;
  print (lit "Report written to " ++ output_csv) ;;
  print (summary (fst (fst counts)) (snd (fst counts)) (snd counts)).

(** The host or token in force: the command line first, then the
    configuration. *)
Definition effective (cli : option pystr) (k : string) (env : Env)
  : option pystr :=
  if truthy cli then cli else Dict.get (lit k) (config env).

(** ** Vocabulary of the statements about the report *)

(** The cells that identify an exposure in a row. *)
Definition row_labels (row : Row) : list pystr :=
  [protocol row; exposure_type row; name row; fs_path row].

(** The same cells, from the exposure record. *)
Definition item_labels (protocol exposure_type name_key fs_path_key : pystr)
    (it : item) : result (list pystr) :=
  rbind (item_field it name_key) (fun name =>
  rbind (item_field it fs_path_key) (fun fs_path =>
  Ok [protocol; exposure_type; name; fs_path])).

(** The cells of the rows a writer's loop writes: those of the rows before
    the first one whose rendering raises. *)
Fixpoint rendered_prefix {R} (render : R -> result (list pystr))
    (rows : list R) : list (list pystr) :=
  match rows with
  | [] => []
  | r :: rows' =>
      match render r with
      | Ok cells => cells :: rendered_prefix render rows'
      | Raise _ => []
      end
  end.

(** The outcome of the same loop. *)
Fixpoint rendered_result {R} (render : R -> result (list pystr))
    (rows : list R) : result unit :=
  match rows with
  | [] => Ok tt
  | r :: rows' =>
      match render r with
      | Ok _ => rendered_result render rows'
      | Raise e => Raise e
      end
  end.

Definition is_digit (c : N) : bool := in_range 48 57 c.

Fixpoint span_digits (s : pystr) : pystr * pystr :=
  match s with
  | [] => ([], [])
  | c :: s' =>
      if is_digit c
      then let (ds, rest) := span_digits s' in (c :: ds, rest)
      else ([], s)
  end.

(** A text in fixed notation with exactly three decimal places: an optional
    minus sign, one or more digits, a point, three digits. *)
Definition three_decimals (s : pystr) : bool :=
  let body :=
    match s with
    | c :: r => if (c =? 45)%N then r else s
    | [] => s
    end in
  match span_digits body with
  | (_ :: _, [dot; a; b; c]) =>
      (dot =? 46)%N && is_digit a && is_digit b && is_digit c
  | _ => false
  end.

Definition number_is_finite (x : number) : bool :=
  match x with
  | PyInt _ => true
  | PyFloat x => is_finite x
  end.

(** ** Vocabulary of the statements about tags *)

(** A page of the expected shape: it has a [data] field, and that is a
    mapping. *)
Definition well_formed (pg : page) : bool :=
  match pg with
  | PageData (VDict _) => true
  | _ => false
  end.

(** The records the loops visit in a list of pages, in order. *)
Fixpoint all_records (pgs : list page) : result (list pyval) :=
  match pgs with
  | [] => Ok []
  | PageData (VDict d) :: pgs' =>
      rbind
        (iterate (match Dict.get (lit "entries") d with
                  | Some v => v
                  | None => VList []
                  end))
        (fun records =>
      rbind (all_records pgs') (fun records' => Ok (records ++ records')))
  | _ :: pgs' => all_records pgs'
  end.

(** The [key] and [value] fields of a record ([None] when absent). *)
Definition key_field (record : pyval) : pyval :=
  match record with
  | VDict d => match Dict.get (lit "key") d with Some v => v | None => VNone end
  | _ => VNone
  end.

Definition value_field (record : pyval) : pyval :=
  match record with
  | VDict d =>
      match Dict.get (lit "value") d with Some v => v | None => VNone end
  | _ => VNone
  end.

(** A value as a dictionary key, when it is hashable and not [None]. *)
Definition as_key (k : pyval) : option key :=
  match k with
  | VInt n => Some (KInt n)
  | VStr s => Some (KStr s)
  | VBytes b => Some (KBytes b)
  | _ => None
  end.

(** The pair a record adds to the tags; [None] for a record without key. *)
Definition binding (record : pyval) : option (key * pyval) :=
  match as_key (key_field record) with
  | Some k => Some (k, decode_value (value_field record))
  | None => None
  end.

Fixpoint bindings (records : list pyval) : list (key * pyval) :=
  match records with
  | [] => []
  | record :: records' =>
      match binding record with
      | Some kv => kv :: bindings records'
      | None => bindings records'
      end
  end.

(** The value of the last pair with key [k]. *)
Definition last_value (k : key) (kvs : list (key * pyval)) : option pyval :=
  match find (fun kv => if key_eq_dec k (fst kv) then true else false)
          (rev kvs) with
  | Some kv => Some (snd kv)
  | None => None
  end.

(** The text Python makes of a bytes value: the strict decoding, or the
    lossy one when the strict one fails. *)
Definition text_of_bytes (b : list byte) : pystr :=
  match decode_utf8 b with
  | Some s => s
  | None => decode_utf8_replace b
  end.

(** A Unicode scalar value: a code point that is not a surrogate.  Every
    printable character is one. *)
Definition is_scalar (c : N) : bool :=
  (c <? 55296)%N || in_range 57344 1114111 c.

(** A tags entry whose key and value are strings of scalar values. *)
Definition text_entry (kv : key * pyval) : bool :=
  match kv with
  | (KStr k, VStr v) => forallb is_scalar k && forallb is_scalar v
  | _ => false
  end.

Definition text_tags (tags : tags_t) : bool := forallb text_entry tags.

(** The member [json.dumps] writes for a text entry. *)
Definition member_text (kv : key * pyval) : pystr :=
  match kv with
  | (KStr k, VStr v) => json_string k ++ lit ": " ++ json_string v
  | _ => []
  end.

(** ** Vocabulary of the statements about failing requests *)

(** The exception with which request [c], sent after the requests [h], fails
    ([None] when it is answered).  A metadata listing fails when its
    iteration ends with an exception after its pages have been processed. *)
Definition failed (cluster : Cluster) (h : list call) (c : call)
  : option exn :=
  let error {A} (r : result A) :=
    match r with Ok _ => None | Raise e => Some e end in
  match c with
  | FsStats => error (read_fs_stats cluster h)
  | SmbListShares => error (smb_list_shares cluster h)
  | NfsListExports => error (nfs_list_exports cluster h)
  | S3ListBuckets => error (s3_list_buckets cluster h)
  | DirAggregates path => error (read_dir_aggregates cluster h path)
  | ListUserMetadata path =>
      let stream := list_user_metadata cluster h path in
      match fold_result store_page (pages stream) [] with
      | Ok _ => failure stream
      | Raise _ => None
      end
  end.

(** Every request of [new], sent in this order after [h], is answered. *)
Fixpoint all_answered (cluster : Cluster) (h new : list call) : Prop :=
  match new with
  | [] => True
  | c :: rest =>
      failed cluster h c = None /\ all_answered cluster (h ++ [c]) rest
  end.

(** A computation that only sends requests: it leaves connections, files and
    printed lines alone, and it raises the exception of the first request
    that fails, which is then the last request sent. *)
Definition reads_only {A} (cluster : Cluster) (m : M A) : Prop :=
  forall w, exists new,
    snd (m w) = mkWorld (connections w) (calls w ++ new) (files w) (stdout w) /\
    match fst (m w) with
    | Ok _ => all_answered cluster (calls w) new
    | Raise e =>
        all_answered cluster (calls w) new \/
        exists h c,
          new = h ++ [c] /\ all_answered cluster (calls w) h /\
          failed cluster (calls w ++ h) c = Some e
    end.

(** A host or a token is supplied when the command line or the
    configuration file gives a non-empty value for it. *)
Definition supplied (cli cfg : option pystr) : bool :=
  truthy cli || truthy cfg.

(** The number a text of decimal digits denotes. *)
Definition digits_value (s : pystr) : N :=
  fold_left (fun acc c => (10 * acc + (c - 48))%N) s 0%N.

(** ** Sample clusters *)

(** The float nearest to an integer. *)
Definition float_of_Z (n : Z) : float := binary_normalize prec emax n 0 false.

(** A cluster with 8 GB free of 20 GB, [shares], [exports] and [buckets] as
    its listings, [total_capacity] bytes under every path and a metadata
    listing of [stream] for every path. *)
Definition static_cluster (shares exports buckets : list item)
    (total_capacity : float) (stream : page_stream) : Cluster :=
  mkCluster
    (fun _ => Ok (float_of_Z 8000000000, float_of_Z 20000000000))
    (fun _ => Ok shares) (fun _ => Ok exports) (fun _ => Ok buckets)
    (fun _ _ => Ok total_capacity)
    (fun _ _ => stream).

Definition share (name path : string) : item :=
  DictItem [(lit "share_name", lit name); (lit "fs_path", lit path)].

Definition export (name path : string) : item :=
  DictItem [(lit "export_path", lit name); (lit "fs_path", lit path)].

Definition bucket (name path : string) : item :=
  ObjItem [(lit "name", lit name); (lit "path", lit path)].

Definition no_tags : page_stream := mkStream [] None.

(** A metadata record and a page of records. *)
Definition record (k value : pyval) : pyval :=
  VDict [(lit "key", k); (lit "value", value)].

Definition tag_page (records : list pyval) : page :=
  PageData (VDict [(lit "entries", VList records)]).

(** Two pages around a malformed one: the key "env" twice, a record without
    key, and a value that is not valid UTF-8. *)
Definition sample_stream : page_stream :=
  mkStream
    [ tag_page [ record (VStr (lit "env")) (VBytes (list_byte_of_string "dev"));
                 record VNone (VBytes (list_byte_of_string "lost")) ];
      PageNoData;
      tag_page [ record (VStr (lit "env")) (VStr (lit "prod"));
                 record (VStr (lit "raw")) (VBytes [Byte.xff; Byte.x41]) ] ]
    None.

(** A record without value and a record with an integer value. *)
Definition untyped_stream : page_stream :=
  mkStream
    [ tag_page [ VDict [(lit "key", VStr (lit "owner"))];
                 record (VStr (lit "quota")) (VInt 5) ] ]
    None.

(** The same cluster, except that every capacity request fails. *)
Definition capacity_down (shares : list item) : Cluster :=
  mkCluster
    (fun _ => Ok (float_of_Z 8000000000, float_of_Z 20000000000))
    (fun _ => Ok shares) (fun _ => Ok []) (fun _ => Ok [])
    (fun _ _ => Raise (RequestError (lit "timeout")))
    (fun _ _ => no_tags).

(** A cluster that reports an infinite free size. *)
Definition unbounded_cluster (shares : list item) : Cluster :=
  mkCluster
    (fun _ => Ok (S754_infinity false, float_of_Z 20000000000))
    (fun _ => Ok shares) (fun _ => Ok []) (fun _ => Ok [])
    (fun _ _ => Ok (float_of_Z 2000000000))
    (fun _ _ => no_tags).

(** The environment of the scenario: the share "eng" at "/eng", 2 GB under
    it, 8 GB free of 20 GB, no tags. *)
Definition eng_env : Env :=
  mkEnv [(lit "host", lit "cluster.example"); (lit "access_token", lit "t")]
    (lit "2025-01-02")
    (static_cluster [share "eng" "/eng"] [] [] (float_of_Z 2000000000) no_tags).

(** The scenario of two exposures of one path: the share "a" and the
    export "b" at "/shared", 1 GB under it, 9 GB free. *)
Definition shared_env : Env :=
  mkEnv [(lit "host", lit "cluster.example"); (lit "access_token", lit "t")]
    (lit "2025-01-02")
    (mkCluster
       (fun _ => Ok (float_of_Z 9000000000, float_of_Z 20000000000))
       (fun _ => Ok [share "a" "/shared"])
       (fun _ => Ok [export "b" "/shared"])
       (fun _ => Ok [])
       (fun _ _ => Ok (float_of_Z 1000000000))
       (fun _ _ => no_tags)).

(** [n] GB, as the readers compute it from [n * 10^9] bytes. *)
Definition gb (n : Z) : float := fdiv (float_of_Z (n * 1000000000)) f1e9.

(** ** load_config *)

(** The files a run can see: whether a path exists, and what
    [yaml.safe_load] makes of the file at a path (opening or parsing it may
    raise). *)
Record Disk := mkDisk {
  path_exists : pystr -> bool;
  yaml_safe_load : pystr -> result pyval
}.

(** The truth value of a value: [None], zero and the empty string, bytes,
    list and dictionary are false. *)
Definition falsy (v : pyval) : bool :=
  match v with
  | VNone | VInt 0 | VStr [] | VBytes [] | VList [] | VDict [] => true
  | _ => false
  end.

Definition load_config (disk : Disk) (config_file : pystr) : result pyval :=
  let config := VDict [] in
  if path_exists disk config_file
  then rbind (yaml_safe_load disk config_file) (fun loaded =>
       Ok (if falsy loaded then VDict [] else loaded))
  else Ok config.

(** ** Vocabulary of the statements about whole runs *)

(** The two requests [process_exposure_item] sends for a path. *)
Definition item_calls (path : pystr) : list call :=
  [DirAggregates path; ListUserMetadata path].

(** The requests of a run over shares, exports and buckets at these paths. *)
Definition run_calls (smb_paths nfs_paths s3_paths : list pystr) : list call :=
  [FsStats; SmbListShares] ++ flat_map item_calls smb_paths
  ++ [NfsListExports] ++ flat_map item_calls nfs_paths
  ++ [S3ListBuckets] ++ flat_map item_calls s3_paths.

(** [row] is a row of the record [it] under these labels, keys and capacity
    snapshot. *)
Definition built_from (label kind name_key fs_path_key : pystr)
    (free usable : float) (it : item) (row : Row) : Prop :=
  protocol row = label /\
  exposure_type row = kind /\
  item_field it name_key = Ok (name row) /\
  item_field it fs_path_key = Ok (fs_path row) /\
  free_space row = free /\
  usable_space row = usable /\
  used_pct row = compute_used_pct (used_space row) free.

(** A record whose key is a string ([None] or absent counts too) and whose
    value is bytes or a string, the strings made of scalar values. *)
Definition textual_record (record : pyval) : bool :=
  match key_field record with
  | VNone => true
  | VStr k => forallb is_scalar k
  | _ => false
  end
  &&
  match value_field record with
  | VBytes _ => true
  | VStr v => forallb is_scalar v
  | _ => false
  end.

(** The record has the two fields a row needs. *)
Definition has_fields (name_key fs_path_key : string) (it : item) : Prop :=
  (exists name, item_field it (lit name_key) = Ok name) /\
  (exists path, item_field it (lit fs_path_key) = Ok path).

(** A metadata listing that ends normally, whose records can be stored and
    whose tags [json.dumps] can write. *)
Definition serialisable (stream : page_stream) : Prop :=
  failure stream = None /\
  exists tags text,
    fold_result store_page (pages stream) [] = Ok tags /\
    json_dumps_tags tags = Ok text.

(** A cluster that answers every request, with records that have their
    fields and metadata that can be written. *)
Definition dependable (cluster : Cluster) : Prop :=
  (forall h, exists stats, read_fs_stats cluster h = Ok stats) /\
  (forall h, exists l,
     smb_list_shares cluster h = Ok l /\
     Forall (has_fields "share_name" "fs_path") l) /\
  (forall h, exists l,
     nfs_list_exports cluster h = Ok l /\
     Forall (has_fields "export_path" "fs_path") l) /\
  (forall h, exists l,
     s3_list_buckets cluster h = Ok l /\
     Forall (has_fields "name" "path") l) /\
  (forall h path, exists total, read_dir_aggregates cluster h path = Ok total) /\
  (forall h path, serialisable (list_user_metadata cluster h path)).

(** What the writer of the chosen mode puts in the file for these rows,
    and how it ends. *)
Definition report_rows (args : Args) (today : pystr) (data_rows : list Row)
  : list (list pystr) :=
  if enumerate_exposures args
  then enumerated_header :: rendered_prefix (enumerated_cells today) data_rows
  else dedup_header
         :: rendered_prefix (dedup_cells today) (deduplicate_rows data_rows).

Definition report_outcome (args : Args) (today : pystr) (data_rows : list Row)
  : result unit :=
  if enumerate_exposures args
  then rendered_result (enumerated_cells today) data_rows
  else rendered_result (dedup_cells today) (deduplicate_rows data_rows).

(** A row whose cells can be made. *)
Definition renderable (row : Row) : Prop :=
  (exists pct, format_number_3f (used_pct row) = Ok pct) /\
  (exists text, json_dumps_tags (tags_dict row) = Ok text).

(** The distinct keys of a list, in the order of their first occurrence. *)
Fixpoint distinct_keys (l : list key) : list key :=
  match l with
  | [] => []
  | k :: l' =>
      k :: filter (fun k' => if key_eq_dec k' k then false else true)
             (distinct_keys l')
  end.

(* ================================================================== *)
(** * Properties *)
(* ================================================================== *)

(** ** Dictionaries *)

Module DictFacts.
Section DictFacts.
Context {K V : Type} {EqK : EqDec K}.
Import Dict.

Lemma contains_in (k : K) (d : t K V) :
  contains k d = true <-> In k (keys d).
Proof.
  unfold contains. induction d as [|[k' v'] d IH]; simpl.
  - split; [discriminate | tauto].
  - destruct (eq_dec k k') as [->|Hne].
    + split; auto.
    + rewrite IH. split; [auto | intros [H|H]; [congruence | exact H]].
Qed.

Lemma get_none (k : K) (d : t K V) :
  get k d = None <-> ~ In k (keys d).
Proof.
  rewrite <- contains_in. unfold contains.
  destruct (get k d); split; congruence.
Qed.

Lemma get_set_eq (k : K) (v : V) (d : t K V) :
  get k (set k v d) = Some v.
Proof.
  induction d as [|[k' v'] d IH]; simpl.
  - destruct (eq_dec k k); congruence.
  - destruct (eq_dec k k') as [->|Hne]; simpl.
    + destruct (eq_dec k' k'); congruence.
    + destruct (eq_dec k k'); congruence.
Qed.

Lemma get_set_neq (k k0 : K) (v : V) (d : t K V) :
  k0 <> k -> get k0 (set k v d) = get k0 d.
Proof.
  intros Hne. induction d as [|[k' v'] d IH]; simpl.
  - destruct (eq_dec k0 k); congruence.
  - destruct (eq_dec k k') as [->|Hne']; simpl.
    + destruct (eq_dec k0 k'); congruence.
    + destruct (eq_dec k0 k'); congruence.
Qed.

Lemma keys_set_new (k : K) (v : V) (d : t K V) :
  ~ In k (keys d) -> keys (set k v d) = keys d ++ [k].
Proof.
  induction d as [|[k' v'] d IH]; simpl; intros Hin.
  - reflexivity.
  - destruct (eq_dec k k') as [->|Hne]; simpl.
    + tauto.
    + rewrite IH; tauto.
Qed.

Lemma keys_set_old (k : K) (v : V) (d : t K V) :
  In k (keys d) -> keys (set k v d) = keys d.
Proof.
  induction d as [|[k' v'] d IH]; simpl; intros Hin.
  - tauto.
  - destruct (eq_dec k k') as [->|Hne]; simpl.
    + reflexivity.
    + rewrite IH; [reflexivity | destruct Hin; congruence].
Qed.

Lemma keys_adjust (f : V -> V) (k : K) (d : t K V) :
  keys (adjust f k d) = keys d.
Proof.
  induction d as [|[k' v'] d IH]; simpl.
  - reflexivity.
  - destruct (eq_dec k k'); simpl; congruence.
Qed.

Lemma get_adjust_eq (f : V -> V) (k : K) (d : t K V) :
  get k (adjust f k d) = option_map f (get k d).
Proof.
  induction d as [|[k' v'] d IH]; simpl.
  - reflexivity.
  - destruct (eq_dec k k') as [->|Hne]; simpl.
    + destruct (eq_dec k' k'); congruence.
    + destruct (eq_dec k k'); congruence.
Qed.

Lemma get_adjust_neq (f : V -> V) (k k0 : K) (d : t K V) :
  k0 <> k -> get k0 (adjust f k d) = get k0 d.
Proof.
  intros Hne. induction d as [|[k' v'] d IH]; simpl.
  - reflexivity.
  - destruct (eq_dec k k') as [->|Hne']; simpl.
    + destruct (eq_dec k0 k'); congruence.
    + destruct (eq_dec k0 k'); congruence.
Qed.

Lemma in_get (k : K) (v : V) (d : t K V) :
  NoDup (keys d) -> In (k, v) d -> get k d = Some v.
Proof.
  induction d as [|[k' v'] d IH]; simpl; intros Hnd Hin.
  - tauto.
  - inversion Hnd as [|? ? Hnotin Hnd']; subst.
    destruct Hin as [Heq|Hin].
    + inversion Heq; subst. destruct (eq_dec k k); congruence.
    + destruct (eq_dec k k') as [->|Hne]; [|auto].
      exfalso. apply Hnotin. change k' with (fst (k', v)).
      apply in_map. exact Hin.
Qed.

Lemma get_in (k : K) (v : V) (d : t K V) :
  get k d = Some v -> In (k, v) d.
Proof.
  induction d as [|[k' v'] d IH]; simpl; intros H.
  - discriminate.
  - destruct (eq_dec k k') as [->|Hne]; [left; congruence | right; auto].
Qed.
Lemma adjust_ext (f g : V -> V) (k : K) (d : t K V) :
  (forall v, f v = g v) -> adjust f k d = adjust g k d.
Proof.
  intros Hfg. induction d as [|[k' v'] d IH]; simpl.
  - reflexivity.
  - destruct (eq_dec k k'); congruence.
Qed.

Lemma adjust_id (f : V -> V) (k : K) (d : t K V) :
  (forall v, f v = v) -> adjust f k d = d.
Proof.
  intros Hf. induction d as [|[k' v'] d IH]; simpl.
  - reflexivity.
  - destruct (eq_dec k k'); congruence.
Qed.

Lemma adjust_adjust (f g : V -> V) (k : K) (d : t K V) :
  adjust f k (adjust g k d) = adjust (fun v => f (g v)) k d.
Proof.
  induction d as [|[k' v'] d IH]; simpl.
  - reflexivity.
  - destruct (eq_dec k k') as [->|Hne]; simpl.
    + destruct (eq_dec k' k'); congruence.
    + destruct (eq_dec k k'); congruence.
Qed.

Lemma adjust_set (f : V -> V) (k : K) (v : V) (d : t K V) :
  adjust f k (set k v d) = set k (f v) d.
Proof.
  induction d as [|[k' v'] d IH]; simpl.
  - destruct (eq_dec k k); congruence.
  - destruct (eq_dec k k') as [->|Hne]; simpl.
    + destruct (eq_dec k' k'); congruence.
    + destruct (eq_dec k k'); congruence.
Qed.

Lemma set_new (k : K) (v : V) (d : t K V) :
  ~ In k (keys d) -> set k v d = d ++ [(k, v)].
Proof.
  induction d as [|[k' v'] d IH]; simpl; intros Hin.
  - reflexivity.
  - destruct (eq_dec k k') as [->|Hne]; [tauto|].
    rewrite IH; tauto.
Qed.

Lemma nodup_set (k : K) (v : V) (d : t K V) :
  NoDup (keys d) -> NoDup (keys (set k v d)).
Proof.
  intros Hnd. destruct (in_dec eq_dec k (keys d)) as [Hin|Hnin].
  - rewrite keys_set_old by exact Hin. exact Hnd.
  - rewrite keys_set_new by exact Hnin.
    apply NoDup_app; [exact Hnd | repeat constructor; intros [] |].
    intros x Hx [<-|[]]. tauto.
Qed.

(** Storing the entries of a dictionary one by one rebuilds it. *)
Lemma fold_set_fresh (d acc : t K V) :
  NoDup (keys (acc ++ d)) ->
  fold_left (fun t kv => set (fst kv) (snd kv) t) d acc = acc ++ d.
Proof.
  revert acc. induction d as [|[k v] d IH]; intros acc Hnd; simpl.
  - rewrite app_nil_r. reflexivity.
  - unfold keys in Hnd. rewrite map_app in Hnd. simpl in Hnd.
    pose proof (NoDup_remove_2 _ _ _ Hnd) as Hk.
    rewrite set_new by (intros Hin; apply Hk; apply in_or_app; left; exact Hin).
    rewrite IH; rewrite <- app_assoc; simpl; [reflexivity|].
    unfold keys. rewrite map_app. simpl. exact Hnd.
Qed.

End DictFacts.
End DictFacts.

(** ** deduplicate_rows *)

Section Dedup.

Lemma pystr_eqb_eq (s t : pystr) : pystr_eqb s t = true <-> s = t.
Proof.
  unfold pystr_eqb. destruct (pystr_eq_dec s t); split; congruence.
Qed.

Lemma pystr_eqb_refl (s : pystr) : pystr_eqb s s = true.
Proof. apply pystr_eqb_eq. reflexivity. Qed.

Lemma pystr_eqb_neq (s t : pystr) : pystr_eqb s t = false <-> s <> t.
Proof.
  unfold pystr_eqb. destruct (pystr_eq_dec s t); split; congruence.
Qed.

Lemma first_seen_in (p : pystr) (l : list pystr) :
  In p (first_seen l) <-> In p l.
Proof.
  induction l as [|a l IH]; simpl; [tauto|].
  rewrite filter_In, IH, negb_true_iff, pystr_eqb_neq.
  destruct (pystr_eq_dec a p) as [->|Hne]; [tauto|].
  split; [tauto | intros [?|?]; [tauto | right; split; congruence]].
Qed.

Lemma first_seen_nodup (l : list pystr) : NoDup (first_seen l).
Proof.
  induction l as [|a l IH]; simpl; constructor.
  - rewrite filter_In, negb_true_iff, pystr_eqb_neq. tauto.
  - apply NoDup_filter. exact IH.
Qed.

Lemma first_seen_snoc (p : pystr) (l : list pystr) :
  first_seen (l ++ [p]) =
  first_seen l ++ (if in_dec pystr_eq_dec p l then [] else [p]).
Proof.
  induction l as [|a l IH]; simpl; [reflexivity|].
  rewrite IH, filter_app. f_equal. f_equal.
  destruct (in_dec pystr_eq_dec p l) as [Hin|Hnin]; simpl.
  - destruct (pystr_eq_dec a p); reflexivity.
  - destruct (pystr_eq_dec a p) as [->|Hne].
    + rewrite pystr_eqb_refl. reflexivity.
    + destruct (pystr_eqb p a) eqn:E.
      * apply pystr_eqb_eq in E. congruence.
      * simpl. destruct (in_dec pystr_eq_dec p l); tauto.
Qed.

Lemma find_has_path_none (p : pystr) (rows : list Row) :
  find (has_path p) rows = None <-> ~ In p (map fs_path rows).
Proof.
  induction rows as [|r rows IH]; simpl; [tauto|].
  unfold has_path at 1. destruct (pystr_eqb (fs_path r) p) eqn:E.
  - apply pystr_eqb_eq in E. split; [discriminate | tauto].
  - apply pystr_eqb_neq in E. rewrite IH. tauto.
Qed.

Lemma filter_has_path_nil (p : pystr) (rows : list Row) :
  ~ In p (map fs_path rows) -> filter (has_path p) rows = [].
Proof.
  induction rows as [|r rows IH]; simpl; [reflexivity|]. intros Hnin.
  unfold has_path at 1. destruct (pystr_eqb (fs_path r) p) eqn:E.
  - apply pystr_eqb_eq in E. tauto.
  - apply IH. tauto.
Qed.

Lemma find_app {A} (f : A -> bool) (l l' : list A) :
  find f (l ++ l') = match find f l with Some x => Some x | None => find f l' end.
Proof.
  induction l as [|a l IH]; simpl; [reflexivity|].
  destruct (f a); auto.
Qed.

Lemma merged_entry_snoc_same (r : Row) (rows : list Row) :
  merged_entry (fs_path r) (rows ++ [r]) =
  match merged_entry (fs_path r) rows with
  | Some e => Some (append_exposure (exposure_label r) e)
  | None => Some (new_entry r)
  end.
Proof.
  assert (Hr : has_path (fs_path r) r = true) by apply pystr_eqb_refl.
  unfold merged_entry. rewrite find_app, filter_app, map_app. simpl.
  rewrite Hr.
  destruct (find (has_path (fs_path r)) rows) as [r0|] eqn:E.
  - reflexivity.
  - apply find_has_path_none in E. rewrite (filter_has_path_nil _ _ E).
    reflexivity.
Qed.

Lemma merged_entry_snoc_other (p : pystr) (r : Row) (rows : list Row) :
  p <> fs_path r -> merged_entry p (rows ++ [r]) = merged_entry p rows.
Proof.
  intros Hne. unfold merged_entry. rewrite find_app, filter_app. simpl.
  assert (E : has_path p r = false)
    by (apply pystr_eqb_neq; congruence).
  rewrite E, app_nil_r. destruct (find (has_path p) rows); reflexivity.
Qed.

(** The loop invariant of [deduplicate_rows]. *)
Lemma dedup_fold_inv (rows : list Row) :
  let dedup := fold_left dedup_step rows [] in
  Dict.keys dedup = first_seen (map fs_path rows) /\
  forall p, Dict.get p dedup = merged_entry p rows.
Proof.
  induction rows as [|r rows IH] using rev_ind; simpl.
  - split; reflexivity.
  - rewrite fold_left_app. simpl.
    destruct IH as [Hkeys Hget]. set (dedup := fold_left dedup_step rows []) in *.
    rewrite map_app. simpl. rewrite first_seen_snoc.
    unfold dedup_step.
    destruct (Dict.contains (fs_path r) dedup) eqn:Hc.
    + apply DictFacts.contains_in in Hc. split.
      * rewrite DictFacts.keys_adjust, Hkeys.
        rewrite Hkeys, first_seen_in in Hc.
        destruct (in_dec pystr_eq_dec (fs_path r) (map fs_path rows));
          [rewrite app_nil_r; reflexivity | tauto].
      * intros p. destruct (pystr_eq_dec p (fs_path r)) as [->|Hne].
        -- rewrite DictFacts.get_adjust_eq, Hget, merged_entry_snoc_same.
           destruct (merged_entry (fs_path r) rows) eqn:E; [reflexivity|].
           exfalso. rewrite <- Hget in E. apply DictFacts.get_none in E. tauto.
        -- rewrite DictFacts.get_adjust_neq, merged_entry_snoc_other; auto.
    + assert (Hnin : ~ In (fs_path r) (Dict.keys dedup)).
      { rewrite <- DictFacts.contains_in. congruence. }
      split.
      * rewrite DictFacts.keys_set_new, Hkeys by exact Hnin.
        rewrite Hkeys, first_seen_in in Hnin.
        destruct (in_dec pystr_eq_dec (fs_path r) (map fs_path rows));
          [tauto | reflexivity].
      * intros p. destruct (pystr_eq_dec p (fs_path r)) as [->|Hne].
        -- rewrite DictFacts.get_set_eq, merged_entry_snoc_same.
           apply DictFacts.get_none in Hnin. rewrite Hget in Hnin.
           rewrite Hnin. reflexivity.
        -- rewrite DictFacts.get_set_neq, merged_entry_snoc_other; auto.
Qed.

Lemma find_split {A} (f : A -> bool) (l : list A) (x : A) :
  find f l = Some x ->
  exists before after,
    l = before ++ x :: after /\ f x = true /\
    forall y, In y before -> f y = false.
Proof.
  induction l as [|a l IH]; simpl; [discriminate|].
  destruct (f a) eqn:E.
  - intros [= <-]. exists [], l. simpl. tauto.
  - intros Hf. destruct (IH Hf) as (before & after & -> & Hx & Hb).
    exists (a :: before), after. simpl. repeat split; auto.
    intros y [<-|Hy]; auto.
Qed.

Lemma dedup_values_keys (rows : list Row) :
  map d_fs_path (deduplicate_rows rows) =
  Dict.keys (fold_left dedup_step rows []).
Proof.
  unfold deduplicate_rows, Dict.values, Dict.keys.
  destruct (dedup_fold_inv rows) as [Hkeys Hget].
  assert (Hnd : NoDup (Dict.keys (fold_left dedup_step rows [])))
    by (rewrite Hkeys; apply first_seen_nodup).
  set (dedup := fold_left dedup_step rows []) in *.
  rewrite map_map. apply map_ext_in. intros [p e] Hin. simpl.
  apply DictFacts.in_get in Hin; [|exact Hnd].
  rewrite Hget in Hin. unfold merged_entry in Hin.
  destruct (find (has_path p) rows) as [r|] eqn:E; [|discriminate].
  injection Hin as <-. simpl.
  apply find_some in E. destruct E as [_ E]. apply pystr_eqb_eq in E. exact E.
Qed.


End Dedup.

(** ** Floating-point arithmetic of [used_pct] *)

Section UsedPct.

Lemma iter_pos_invariant {A} (P : A -> Prop) (f : A -> A) :
  (forall x, P x -> P (f x)) ->
  forall p x, P x -> P (iter_pos f p x).
Proof.
  intros Hf. induction p as [p IH|p IH|]; simpl; intros x Hx; auto.
Qed.

Lemma shr_1_nonneg (mrs : shr_record) :
  (0 <= shr_m mrs)%Z -> (0 <= shr_m (shr_1 mrs))%Z.
Proof.
  destruct mrs as [m r s0]. simpl.
  destruct m as [|[p|p|]|[p|p|]]; simpl; lia.
Qed.

Lemma shr_nonneg (mrs : shr_record) (e n : Z) :
  (0 <= shr_m mrs)%Z -> (0 <= shr_m (fst (shr mrs e n)))%Z.
Proof.
  intros H. destruct n as [|p|p]; simpl; auto.
  apply (iter_pos_invariant (fun mrs => 0 <= shr_m mrs)%Z); auto.
  apply shr_1_nonneg.
Qed.

Lemma shr_fexp_nonneg (m e : Z) (l : location) :
  (0 <= m)%Z -> (0 <= shr_m (fst (shr_fexp prec emax m e l)))%Z.
Proof.
  intros H. unfold shr_fexp. apply shr_nonneg.
  destruct l as [|[ | | ]]; simpl; exact H.
Qed.

Lemma round_nearest_even_nonneg (m : Z) (l : location) :
  (0 <= m)%Z -> (0 <= round_nearest_even m l)%Z.
Proof.
  intros H. destruct l as [|[ | | ]]; simpl; try lia.
  destruct (Z.even m); lia.
Qed.

(** Rounding a non-negative mantissa never yields a NaN and keeps the sign. *)
Lemma binary_round_aux_signed (sx : bool) (mx ex : Z) (lx : location) :
  (0 <= mx)%Z -> signed sx (binary_round_aux prec emax sx mx ex lx).
Proof.
  intros H. unfold binary_round_aux.
  pose proof (shr_fexp_nonneg ex lx H) as H1.
  destruct (shr_fexp prec emax mx ex lx) as [mrs' e'].
  simpl in H1.
  pose proof (round_nearest_even_nonneg (loc_of_shr_record mrs') H1) as H2.
  pose proof (shr_fexp_nonneg e' loc_Exact H2) as H3.
  destruct (shr_fexp prec emax _ e' loc_Exact) as [mrs'' e''].
  simpl in H3.
  destruct (shr_m mrs'') as [|p|p]; [exact eq_refl| |lia].
  destruct (e'' <=? emax - prec)%Z; exact eq_refl.
Qed.

Lemma fadd_pos_signed (mx : positive) (ex : Z) (my : positive) (ey : Z) :
  signed false (fadd (S754_finite false mx ex) (S754_finite false my ey)).
Proof.
  unfold fadd, SFadd, binary_normalize, cond_Zopp.
  match goal with
  | |- context [(Z.pos ?a + Z.pos ?b)%Z] => change (Z.pos a + Z.pos b)%Z with (Z.pos (a + b))
  end.
  unfold binary_round.
  destruct (shl_align _ _ _) as [mz ez].
  apply binary_round_aux_signed. lia.
Qed.

Lemma fdiv_pos_signed (mx : positive) (ex : Z) (y : float) :
  signed false y ->
  signed false (fdiv (S754_finite false mx ex) y).
Proof.
  destruct y as [s|s| |s my ey]; simpl; intros Hy; try tauto; subst s;
    try reflexivity.
  unfold fdiv, SFdiv.
  destruct (SFdiv_core_binary prec emax (Z.pos mx) ex (Z.pos my) ey)
    as [[mz ez] lz] eqn:E.
  apply binary_round_aux_signed.
  unfold SFdiv_core_binary in E.
  match type of E with
  | (let '(q, r) := Z.div_eucl ?a ?b in _) = _ =>
      pose proof (Z_div_mod a b eq_refl) as Hdm;
      assert (Ha : (0 <= a)%Z);
      [| destruct (Z.div_eucl a b) as [q r] eqn:Eqr ]
  end.
  { destruct (ex - ey - _)%Z; try lia. apply Z.shiftl_nonneg. lia. }
  injection E as <- _ _.
  destruct Hdm as [Hdm Hr]. nia.
Qed.

Lemma fmul_f100_signed (s : bool) (x : float) :
  signed s x -> signed s (fmul x f100).
Proof.
  destruct x as [s'|s'| |s' m e]; simpl; intros Hx; try tauto; subst s'.
  - destruct s; reflexivity.
  - destruct s; reflexivity.
  - unfold fmul, f100, SFmul. rewrite xorb_false_r.
    apply binary_round_aux_signed. lia.
Qed.

Lemma signed_not_negative (x : float) :
  signed false x -> SFltb x f0 = false /\ is_nan x = false.
Proof.
  destruct x as [s|s| |s m e]; simpl; intros Hx; try tauto; subst s;
    split; reflexivity.
Qed.

(** For a finite [used >= 0] and [free > 0] the quotient
    [used / (used + free) * 100] is not a NaN and not below zero. *)
Lemma used_pct_float_range (used free : float) :
  is_finite used = true -> SFleb f0 used = true -> SFltb f0 free = true ->
  let p := fmul (fdiv used (fadd used free)) f100 in
  SFltb p f0 = false /\ is_nan p = false.
Proof.
  intros Hfin Hpos Hfree p. subst p.
  destruct used as [su|su| |su mu eu]; try discriminate.
  - (* used is a zero: the sum is [free] or a zero of the same kind *)
    destruct free as [sf|sf| |sf mf ef]; try discriminate;
      destruct sf; try discriminate; destruct su; split; reflexivity.
  - destruct su; [discriminate|].
    assert (Hsum : signed false (fadd (S754_finite false mu eu) free)).
    { destruct free as [sf|sf| |sf mf ef]; try discriminate;
        destruct sf; try discriminate; [reflexivity|].
      apply fadd_pos_signed. }
    apply signed_not_negative.
    apply fmul_f100_signed. apply fdiv_pos_signed. exact Hsum.
Qed.

End UsedPct.

(** ** The monad *)

Section Monad.

Lemma bind_ok {A B} (m : M A) (k : A -> M B) (w w1 : World) (a : A) :
  m w = (Ok a, w1) -> bind m k w = k a w1.
Proof. unfold bind. intros ->. reflexivity. Qed.

Lemma bind_raise {A B} (m : M A) (k : A -> M B) (w w1 : World) (e : exn) :
  m w = (Raise e, w1) -> bind m k w = (Raise e, w1).
Proof. unfold bind. intros ->. reflexivity. Qed.

Lemma bind_ok_inv {A B} (m : M A) (k : A -> M B) (w w2 : World) (b : B) :
  bind m k w = (Ok b, w2) ->
  exists a w1, m w = (Ok a, w1) /\ k a w1 = (Ok b, w2).
Proof.
  unfold bind. destruct (m w) as [[a|e] w1]; intros Hk.
  - exists a, w1. auto.
  - discriminate.
Qed.

Lemma lift_ok_inv {A} (r : result A) (w w1 : World) (a : A) :
  lift r w = (Ok a, w1) -> r = Ok a /\ w1 = w.
Proof. unfold lift. intros [= -> ->]. auto. Qed.

Lemma ret_inv {A} (x a : A) (w w1 : World) :
  ret x w = (Ok a, w1) -> a = x /\ w1 = w.
Proof. unfold ret. intros [= -> ->]. auto. Qed.

End Monad.

(** ** process_exposure_item *)

Section RowBuilder.

Variable cluster : Cluster.

Lemma get_directory_capacity_ok_inv (path : pystr) (w w1 : World) (x : float) :
  get_directory_capacity cluster path w = (Ok x, w1) ->
  exists total_capacity,
    read_dir_aggregates cluster (calls w) path = Ok total_capacity /\
    x = fdiv total_capacity f1e9.
Proof.
  unfold get_directory_capacity. intros H.
  apply bind_ok_inv in H. destruct H as (t & w' & Hreq & Hret).
  apply ret_inv in Hret. destruct Hret as [-> ->].
  unfold request in Hreq. injection Hreq as Hreq _.
  exists t. auto.
Qed.

(** What a row built by [process_exposure_item] holds. *)
Lemma process_exposure_item_ok_inv (it : item)
    (protocol exposure_type name_key fs_path_key : pystr)
    (free_space usable_space : float) (w w1 : World) (row : Row) :
  process_exposure_item cluster it protocol exposure_type name_key fs_path_key
    free_space usable_space w = (Ok row, w1) ->
  exists name fs_path used_space tags_dict,
    item_field it name_key = Ok name /\
    item_field it fs_path_key = Ok fs_path /\
    row = mkRow protocol exposure_type name fs_path used_space free_space
            usable_space (compute_used_pct used_space free_space) tags_dict /\
    exists w2 w3, get_user_metadata cluster fs_path w2 = (Ok tags_dict, w3).
Proof.
  unfold process_exposure_item. intros H.
  apply bind_ok_inv in H. destruct H as (name & w2 & Hname & H).
  apply lift_ok_inv in Hname. destruct Hname as [Hname ->].
  apply bind_ok_inv in H. destruct H as (fs_path & w3 & Hpath & H).
  apply lift_ok_inv in Hpath. destruct Hpath as [Hpath ->].
  apply bind_ok_inv in H. destruct H as (used_space & w4 & Hused & H).
  apply bind_ok_inv in H. destruct H as (tags_dict & w5 & Htags & H).
  apply ret_inv in H. destruct H as [-> ->].
  exists name, fs_path, used_space, tags_dict. repeat split; auto.
  do 2 eexists. exact Htags.
Qed.

(** C2 (amended). In every row built by [process_exposure_item] whose
    [used_space] is finite and not below zero, [used_pct] is
    [used_space / (used_space + free_space) * 100] when [free_space > 0] and
    the integer [0] when [free_space <= 0]; it is neither negative nor a
    NaN. *)
Theorem used_pct_of_built_row (it : item)
    (protocol exposure_type name_key fs_path_key : pystr)
    (free_space usable_space : float) (w w1 : World) (row : Row) :
  process_exposure_item cluster it protocol exposure_type name_key fs_path_key
    free_space usable_space w = (Ok row, w1) ->
  is_finite (used_space row) = true ->
  SFleb f0 (used_space row) = true ->
  (SFltb f0 free_space = true ->
   used_pct row =
     PyFloat (fmul (fdiv (used_space row) (fadd (used_space row) free_space))
                f100)) /\
  (SFleb free_space f0 = true -> used_pct row = PyInt 0) /\
  number_negative (used_pct row) = false /\
  number_is_nan (used_pct row) = false.
Proof.
  intros Hrow Hfin Hpos.
  apply process_exposure_item_ok_inv in Hrow.
  destruct Hrow as (name & fs_path & used & tags & _ & _ & -> & _).
  simpl in *. unfold compute_used_pct.
  destruct (SFltb f0 free_space) eqn:Hfree.
  - split; [reflexivity|]. split.
    + intros Hle. exfalso.
      unfold SFltb, SFleb in *. 
      destruct free_space as [s|s| |s m e]; simpl in *; try discriminate;
        destruct s; discriminate.
    + simpl. apply used_pct_float_range; assumption.
  - split; [discriminate|]. repeat split; reflexivity.
Qed.

End RowBuilder.

(** The share "eng" on a cluster with 2 GB under its path. *)
Lemma used_pct_of_built_row_witness :
  let built :=
    process_exposure_item
      (static_cluster [] [] [] (float_of_Z 2000000000) no_tags)
      (share "eng" "/eng") (lit "SMB") (lit "Share") (lit "share_name")
      (lit "fs_path") (gb 8) (gb 20) initial_world in
  exists row w1,
    built = (Ok row, w1) /\
    is_finite (used_space row) = true /\
    SFleb f0 (used_space row) = true /\
    used_pct row = PyFloat (gb 20) /\
    number_negative (used_pct row) = false /\
    number_is_nan (used_pct row) = false.
Proof.
  intros built.
  destruct (fst built) as [row|e] eqn:E; [|discriminate E].
  exists row, (snd built).
  assert (Hb : built = (Ok row, snd built))
    by (rewrite <- E; destruct built; reflexivity).
  assert (Hrow : row = mkRow (lit "SMB") (lit "Share") (lit "eng")
                         (lit "/eng") (gb 2) (gb 8) (gb 20) (PyFloat (gb 20)) [])
    by (vm_compute in E; injection E as <-; reflexivity).
  pose proof (used_pct_of_built_row _ _ _ _ _ _ _ _ _ Hb) as H.
  rewrite Hrow in *. 
  destruct (H eq_refl eq_refl) as (H1 & _ & H3 & H4).
  repeat split; auto.
Defined.

(** C2 as stated fails where the capacity reader reports an infinite
    capacity: the row has [used_space >= 0], [free_space > 0] and a NaN as
    [used_pct]. *)
Lemma used_pct_nan_for_infinite_used_space :
  exists row w1,
    process_exposure_item
      (static_cluster [] [] [] (S754_infinity false) no_tags)
      (share "eng" "/eng") (lit "SMB") (lit "Share") (lit "share_name")
      (lit "fs_path") (gb 8) (gb 20) initial_world = (Ok row, w1) /\
    SFleb f0 (used_space row) = true /\
    SFltb f0 (free_space row) = true /\
    used_pct row = PyFloat S754_nan /\
    number_is_nan (used_pct row) = true.
Proof.
  eexists. eexists. split; [vm_compute; reflexivity|].
  repeat split; reflexivity.
Qed.

(** ** The report writers *)

Section Writers.

Lemma world_eta (w : World) :
  mkWorld (connections w) (calls w) (files w) (stdout w) = w.
Proof. destruct w. reflexivity. Qed.

(** The loop of a writer: its outcome, and the rows it appends. *)
Lemma write_loop {R} (render : R -> result (list pystr)) (name : pystr)
    (rows : list R) (w : World) :
  for_each
    (fun _ row => cells <- lift (render row) ;; writerow name cells) rows tt w
  = (rendered_result render rows,
     mkWorld (connections w) (calls w)
       (Dict.adjust (fun l => l ++ rendered_prefix render rows) name (files w))
       (stdout w)).
Proof.
  revert w. induction rows as [|r rows IH]; intros w; simpl.
  - unfold ret. rewrite DictFacts.adjust_id by apply app_nil_r.
    rewrite world_eta. reflexivity.
  - unfold bind at 1. unfold bind at 1. unfold lift at 1.
    destruct (render r) as [cells|e].
    + unfold writerow at 1. rewrite IH. simpl.
      rewrite DictFacts.adjust_adjust. f_equal. f_equal.
      apply DictFacts.adjust_ext. intros v. rewrite <- app_assoc. reflexivity.
    + rewrite DictFacts.adjust_id by apply app_nil_r.
      rewrite world_eta. reflexivity.
Qed.

Lemma write_csv_enumerated_run (data_rows : list Row)
    (date_str output_filename : pystr) (w : World) :
  write_csv_enumerated data_rows date_str output_filename w
  = (rendered_result (enumerated_cells date_str) data_rows,
     mkWorld (connections w) (calls w)
       (Dict.set output_filename
          (enumerated_header
             :: rendered_prefix (enumerated_cells date_str) data_rows)
          (files w))
       (stdout w)).
Proof.
  unfold write_csv_enumerated.
  erewrite bind_ok by (unfold open_w; reflexivity).
  erewrite bind_ok by (unfold writerow; reflexivity).
  rewrite write_loop. simpl.
  rewrite DictFacts.adjust_adjust, DictFacts.adjust_set. reflexivity.
Qed.

Lemma write_csv_dedup_run (dedup_rows : list DedupRow)
    (date_str output_filename : pystr) (w : World) :
  write_csv_dedup dedup_rows date_str output_filename w
  = (rendered_result (dedup_cells date_str) dedup_rows,
     mkWorld (connections w) (calls w)
       (Dict.set output_filename
          (dedup_header :: rendered_prefix (dedup_cells date_str) dedup_rows)
          (files w))
       (stdout w)).
Proof.
  unfold write_csv_dedup.
  erewrite bind_ok by (unfold open_w; reflexivity).
  erewrite bind_ok by (unfold writerow; reflexivity).
  rewrite write_loop. simpl.
  rewrite DictFacts.adjust_adjust, DictFacts.adjust_set. reflexivity.
Qed.

Lemma rendered_result_ok {R} (render : R -> result (list pystr))
    (rows : list R) :
  rendered_result render rows = Ok tt ->
  map Ok (rendered_prefix render rows) = map render rows.
Proof.
  induction rows as [|r rows IH]; simpl; [reflexivity|].
  destruct (render r) as [cells|e]; [|discriminate].
  intros H. simpl. rewrite IH by exact H. reflexivity.
Qed.

End Writers.

(** ** Requests and their failures *)

Section Requests.

Variable cluster : Cluster.

Lemma all_answered_app (h new1 new2 : list call) :
  all_answered cluster h (new1 ++ new2) <->
  all_answered cluster h new1 /\ all_answered cluster (h ++ new1) new2.
Proof.
  revert h. induction new1 as [|c new1 IH]; intros h; simpl.
  - rewrite app_nil_r. tauto.
  - rewrite IH, <- app_assoc. simpl. tauto.
Qed.

Lemma all_answered_at (h0 h : list call) (c : call) (rest : list call) :
  all_answered cluster h0 (h ++ c :: rest) ->
  failed cluster (h0 ++ h) c = None.
Proof.
  rewrite all_answered_app. simpl. tauto.
Qed.

Lemma reads_only_ret {A} (a : A) : reads_only cluster (ret a).
Proof.
  intros w. exists []. simpl. rewrite app_nil_r, world_eta. auto.
Qed.

Lemma reads_only_lift {A} (r : result A) : reads_only cluster (lift r).
Proof.
  intros w. exists []. simpl. rewrite app_nil_r, world_eta.
  split; [reflexivity|]. destruct r; simpl; auto.
Qed.

Lemma reads_only_bind {A B} (m : M A) (k : A -> M B) :
  reads_only cluster m -> (forall a, reads_only cluster (k a)) ->
  reads_only cluster (bind m k).
Proof.
  intros Hm Hk w. destruct (Hm w) as (new1 & Hw1 & Hr1).
  unfold bind. destruct (m w) as [[a|e] w1]; simpl in *.
  - destruct (Hk a w1) as (new2 & Hw2 & Hr2).
    exists (new1 ++ new2). subst w1. simpl in *.
    rewrite app_assoc. split; [exact Hw2|].
    destruct (fst (k a _)) as [b|e].
    + apply all_answered_app. auto.
    + destruct Hr2 as [Hr2|(h & c & -> & Hh & Hc)].
      * left. apply all_answered_app. auto.
      * right. exists (new1 ++ h), c. rewrite <- !app_assoc.
        repeat split; [apply all_answered_app; auto|].
        rewrite app_assoc. exact Hc.
  - exists new1. auto.
Qed.

Lemma reads_only_for_each {A S} (body : S -> A -> M S) (l : list A) (acc : S) :
  (forall acc x, reads_only cluster (body acc x)) ->
  reads_only cluster (for_each body l acc).
Proof.
  intros Hbody. revert acc. induction l as [|x l IH]; intros acc; simpl.
  - apply reads_only_ret.
  - apply reads_only_bind; auto.
Qed.

(** A request whose answer decides alone whether it fails. *)
Lemma reads_only_request {A} (c : call) (answer : list call -> result A) :
  (forall h,
     failed cluster h c =
     match answer h with Ok _ => None | Raise e => Some e end) ->
  reads_only cluster (request c answer).
Proof.
  intros Hc w. exists [c]. unfold request. simpl. split; [reflexivity|].
  specialize (Hc (calls w)).
  destruct (answer (calls w)) as [a|e].
  - auto.
  - right. exists [], c. rewrite app_nil_r. simpl. auto.
Qed.

Lemma reads_only_get_cluster_stats :
  reads_only cluster (get_cluster_stats cluster).
Proof.
  unfold get_cluster_stats. apply reads_only_bind.
  - apply reads_only_request. reflexivity.
  - intros. apply reads_only_ret.
Qed.

Lemma reads_only_get_directory_capacity (path : pystr) :
  reads_only cluster (get_directory_capacity cluster path).
Proof.
  unfold get_directory_capacity. apply reads_only_bind.
  - apply reads_only_request. reflexivity.
  - intros. apply reads_only_ret.
Qed.

Lemma reads_only_get_user_metadata (path : pystr) :
  reads_only cluster (get_user_metadata cluster path).
Proof.
  intros w. exists [ListUserMetadata path].
  unfold get_user_metadata, bind, request, lift. cbn [fst snd].
  unfold all_answered, failed.
  destruct (fold_result store_page _ []) as [tags|e] eqn:E; cbn [fst snd].
  - destruct (failure _) as [e|] eqn:F; cbn [fst snd raise ret].
    + split; [reflexivity|]. right. exists [], (ListUserMetadata path).
      rewrite app_nil_r, E. auto.
    + split; [reflexivity|]. auto.
  - split; [reflexivity|]. left. auto.
Qed.

Lemma reads_only_process_exposure_item (it : item)
    (protocol exposure_type name_key fs_path_key : pystr)
    (free_space usable_space : float) :
  reads_only cluster
    (process_exposure_item cluster it protocol exposure_type name_key
       fs_path_key free_space usable_space).
Proof.
  unfold process_exposure_item.
  apply reads_only_bind; [apply reads_only_lift|]. intros name.
  apply reads_only_bind; [apply reads_only_lift|]. intros fs_path.
  apply reads_only_bind; [apply reads_only_get_directory_capacity|].
  intros used_space.
  apply reads_only_bind; [apply reads_only_get_user_metadata|].
  intros tags. apply reads_only_ret.
Qed.

Lemma reads_only_process_all (items : list item)
    (protocol exposure_type name_key fs_path_key : pystr)
    (free_space usable_space : float) (data_rows : list Row) :
  reads_only cluster
    (process_all cluster items protocol exposure_type name_key fs_path_key
       free_space usable_space data_rows).
Proof.
  unfold process_all. apply reads_only_for_each. intros acc it.
  apply reads_only_bind; [apply reads_only_process_exposure_item|].
  intros row. apply reads_only_ret.
Qed.

Lemma reads_only_gather : reads_only cluster (gather cluster).
Proof.
  unfold gather.
  apply reads_only_bind; [apply reads_only_get_cluster_stats|]. intros stats.
  apply reads_only_bind;
    [apply reads_only_request; reflexivity|]. intros smb.
  apply reads_only_bind; [apply reads_only_process_all|]. intros rows1.
  apply reads_only_bind;
    [apply reads_only_request; reflexivity|]. intros nfs.
  apply reads_only_bind; [apply reads_only_process_all|]. intros rows2.
  apply reads_only_bind;
    [apply reads_only_request; reflexivity|]. intros s3.
  apply reads_only_bind; [apply reads_only_process_all|]. intros rows3.
  apply reads_only_ret.
Qed.

End Requests.

(** ** main *)

Section Main.

Variables (env : Env) (args : Args).

(** [main] is the credentials check, the connection, and the two phases. *)
Lemma main_phases (w : World) :
  main env args w =
  match effective (host args) "host" env,
        effective (access_token args) "access_token" env with
  | Some ((_ :: _) as h), Some ((_ :: _) as t) =>
      (get_connection h t ;;
       r <- gather (cluster env) ;;
       emit args (today env) (fst r) (snd r)) w
  | _, _ => (Raise (SystemExit 2), w)
  end.
Proof.
  unfold main. cbv zeta.
  change (if truthy (host args) then host args
          else Dict.get (lit "host") (config env))
    with (effective (host args) "host" env).
  change (if truthy (access_token args) then access_token args
          else Dict.get (lit "access_token") (config env))
    with (effective (access_token args) "access_token" env).
  destruct (effective (host args) "host" env) as [[|c h]|];
    destruct (effective (access_token args) "access_token" env)
      as [[|c' t]|];
    try reflexivity.
  unfold gather, emit, bind, ret.
  repeat (cbn beta iota; cbn [fst snd];
          match goal with
          | |- context [match ?m ?w with pair _ _ => _ end] =>
              destruct (m w) as [[?|?] ?]
          end); reflexivity.
Qed.

Lemma truthy_effective (cli : option pystr) (k : string) :
  truthy (effective cli k env) =
  supplied cli (Dict.get (lit k) (config env)).
Proof.
  unfold effective, supplied. destruct (truthy cli) eqn:E; auto.
Qed.


Lemma emit_calls (today_str : pystr) (rows : list Row)
    (counts : nat * nat * nat) (w : World) :
  calls (snd (emit args today_str rows counts w)) = calls w.
Proof.
  unfold emit, bind.
  destruct (enumerate_exposures args).
  - rewrite write_csv_enumerated_run.
    destruct (rendered_result _ _); reflexivity.
  - rewrite write_csv_dedup_run.
    destruct (rendered_result _ _); reflexivity.
Qed.

Lemma snoc_eq_split {A} (h' : list A) (c' : A) (h : list A) (c : A)
    (rest : list A) :
  h' ++ [c'] = h ++ c :: rest ->
  (rest = [] /\ h = h' /\ c = c') \/
  (exists rest', rest = rest' ++ [c'] /\ h' = h ++ c :: rest').
Proof.
  intros H. destruct rest as [|x rest] using rev_ind.
  - left. apply app_inj_tail in H. destruct H as [-> ->]. auto.
  - right. exists rest.
    change (h ++ c :: rest ++ [x]) with (h ++ (c :: rest) ++ [x]) in H.
    rewrite app_assoc in H. apply app_inj_tail in H.
    destruct H as [-> ->]. auto.
Qed.

(** C8. Every request of a run is sent before any file is opened: if the
    files differ after the run, every row had been built.  If a request
    fails, at whatever point, it is the last request of the run (nothing is
    retried), the run ends with the exception of that request, and the
    files are as they were. *)
Theorem no_report_when_a_request_fails (w : World) (r : result unit)
    (w' : World) :
  main env args w = (r, w') ->
  (files w' <> files w ->
   exists h t rows counts w1,
     gather (cluster env) (snd (get_connection h t w))
     = (Ok (rows, counts), w1)) /\
  exists new,
    calls w' = calls w ++ new /\
    forall h c rest e,
      new = h ++ c :: rest ->
      failed (cluster env) (calls w ++ h) c = Some e ->
      rest = [] /\ r = Raise e /\ files w' = files w.
Proof.
  rewrite main_phases.
  destruct (effective (host args) "host" env) as [[|c0 h0]|];
    destruct (effective (access_token args) "access_token" env)
      as [[|c1 t1]|];
    try (intros [= <- <-]; split; [tauto|];
         exists []; rewrite app_nil_r; split; [reflexivity|];
         intros [|? ?] ? ? ? ?; discriminate).
  unfold bind at 1. unfold get_connection at 1.
  set (w0 := mkWorld _ _ _ _).
  destruct (reads_only_gather (cluster env) w0) as (new & Hw1 & Hr1).
  unfold bind. destruct (gather (cluster env) w0) as [[[rows counts]|e0] w1] eqn:G;
    cbn [fst snd] in *.
  - intros Hemit. split.
    + intros _. exists (c0 :: h0), (c1 :: t1), rows, counts, w1. exact G.
    + exists new. pose proof (emit_calls (today env) rows counts w1) as Hc.
      rewrite Hemit in Hc. simpl in Hc. rewrite Hc, Hw1. simpl.
      split; [reflexivity|]. intros h c rest e -> Hfail.
      apply all_answered_at in Hr1. simpl in Hr1. congruence.
  - intros [= <- <-]. rewrite Hw1. simpl. split; [tauto|].
    exists new. split; [reflexivity|]. intros h c rest e Hnew Hfail.
    destruct Hr1 as [Hr1|(h' & c' & -> & Hh' & Hc')].
    + rewrite Hnew in Hr1. apply all_answered_at in Hr1. simpl in Hr1.
      congruence.
    + apply snoc_eq_split in Hnew.
      destruct Hnew as [(-> & -> & ->)|(rest' & -> & ->)].
      * simpl in Hc'. split; [reflexivity|]. split; [congruence|reflexivity].
      * apply all_answered_at in Hh'. simpl in Hh'. congruence.
Qed.

End Main.


(** A run whose first capacity request times out. *)
Lemma no_report_when_a_request_fails_witness :
  let env := mkEnv [] (lit "2025-01-02") (capacity_down [share "a" "/a"]) in
  let args := mkArgs false (Some (lit "cluster.example")) (Some (lit "token")) in
  let w := initial_world in
  let r := @Raise unit (RequestError (lit "timeout")) in
  let w' :=
    mkWorld [(lit "cluster.example", lit "token")]
      [FsStats; SmbListShares; DirAggregates (lit "/a")] [] [] in
  main env args w = (r, w') /\
  failed (cluster env) [FsStats; SmbListShares] (DirAggregates (lit "/a"))
  = Some (RequestError (lit "timeout")) /\
  ((files w' <> files w ->
    exists h t rows counts w1,
      gather (cluster env) (snd (get_connection h t w))
      = (Ok (rows, counts), w1)) /\
   exists new,
     calls w' = calls w ++ new /\
     forall h c rest e,
       new = h ++ c :: rest ->
       failed (cluster env) (calls w ++ h) c = Some e ->
       rest = [] /\ r = Raise e /\ files w' = files w).
Proof.
  intros env args w r w'. split; [reflexivity|]. split; [reflexivity|].
  apply (no_report_when_a_request_fails env args w). reflexivity.
Defined.

(** ** The rows of a completed run *)

Section Report.

Variable cluster : Cluster.

Lemma process_all_ok_inv (items : list item)
    (protocol exposure_type name_key fs_path_key : pystr)
    (free_space usable_space : float) (data_rows rows : list Row)
    (w w1 : World) :
  process_all cluster items protocol exposure_type name_key fs_path_key
    free_space usable_space data_rows w = (Ok rows, w1) ->
  exists built,
    rows = data_rows ++ built /\
    map (fun row => Ok (row_labels row)) built
    = map (item_labels protocol exposure_type name_key fs_path_key) items.
Proof.
  unfold process_all.
  revert data_rows w. induction items as [|it items IH]; intros data_rows w H.
  - simpl in H. apply ret_inv in H. destruct H as [-> _].
    exists []. rewrite app_nil_r. auto.
  - simpl in H.
    apply bind_ok_inv in H. destruct H as (acc & w2 & Hbody & Hrest).
    apply bind_ok_inv in Hbody. destruct Hbody as (row & w3 & Hrow & Hret).
    apply ret_inv in Hret. destruct Hret as [-> ->].
    apply IH in Hrest. destruct Hrest as (built & -> & Hlabels).
    exists (row :: built). rewrite <- app_assoc. split; [reflexivity|].
    simpl. rewrite Hlabels. f_equal.
    apply process_exposure_item_ok_inv in Hrow.
    destruct Hrow as (name & fs_path & used & tags & Hn & Hp & -> & _).
    unfold item_labels. rewrite Hn, Hp. reflexivity.
Qed.

Lemma request_ok_inv {A} (c : call) (answer : list call -> result A)
    (w w1 : World) (a : A) :
  request c answer w = (Ok a, w1) -> answer (calls w) = Ok a.
Proof. unfold request. intros [= H _]. exact H. Qed.

Lemma gather_ok_inv (w w1 : World) (rows : list Row)
    (counts : nat * nat * nat) :
  gather cluster w = (Ok (rows, counts), w1) ->
  exists smb nfs s3 h1 h2 h3,
    smb_list_shares cluster h1 = Ok smb /\
    nfs_list_exports cluster h2 = Ok nfs /\
    s3_list_buckets cluster h3 = Ok s3 /\
    counts = (List.length smb, List.length nfs, List.length s3) /\
    map (fun row => Ok (row_labels row)) rows
    = map (item_labels (lit "SMB") (lit "Share") (lit "share_name")
             (lit "fs_path")) smb
      ++ map (item_labels (lit "NFS") (lit "Export") (lit "export_path")
                (lit "fs_path")) nfs
      ++ map (item_labels (lit "S3") (lit "Bucket") (lit "name") (lit "path"))
           s3.
Proof.
  unfold gather. intros H.
  apply bind_ok_inv in H. destruct H as (stats & wa & _ & H).
  apply bind_ok_inv in H. destruct H as (smb & wb & Hsmb & H).
  apply bind_ok_inv in H. destruct H as (rows1 & wc & Hrows1 & H).
  apply bind_ok_inv in H. destruct H as (nfs & wd & Hnfs & H).
  apply bind_ok_inv in H. destruct H as (rows2 & we & Hrows2 & H).
  apply bind_ok_inv in H. destruct H as (s3 & wf & Hs3 & H).
  apply bind_ok_inv in H. destruct H as (rows3 & wg & Hrows3 & H).
  apply ret_inv in H. destruct H as [[= -> ->] ->].
  apply request_ok_inv in Hsmb, Hnfs, Hs3.
  apply process_all_ok_inv in Hrows1, Hrows2, Hrows3.
  destruct Hrows1 as (b1 & -> & L1). destruct Hrows2 as (b2 & -> & L2).
  destruct Hrows3 as (b3 & -> & L3).
  exists smb, nfs, s3, (calls wa), (calls wc), (calls we).
  repeat split; auto.
  simpl. rewrite !map_app, L1, L2, L3, app_assoc. reflexivity.
Qed.

Lemma map_rendered {R B} (render : R -> result (list pystr))
    (g : list pystr -> B) (h : R -> B) (rows : list R)
    (cells : list (list pystr)) :
  (forall row c, render row = Ok c -> g c = h row) ->
  map Ok cells = map render rows ->
  map g cells = map h rows.
Proof.
  intros Hgh. revert cells. induction rows as [|r rows IH];
    intros [|c cells]; simpl; try discriminate; [reflexivity|].
  intros [= Hc Hrest]. rewrite (Hgh r c) by auto. f_equal. auto.
Qed.

Lemma enumerated_cells_labels (date_str : pystr) (row : Row)
    (cells : list pystr) :
  enumerated_cells date_str row = Ok cells ->
  firstn 4 (skipn 1 cells) = row_labels row.
Proof.
  unfold enumerated_cells.
  destruct (format_number_3f (used_pct row)); [|discriminate].
  destruct (json_dumps_tags (tags_dict row)); [|discriminate].
  simpl. intros [= <-]. reflexivity.
Qed.

End Report.

Section EnumeratedReport.

Variables (env : Env) (args : Args).


End EnumeratedReport.


(** ** get_user_metadata *)

Section Metadata.

Lemma store_page_malformed (tags : tags_t) (pg : page) :
  well_formed pg = false -> store_page tags pg = Ok tags.
Proof.
  destruct pg as [|[ | | | | | ]]; simpl; intros H;
    try reflexivity; discriminate.
Qed.

(** Malformed pages do not matter to the loop over the pages. *)
Lemma fold_store_page_filter (pgs : list page) (tags : tags_t) :
  fold_result store_page pgs tags
  = fold_result store_page (filter well_formed pgs) tags.
Proof.
  revert tags. induction pgs as [|pg pgs IH]; intros tags; simpl.
  - reflexivity.
  - destruct (well_formed pg) eqn:E; simpl.
    + destruct (store_page tags pg); simpl; auto.
    + rewrite store_page_malformed by exact E. simpl. apply IH.
Qed.

Lemma fold_result_app {A S} (body : S -> A -> result S) (l l' : list A)
    (acc : S) :
  fold_result body (l ++ l') acc
  = rbind (fold_result body l acc) (fold_result body l').
Proof.
  revert acc. induction l as [|x l IH]; intros acc; simpl.
  - reflexivity.
  - destruct (body acc x); simpl; auto.
Qed.

(** When the loops end normally, they have stored the records of the
    well-formed pages, in order. *)
Lemma fold_store_page_records (pgs : list page) (tags tags' : tags_t) :
  fold_result store_page pgs tags = Ok tags' ->
  exists records,
    all_records pgs = Ok records /\
    fold_result store_record records tags = Ok tags'.
Proof.
  revert tags. induction pgs as [|pg pgs IH]; intros tags; simpl.
  - intros [= <-]. exists []. auto.
  - destruct pg as [|data]; [apply IH|].
    destruct data as [ | | | | |d]; try apply IH.
    simpl. destruct (iterate _) as [records|e]; simpl; [|discriminate].
    destruct (fold_result store_record records tags) as [tags1|e] eqn:E;
      simpl; [|discriminate].
    intros H. apply IH in H. destruct H as (records' & -> & H).
    exists (records ++ records'). simpl. split; [reflexivity|].
    rewrite fold_result_app, E. exact H.
Qed.

Lemma store_record_ok (tags tags' : tags_t) (record : pyval) :
  store_record tags record = Ok tags' ->
  tags' = match binding record with
          | Some (k, v) => Dict.set k v tags
          | None => tags
          end.
Proof.
  unfold store_record, binding, record_get, key_field, value_field.
  destruct record as [ | | | | |d]; simpl; try discriminate.
  destruct (match Dict.get (lit "key") d with Some v => v | None => VNone end);
    simpl; intros [= <-]; reflexivity.
Qed.

Lemma fold_store_record_ok (records : list pyval) (tags tags' : tags_t) :
  fold_result store_record records tags = Ok tags' ->
  tags' = fold_left (fun t kv => Dict.set (fst kv) (snd kv) t)
            (bindings records) tags.
Proof.
  revert tags. induction records as [|record records IH]; intros tags; simpl.
  - intros [= <-]. reflexivity.
  - destruct (store_record tags record) as [tags1|e] eqn:E; simpl;
      [|discriminate].
    apply store_record_ok in E. intros H. apply IH in H. subst tags' tags1.
    destruct (binding record) as [[k v]|]; reflexivity.
Qed.

Lemma get_fold_set (kvs : list (key * pyval)) (tags : tags_t) (k : key) :
  Dict.get k (fold_left (fun t kv => Dict.set (fst kv) (snd kv) t) kvs tags)
  = match last_value k kvs with
    | Some v => Some v
    | None => Dict.get k tags
    end.
Proof.
  unfold last_value. revert tags.
  induction kvs as [|[k' v'] kvs IH] using rev_ind; intros tags.
  - reflexivity.
  - rewrite fold_left_app, rev_app_distr. simpl.
    destruct (key_eq_dec k k') as [<-|Hne].
    + apply DictFacts.get_set_eq.
    + rewrite DictFacts.get_set_neq by exact Hne. apply IH.
Qed.

Lemma get_user_metadata_run (cluster : Cluster) (path : pystr) (w : World) :
  let stream := list_user_metadata cluster (calls w) path in
  get_user_metadata cluster path w
  = (rbind (fold_result store_page (pages stream) [])
       (fun tags =>
          match failure stream with Some e => Raise e | None => Ok tags end),
     mkWorld (connections w) (calls w ++ [ListUserMetadata path]) (files w)
       (stdout w)).
Proof.
  unfold get_user_metadata, bind, request, lift. simpl.
  destruct (fold_result store_page _ []); simpl; [|reflexivity].
  destruct (failure _); reflexivity.
Qed.

Lemma in_bindings (kv : key * pyval) (records : list pyval) :
  In kv (bindings records) ->
  exists record, In record records /\ binding record = Some kv.
Proof.
  induction records as [|record records IH]; simpl; [tauto|].
  destruct (binding record) as [kv'|] eqn:E.
  - intros [<-|H].
    + exists record. auto.
    + destruct (IH H) as (r & Hr & Hb). exists r. auto.
  - intros H. destruct (IH H) as (r & Hr & Hb). exists r. auto.
Qed.

Lemma last_value_in (k : key) (v : pyval) (kvs : list (key * pyval)) :
  last_value k kvs = Some v -> In (k, v) kvs.
Proof.
  unfold last_value.
  destruct (find _ (rev kvs)) as [[k' v']|] eqn:E; [|discriminate].
  intros [= <-]. apply find_some in E. destruct E as [Hin Hk]. simpl in Hk.
  destruct (key_eq_dec k k') as [->|]; [|discriminate].
  apply in_rev. exact Hin.
Qed.

Variable cluster : Cluster.


(** What [get_user_metadata] returns, from the records of the pages. *)
Lemma get_user_metadata_ok_inv (path : pystr) (w w' : World) (tags : tags_t) :
  get_user_metadata cluster path w = (Ok tags, w') ->
  exists records,
    all_records (pages (list_user_metadata cluster (calls w) path))
    = Ok records /\
    tags = fold_left (fun t kv => Dict.set (fst kv) (snd kv) t)
             (bindings records) [] /\
    (forall k, Dict.get k tags = last_value k (bindings records)) /\
    (forall record,
       In record records -> key_field record = VNone ->
       binding record = None).
Proof.
  rewrite get_user_metadata_run. cbv zeta. intros [= H _].
  destruct (fold_result store_page _ []) as [tags0|e] eqn:E; simpl in H;
    [|discriminate].
  destruct (failure _); [discriminate|]. injection H as ->.
  apply fold_store_page_records in E. destruct E as (records & Hrec & Hfold).
  apply fold_store_record_ok in Hfold.
  exists records. split; [exact Hrec|]. split; [exact Hfold|]. split.
  - intros k. rewrite Hfold, get_fold_set. simpl.
    destruct (last_value k (bindings records)); reflexivity.
  - intros record _ Hk. unfold binding. rewrite Hk. reflexivity.
Qed.

(** C10. When [get_user_metadata] returns, the tags are the pairs of the
    records of the well-formed pages, stored in order: a key maps to the
    value of the last record that bears it, and a record whose key is absent
    or [None] adds nothing. *)
Theorem last_record_wins (path : pystr) (w w' : World) (tags : tags_t) :
  get_user_metadata cluster path w = (Ok tags, w') ->
  exists records,
    all_records (pages (list_user_metadata cluster (calls w) path))
    = Ok records /\
    tags = fold_left (fun t kv => Dict.set (fst kv) (snd kv) t)
             (bindings records) [] /\
    (forall k, Dict.get k tags = last_value k (bindings records)) /\
    (forall record,
       In record records -> key_field record = VNone ->
       binding record = None).
Proof. apply get_user_metadata_ok_inv. Qed.

(** C4 (amended). In every built row, a value of the tags is the value of a
    metadata record bearing its key, except that a [bytes] value has become
    a string: its UTF-8 decoding, or its lossy decoding when that fails.
    Values that are neither [bytes] nor strings stay as they are. *)
Theorem tags_values_of_built_row (it : item)
    (protocol exposure_type name_key fs_path_key : pystr)
    (free_space usable_space : float) (w w1 : World) (row : Row) :
  process_exposure_item cluster it protocol exposure_type name_key fs_path_key
    free_space usable_space w = (Ok row, w1) ->
  forall k v,
    Dict.get k (tags_dict row) = Some v ->
    exists h records record,
      all_records (pages (list_user_metadata cluster h (fs_path row)))
      = Ok records /\
      In record records /\
      as_key (key_field record) = Some k /\
      match value_field record with
      | VBytes b => v = VStr (text_of_bytes b)
      | raw => v = raw
      end.
Proof.
  intros Hrow k v Hget.
  apply process_exposure_item_ok_inv in Hrow.
  destruct Hrow as (name & path & used & tags & _ & _ & -> & w2 & w3 & Hmeta).
  simpl in *. apply get_user_metadata_ok_inv in Hmeta.
  destruct Hmeta as (records & Hrec & _ & Hlast & _).
  rewrite Hlast in Hget. apply last_value_in, in_bindings in Hget.
  destruct Hget as (record & Hin & Hb).
  exists (calls w2), records, record. repeat split; auto.
  - unfold binding in Hb. destruct (as_key (key_field record)); congruence.
  - unfold binding in Hb.
    destruct (as_key (key_field record)); [|discriminate].
    injection Hb as _ <-. unfold decode_value, text_of_bytes.
    destruct (value_field record); try reflexivity.
    destruct (decode_utf8 b); reflexivity.
Qed.

End Metadata.


(** The sample stream: "env" is set twice, the second value stays. *)
Lemma last_record_wins_witness :
  let cluster := static_cluster [] [] [] f0 sample_stream in
  let tags :=
    [ (KStr (lit "env"), VStr (lit "prod"));
      (KStr (lit "raw"), VStr [65533%N; 65%N]) ] in
  let w' := mkWorld [] [ListUserMetadata (lit "/eng")] [] [] in
  get_user_metadata cluster (lit "/eng") initial_world = (Ok tags, w') /\
  exists records,
    all_records (pages sample_stream) = Ok records /\
    tags = fold_left (fun t kv => Dict.set (fst kv) (snd kv) t)
             (bindings records) [] /\
    (forall k, Dict.get k tags = last_value k (bindings records)) /\
    (forall record,
       In record records -> key_field record = VNone ->
       binding record = None).
Proof.
  intros cluster tags w'. split; [reflexivity|].
  apply (@last_record_wins cluster (lit "/eng") initial_world w' tags).
  reflexivity.
Defined.

(** The same stream, in a built row. *)
Lemma tags_values_of_built_row_witness :
  let cluster := static_cluster [] [] [] (float_of_Z 2000000000) sample_stream in
  let built :=
    process_exposure_item cluster (share "eng" "/eng") (lit "SMB")
      (lit "Share") (lit "share_name") (lit "fs_path") (gb 8) (gb 20)
      initial_world in
  exists row w1,
    built = (Ok row, w1) /\
    Dict.get (KStr (lit "raw")) (tags_dict row) = Some (VStr [65533%N; 65%N]) /\
    exists h records record,
      all_records (pages (list_user_metadata cluster h (fs_path row)))
      = Ok records /\
      In record records /\
      as_key (key_field record) = Some (KStr (lit "raw")) /\
      match value_field record with
      | VBytes b => VStr [65533%N; 65%N] = VStr (text_of_bytes b)
      | raw => VStr [65533%N; 65%N] = raw
      end.
Proof.
  intros cluster built.
  destruct built as [[row|e] w1] eqn:E; [|discriminate E].
  exists row, w1. split; [reflexivity|].
  assert (Hget : Dict.get (KStr (lit "raw")) (tags_dict row)
                 = Some (VStr [65533%N; 65%N]))
    by (vm_compute in E; injection E as <- _; reflexivity).
  split; [exact Hget|].
  eapply tags_values_of_built_row; [exact E | exact Hget].
Defined.

(** C4 as stated fails on a record without value and on a record whose
    value is an integer: the row is built, and these tags are [None] and
    [5], not strings. *)
Lemma tags_value_not_a_string :
  exists row w1,
    process_exposure_item
      (static_cluster [] [] [] (float_of_Z 2000000000) untyped_stream)
      (share "eng" "/eng") (lit "SMB") (lit "Share") (lit "share_name")
      (lit "fs_path") (gb 8) (gb 20) initial_world = (Ok row, w1) /\
    Dict.get (KStr (lit "owner")) (tags_dict row) = Some VNone /\
    Dict.get (KStr (lit "quota")) (tags_dict row) = Some (VInt 5) /\
    forall s, VNone <> VStr s /\ VInt 5 <> VStr s.
Proof.
  eexists. eexists. split; [vm_compute; reflexivity|].
  split; [reflexivity|]. split; [reflexivity|].
  intros s. split; discriminate.
Qed.

(** ** Three decimal places *)

Section Formatting.

Lemma digit_is_digit (d : N) : (d < 10)%N -> is_digit (48 + d) = true.
Proof.
  intros H. unfold is_digit, in_range.
  apply andb_true_iff. split; apply N.leb_le; lia.
Qed.

Lemma decimal_aux_digits (fuel : nat) (n : N) (acc : pystr) :
  Forall (fun c => is_digit c = true) acc ->
  Forall (fun c => is_digit c = true) (decimal_aux fuel n acc).
Proof.
  revert n acc. induction fuel as [|fuel IH]; intros n acc Hacc; simpl.
  - exact Hacc.
  - assert (Hacc' : Forall (fun c => is_digit c = true)
                      ((48 + n mod 10)%N :: acc)).
    { constructor; [|exact Hacc]. apply digit_is_digit.
      apply N.mod_lt. discriminate. }
    destruct (n / 10 =? 0)%N; auto.
Qed.

Lemma decimal_aux_nonempty (fuel : nat) (n : N) (acc : pystr) :
  acc <> [] -> decimal_aux fuel n acc <> [].
Proof.
  revert n acc. induction fuel as [|fuel IH]; intros n acc Hacc; simpl.
  - exact Hacc.
  - destruct (n / 10 =? 0)%N; [discriminate|]. apply IH. discriminate.
Qed.

Lemma decimal_digits (n : N) :
  Forall (fun c => is_digit c = true) (decimal n) /\ decimal n <> [].
Proof.
  unfold decimal. split.
  - apply decimal_aux_digits. constructor.
  - simpl. destruct (n / 10 =? 0)%N; [discriminate|].
    apply decimal_aux_nonempty. discriminate.
Qed.

Lemma span_digits_app (ds : pystr) (c : N) (rest : pystr) :
  Forall (fun c => is_digit c = true) ds -> is_digit c = false ->
  span_digits (ds ++ c :: rest) = (ds, c :: rest).
Proof.
  intros Hds Hc. induction Hds as [|d ds Hd Hds IH]; simpl.
  - rewrite Hc. reflexivity.
  - rewrite Hd, IH. reflexivity.
Qed.

Lemma three_decimals_shape (negative : bool) (ds : pystr) (a b c : N) :
  Forall (fun c => is_digit c = true) ds -> ds <> [] ->
  is_digit a = true -> is_digit b = true -> is_digit c = true ->
  three_decimals
    ((if negative then [45%N] else []) ++ ds ++ 46%N :: [a; b; c]) = true.
Proof.
  intros Hds Hne Ha Hb Hc.
  destruct ds as [|d ds']; [congruence|].
  assert (Hd : is_digit d = true) by (inversion Hds; assumption).
  assert (Hd45 : (d =? 45)%N = false).
  { apply N.eqb_neq. intros ->. discriminate Hd. }
  assert (Hspan : span_digits ((d :: ds') ++ 46%N :: [a; b; c])
                  = (d :: ds', 46%N :: [a; b; c]))
    by (apply span_digits_app; auto).
  unfold three_decimals. destruct negative; cbn [app].
  - rewrite N.eqb_refl. cbn [app] in Hspan. rewrite Hspan.
    rewrite N.eqb_refl, Ha, Hb, Hc. reflexivity.
  - rewrite Hd45. cbn [app] in Hspan. rewrite Hspan.
    rewrite N.eqb_refl, Ha, Hb, Hc. reflexivity.
Qed.

Lemma three_decimals_fixed3 (negative : bool) (q : Z) :
  (0 <= q)%Z -> three_decimals (fixed3 negative q) = true.
Proof.
  intros Hq. unfold fixed3.
  destruct (decimal_digits (Z.to_N (q / 1000))) as [Hds Hne].
  change (lit ".") with [46%N]. change (lit "-") with [45%N].
  apply three_decimals_shape; auto; apply digit_is_digit.
  - pose proof (Z.mod_pos_bound q 1000 eq_refl).
    assert (0 <= q mod 1000 / 100 < 10)%Z
      by (split; [apply Z.div_pos; lia | apply Z.div_lt_upper_bound; lia]).
    lia.
  - pose proof (Z.mod_pos_bound q 100 eq_refl).
    assert (0 <= q mod 100 / 10 < 10)%Z
      by (split; [apply Z.div_pos; lia | apply Z.div_lt_upper_bound; lia]).
    lia.
  - pose proof (Z.mod_pos_bound q 10 eq_refl). lia.
Qed.

Lemma round_half_even_nonneg (num den : Z) :
  (0 <= num)%Z -> (0 < den)%Z -> (0 <= round_half_even num den)%Z.
Proof.
  intros Hn Hd. unfold round_half_even.
  assert (0 <= num / den)%Z by (apply Z.div_pos; lia).
  destruct (2 * (num mod den) ?= den)%Z; [destruct (Z.even _)| |]; lia.
Qed.

Lemma thousandths_nonneg (m : positive) (e : Z) : (0 <= thousandths m e)%Z.
Proof.
  unfold thousandths. destruct e as [|p|p].
  - lia.
  - assert (0 <= 2 ^ Z.pos p)%Z by (apply Z.pow_nonneg; lia). nia.
  - apply round_half_even_nonneg; [lia|]. apply Z.pow_pos_nonneg; lia.
Qed.

(** A finite float is written with exactly three decimal places. *)
Lemma three_decimals_format_3f (x : float) :
  is_finite x = true -> three_decimals (format_3f x) = true.
Proof.
  destruct x as [s|s| |s m e]; try discriminate; intros _; simpl.
  - apply three_decimals_fixed3. lia.
  - apply three_decimals_fixed3. apply thousandths_nonneg.
Qed.

(** So is an integer, when it converts to a float at all. *)
Lemma three_decimals_format_number (x : number) (text : pystr) :
  format_number_3f x = Ok text -> number_is_finite x = true ->
  three_decimals text = true.
Proof.
  destruct x as [n|x]; simpl.
  - unfold float_of_int.
    assert (Hs : exists s, signed s (binary_normalize prec emax n 0 false)).
    { unfold binary_normalize. destruct n as [|p|p].
      - exists false. reflexivity.
      - exists false. unfold binary_round. destruct (shl_align _ _ _).
        apply binary_round_aux_signed. lia.
      - exists true. unfold binary_round. destruct (shl_align _ _ _).
        apply binary_round_aux_signed. lia. }
    destruct Hs as [s Hs].
    destruct (binary_normalize prec emax n 0 false) as [s'|s'| |s' m e];
      simpl in *; try discriminate; try tauto;
      intros [= <-] _; apply three_decimals_fixed3;
      [lia | apply thousandths_nonneg].
  - intros [= <-]. apply three_decimals_format_3f.
Qed.

Lemma in_rendered_prefix {R} (render : R -> result (list pystr))
    (rows : list R) (cells : list pystr) :
  In cells (rendered_prefix render rows) ->
  exists row, In row rows /\ render row = Ok cells.
Proof.
  induction rows as [|r rows IH]; simpl; [tauto|].
  destruct (render r) as [c|e] eqn:E; simpl; [|tauto].
  intros [<-|H].
  - exists r. auto.
  - destruct (IH H) as (row & Hin & Hr). exists row. auto.
Qed.

Lemma written_rows {R} (render : R -> result (list pystr)) (rows : list R)
    (name : pystr) (header : list pystr) (fs : Dict.t pystr (list (list pystr)))
    (written : list (list pystr)) (cells : list pystr) :
  Dict.get name (Dict.set name (header :: rendered_prefix render rows) fs)
  = Some (header :: written) ->
  In cells written ->
  exists row, In row rows /\ render row = Ok cells.
Proof.
  rewrite DictFacts.get_set_eq. intros [= <-]. apply in_rendered_prefix.
Qed.

(** C9 (amended). In every data row written by either writer, each
    capacity or percentage field that is finite is rendered with exactly
    three decimal places.  The scenario of the share "eng" (2 GB used,
    8 GB free, 20 GB usable, no tags) writes the date of the day followed
    by "SMB", "Share", "eng", "/eng", "2.000", "8.000", "20.000", "20.000"
    and "{}". *)
Theorem finite_fields_have_three_decimals :
  (forall data_rows date_str output_filename w written cells,
     Dict.get output_filename
       (files (snd (write_csv_enumerated data_rows date_str output_filename w)))
     = Some (enumerated_header :: written) ->
     In cells written ->
     exists row pct tags,
       In row data_rows /\
       cells = [ date_str; protocol row; exposure_type row; name row;
                 fs_path row; format_3f (used_space row);
                 format_3f (free_space row); format_3f (usable_space row);
                 pct; tags ] /\
       format_number_3f (used_pct row) = Ok pct /\
       (is_finite (used_space row) = true ->
        three_decimals (format_3f (used_space row)) = true) /\
       (is_finite (free_space row) = true ->
        three_decimals (format_3f (free_space row)) = true) /\
       (is_finite (usable_space row) = true ->
        three_decimals (format_3f (usable_space row)) = true) /\
       (number_is_finite (used_pct row) = true ->
        three_decimals pct = true)) /\
  (forall dedup_rows date_str output_filename w written cells,
     Dict.get output_filename
       (files (snd (write_csv_dedup dedup_rows date_str output_filename w)))
     = Some (dedup_header :: written) ->
     In cells written ->
     exists row pct tags,
       In row dedup_rows /\
       cells = [ date_str; d_fs_path row; format_3f (d_used_space row);
                 format_3f (d_free_space row); format_3f (d_usable_space row);
                 pct; join (lit ", ") (d_exposures row); tags ] /\
       format_number_3f (d_used_pct row) = Ok pct /\
       (is_finite (d_used_space row) = true ->
        three_decimals (format_3f (d_used_space row)) = true) /\
       (is_finite (d_free_space row) = true ->
        three_decimals (format_3f (d_free_space row)) = true) /\
       (is_finite (d_usable_space row) = true ->
        three_decimals (format_3f (d_usable_space row)) = true) /\
       (number_is_finite (d_used_pct row) = true ->
        three_decimals pct = true)) /\
  (let run := main eng_env (mkArgs true None None) initial_world in
   fst run = Ok tt /\
   Dict.get (lit "qumulo_exposure_report_2025-01-02_enumerated.csv")
     (files (snd run))
   = Some [ enumerated_header;
            [ lit "2025-01-02"; lit "SMB"; lit "Share"; lit "eng"; lit "/eng";
              lit "2.000"; lit "8.000"; lit "20.000"; lit "20.000";
              lit "{}" ] ]).
Proof.
  split; [|split].
  - intros data_rows date_str output_filename w written cells Hfile Hin.
    rewrite write_csv_enumerated_run in Hfile. cbn [snd files] in Hfile.
    destruct (written_rows _ _ _ _ _ Hfile Hin) as (row & Hrow & Hcells).
    unfold enumerated_cells in Hcells.
    destruct (format_number_3f (used_pct row)) as [pct|] eqn:Hpct;
      [|discriminate].
    destruct (json_dumps_tags (tags_dict row)) as [tags|]; [|discriminate].
    injection Hcells as <-.
    exists row, pct, tags. repeat split; auto using three_decimals_format_3f.
    intros Hfin. eapply three_decimals_format_number; eauto.
  - intros dedup_rows date_str output_filename w written cells Hfile Hin.
    rewrite write_csv_dedup_run in Hfile. cbn [snd files] in Hfile.
    destruct (written_rows _ _ _ _ _ Hfile Hin) as (row & Hrow & Hcells).
    unfold dedup_cells in Hcells.
    destruct (format_number_3f (d_used_pct row)) as [pct|] eqn:Hpct;
      [|discriminate].
    destruct (json_dumps_tags (d_tags row)) as [tags|]; [|discriminate].
    injection Hcells as <-.
    exists row, pct, tags. repeat split; auto using three_decimals_format_3f.
    intros Hfin. eapply three_decimals_format_number; eauto.
  - vm_compute. split; reflexivity.
Qed.

End Formatting.

(** C9 as stated fails twice.  A cluster that reports an infinite free size
    gets a row whose free-space cell is "inf", without decimal places; and
    the row of the scenario starts with the date of the day, so it is not
    the nine cells the claim lists. *)
Lemma infinite_field_without_decimals :
  let env :=
    mkEnv [(lit "host", lit "cluster.example"); (lit "access_token", lit "t")]
      (lit "2025-01-02") (unbounded_cluster [share "eng" "/eng"]) in
  let run := main env (mkArgs true None None) initial_world in
  let claimed :=
    [ lit "SMB"; lit "Share"; lit "eng"; lit "/eng"; lit "2.000"; lit "8.000";
      lit "20.000"; lit "20.000"; lit "{}" ] in
  fst run = Ok tt /\
  Dict.get (lit "qumulo_exposure_report_2025-01-02_enumerated.csv")
    (files (snd run))
  = Some [ enumerated_header;
           [ lit "2025-01-02"; lit "SMB"; lit "Share"; lit "eng"; lit "/eng";
             lit "2.000"; lit "inf"; lit "20.000"; lit "0.000"; lit "{}" ] ] /\
  three_decimals (lit "inf") = false /\
  Dict.get (lit "qumulo_exposure_report_2025-01-02_enumerated.csv")
    (files (snd (main eng_env (mkArgs true None None) initial_world)))
  = Some [enumerated_header; lit "2025-01-02" :: claimed] /\
  lit "2025-01-02" :: claimed <> claimed.
Proof.
  vm_compute. repeat split; discriminate.
Qed.

(** ** The JSON text of the tags, read back *)

Section JsonRoundTrip.

Lemma hex_value_hex_digit (d : N) :
  (d < 16)%N -> hex_value (hex_digit d) = Some d.
Proof.
  intros Hd. unfold hex_digit, hex_value, in_range.
  destruct (d <? 10)%N eqn:E.
  - apply N.ltb_lt in E.
    replace ((48 <=? 48 + d) && (48 + d <=? 57))%N with true
      by (symmetry; apply andb_true_iff; split; apply N.leb_le; lia).
    f_equal. lia.
  - apply N.ltb_ge in E.
    replace ((48 <=? 87 + d) && (87 + d <=? 57))%N with false
      by (symmetry; apply andb_false_iff; right; apply N.leb_gt; lia).
    replace ((97 <=? 87 + d) && (87 + d <=? 102))%N with true
      by (symmetry; apply andb_true_iff; split; apply N.leb_le; lia).
    f_equal. lia.
Qed.

Lemma hex4_value_hex4 (n : N) :
  (n < 65536)%N ->
  hex4_value (hex_digit (n / 4096 mod 16)) (hex_digit (n / 256 mod 16))
    (hex_digit (n / 16 mod 16)) (hex_digit (n mod 16)) = Some n.
Proof.
  intros Hn. unfold hex4_value.
  rewrite !hex_value_hex_digit by (apply N.mod_lt; discriminate).
  f_equal.
  pose proof (N.div_mod n 16 ltac:(discriminate)).
  pose proof (N.div_mod (n / 16) 16 ltac:(discriminate)).
  pose proof (N.div_mod (n / 16 / 16) 16 ltac:(discriminate)).
  pose proof (N.mod_lt n 16 ltac:(discriminate)).
  pose proof (N.mod_lt (n / 16) 16 ltac:(discriminate)).
  pose proof (N.mod_lt (n / 16 / 16) 16 ltac:(discriminate)).
  assert (H256 : (n / 256 = n / 16 / 16)%N)
    by (rewrite N.Div0.div_div; reflexivity).
  assert (H4096 : (n / 4096 = n / 16 / 16 / 16)%N)
    by (rewrite !N.Div0.div_div; reflexivity).
  assert (Hsmall : (n / 16 / 16 / 16 < 16)%N).
  { rewrite <- H4096. apply N.Div0.div_lt_upper_bound. exact Hn. }
  rewrite H256, H4096.
  rewrite (N.mod_small (n / 16 / 16 / 16) 16) by exact Hsmall.
  lia.
Qed.

Lemma scanstring_plain (c : N) (r : pystr) :
  (c =? 34)%N = false -> (c =? 92)%N = false -> (c <? 32)%N = false ->
  scanstring (c :: r) = cons_char c (scanstring r).
Proof.
  intros H1 H2 H3. cbn [scanstring]. rewrite H1, H2, H3. reflexivity.
Qed.

Lemma scanstring_letter (e ch : N) (r : pystr) :
  (e =? 117)%N = false -> unescape e = Some ch ->
  scanstring (92%N :: e :: r) = cons_char ch (scanstring r).
Proof.
  intros H1 H2. cbn [scanstring].
  change ((92 =? 34)%N) with false. change ((92 =? 92)%N) with true.
  cbn iota. rewrite H1, H2. reflexivity.
Qed.

Lemma scanstring_u (a b c d u : N) (r : pystr) :
  hex4_value a b c d = Some u -> in_range 55296 56319 u = false ->
  scanstring (92%N :: 117%N :: a :: b :: c :: d :: r)
  = cons_char u (scanstring r).
Proof.
  intros H1 H2. cbn [scanstring].
  change ((92 =? 34)%N) with false. change ((92 =? 92)%N) with true.
  change ((117 =? 117)%N) with true.
  cbn iota. rewrite H1, H2. reflexivity.
Qed.

Lemma scanstring_pair (a b c d u a2 b2 c2 d2 u2 : N) (r : pystr) :
  hex4_value a b c d = Some u -> in_range 55296 56319 u = true ->
  hex4_value a2 b2 c2 d2 = Some u2 -> in_range 56320 57343 u2 = true ->
  scanstring (92%N :: 117%N :: a :: b :: c :: d
              :: 92%N :: 117%N :: a2 :: b2 :: c2 :: d2 :: r)
  = cons_char (65536 + (u - 55296) * 1024 + (u2 - 56320))%N (scanstring r).
Proof.
  intros H1 H2 H3 H4. cbn [scanstring].
  change ((92 =? 34)%N) with false. change ((92 =? 92)%N) with true.
  change ((117 =? 117)%N) with true.
  cbn iota. rewrite H1, H2. cbn [andb]. rewrite H3, H4. reflexivity.
Qed.

Lemma in_range_spec (lo hi c : N) :
  in_range lo hi c = true <-> (lo <= c <= hi)%N.
Proof.
  unfold in_range. rewrite andb_true_iff, !N.leb_le. tauto.
Qed.

Lemma in_range_false (lo hi c : N) :
  in_range lo hi c = false <-> (c < lo \/ hi < c)%N.
Proof.
  unfold in_range. rewrite andb_false_iff, !N.leb_gt. tauto.
Qed.

Lemma is_scalar_spec (c : N) :
  is_scalar c = true <-> (c < 55296 \/ 57344 <= c <= 1114111)%N.
Proof.
  unfold is_scalar. rewrite orb_true_iff, N.ltb_lt, in_range_spec. tauto.
Qed.

(** The scanner reads one escaped character back. *)
Lemma scanstring_escape_char (c : N) (tail : pystr) :
  is_scalar c = true ->
  scanstring (escape_char c ++ tail) = cons_char c (scanstring tail).
Proof.
  intros Hc. apply is_scalar_spec in Hc. unfold escape_char.
  destruct (c =? 34)%N eqn:E34;
    [apply N.eqb_eq in E34; subst c; reflexivity|].
  destruct (c =? 92)%N eqn:E92;
    [apply N.eqb_eq in E92; subst c; reflexivity|].
  destruct (c =? 10)%N eqn:E10;
    [apply N.eqb_eq in E10; subst c; reflexivity|].
  destruct (c =? 13)%N eqn:E13;
    [apply N.eqb_eq in E13; subst c; reflexivity|].
  destruct (c =? 9)%N eqn:E9;
    [apply N.eqb_eq in E9; subst c; reflexivity|].
  destruct (c =? 8)%N eqn:E8;
    [apply N.eqb_eq in E8; subst c; reflexivity|].
  destruct (c =? 12)%N eqn:E12;
    [apply N.eqb_eq in E12; subst c; reflexivity|].
  destruct (in_range 32 126 c) eqn:Eprint.
  - apply in_range_spec in Eprint. cbn [app].
    apply scanstring_plain; auto. apply N.ltb_ge. lia.
  - apply in_range_false in Eprint.
    destruct (c <? 65536)%N eqn:Ebmp.
    + apply N.ltb_lt in Ebmp. unfold hex4.
      change (lit "\u") with [92%N; 117%N]. cbn [app].
      apply scanstring_u; [apply hex4_value_hex4; exact Ebmp|].
      apply in_range_false. lia.
    + apply N.ltb_ge in Ebmp. unfold hex4.
      change (lit "\u") with [92%N; 117%N]. cbn [app].
      pose proof (N.div_mod (c - 65536) 1024 ltac:(discriminate)) as Hdm.
      assert (Hq : ((c - 65536) / 1024 < 1024)%N)
        by (apply N.Div0.div_lt_upper_bound; lia).
      assert (Hr : ((c - 65536) mod 1024 < 1024)%N)
        by (apply N.mod_lt; discriminate).
      rewrite (N.mod_small ((c - 65536) / 1024) 1024) by exact Hq.
      revert Hdm Hq Hr.
      generalize ((c - 65536) / 1024)%N ((c - 65536) mod 1024)%N.
      intros q r Hdm Hq Hr.
      rewrite (@scanstring_pair _ _ _ _ (55296 + q) _ _ _ _ (56320 + r));
        [ | apply hex4_value_hex4; lia | apply in_range_spec; lia
          | apply hex4_value_hex4; lia | apply in_range_spec; lia ].
      f_equal. lia.
Qed.

(** The scanner reads the body of a written string back. *)
Lemma scanstring_body (s rest : pystr) :
  forallb is_scalar s = true ->
  scanstring (flat_map escape_char s ++ 34%N :: rest) = Some (s, rest).
Proof.
  induction s as [|c s IH]; simpl; intros Hs.
  - reflexivity.
  - apply andb_true_iff in Hs. destruct Hs as [Hc Hs].
    rewrite <- app_assoc, scanstring_escape_char by exact Hc.
    rewrite IH by exact Hs. reflexivity.
Qed.

Lemma skip_ws_other (c : N) (r : pystr) :
  is_ws c = false -> skip_ws (c :: r) = c :: r.
Proof. intros H. simpl. rewrite H. reflexivity. Qed.

Lemma json_members_text (tags : tags_t) :
  text_tags tags = true -> json_members tags = Ok (map member_text tags).
Proof.
  induction tags as [|[k x] tags IH]; simpl; intros H; [reflexivity|].
  apply andb_true_iff in H. destruct H as [Hkv H].
  destruct k as [n|k|b]; try discriminate.
  destruct x as [ |n|v|b|l|d]; try discriminate.
  simpl. rewrite IH by exact H. reflexivity.
Qed.

(** Reading one written member: what remains to be done is decided by the
    text after it. *)
Lemma parse_members_member (fuel : nat) (k v rest : pystr) (acc : tags_t) :
  forallb is_scalar k = true -> forallb is_scalar v = true ->
  parse_members (S fuel) (member_text (KStr k, VStr v) ++ rest) acc
  = let acc' := Dict.set (KStr k) (VStr v) acc in
    match skip_ws rest with
    | x :: r5 =>
        if (x =? 125)%N then
          match skip_ws r5 with
          | [] => Some acc'
          | _ :: _ => None
          end
        else if (x =? 44)%N then parse_members fuel (skip_ws r5) acc'
        else None
    | [] => None
    end.
Proof.
  intros Hk Hv. unfold member_text, json_string.
  change (lit ": ") with [58%N; 32%N].
  rewrite <- !app_assoc. cbn [app parse_members].
  change ((34 =? 34)%N) with true. cbn [negb].
  rewrite scanstring_body by exact Hk.
  rewrite skip_ws_other by reflexivity.
  change ((58 =? 58)%N) with true. cbn [negb].
  cbn [skip_ws]. change (is_ws 32) with true. change (is_ws 34) with false.
  cbn iota. change ((34 =? 34)%N) with true. cbn [negb].
  rewrite scanstring_body by exact Hv. reflexivity.
Qed.

Lemma member_text_head (kv : key * pyval) :
  text_entry kv = true -> exists r, member_text kv = 34%N :: r.
Proof.
  destruct kv as [[n|k|b] [ |n'|v|b'|l|d]]; try discriminate.
  intros _. eexists. reflexivity.
Qed.

Lemma join_head (sep : pystr) (parts : list pystr) (c : N) :
  parts <> [] ->
  Forall (fun p => exists r, p = c :: r) parts ->
  exists r, join sep parts = c :: r.
Proof.
  destruct parts as [|p parts]; [congruence|]. intros _ H.
  inversion H as [|? ? [r ->] _]; subst.
  destruct parts; simpl; eexists; reflexivity.
Qed.

(** Reading the written members back stores the entries in order. *)
Lemma parse_members_written (tags : tags_t) (acc : tags_t) (fuel : nat) :
  tags <> [] -> text_tags tags = true -> (List.length tags <= fuel)%nat ->
  parse_members fuel (join (lit ", ") (map member_text tags) ++ [125%N]) acc
  = Some (fold_left (fun t kv => Dict.set (fst kv) (snd kv) t) tags acc).
Proof.
  revert acc fuel. induction tags as [|kv tags IH]; intros acc fuel Hne Ht Hf;
    [congruence|].
  simpl in Ht. apply andb_true_iff in Ht. destruct Ht as [Hkv Ht].
  destruct fuel as [|fuel]; [simpl in Hf; lia|]. simpl in Hf.
  assert (Hkv' := Hkv).
  destruct kv as [[n|k|b] [ |n'|v|b'|l|d]]; try discriminate.
  simpl in Hkv. apply andb_true_iff in Hkv. destruct Hkv as [Hk Hv].
  destruct tags as [|kv2 tags'].
  - cbn [map join fold_left fst snd].
    rewrite parse_members_member by assumption. reflexivity.
  - set (J := join (lit ", ") (map member_text (kv2 :: tags'))) in *.
    assert (HJ : join (lit ", ") (map member_text
                                    ((KStr k, VStr v) :: kv2 :: tags'))
                 = member_text (KStr k, VStr v) ++ lit ", " ++ J)
      by reflexivity.
    assert (Hhead : exists r, J = 34%N :: r).
    { apply join_head; [discriminate|].
      apply Forall_forall. intros p Hp. apply in_map_iff in Hp.
      destruct Hp as (kv' & <- & Hin). apply member_text_head.
      unfold text_tags in Ht. rewrite forallb_forall in Ht. auto. }
    destruct Hhead as [r Hr].
    rewrite HJ, <- !app_assoc.
    rewrite parse_members_member by assumption.
    change (lit ", ") with [44%N; 32%N]. cbn [app].
    rewrite skip_ws_other by reflexivity.
    change ((44 =? 125)%N) with false. change ((44 =? 44)%N) with true.
    cbn iota. cbn zeta.
    assert (Hskip : skip_ws (32%N :: J ++ [125%N]) = J ++ [125%N])
      by (rewrite Hr; reflexivity).
    rewrite Hskip.
    rewrite IH; [reflexivity|discriminate|exact Ht|lia].
Qed.

Lemma join_length (sep : pystr) (parts : list pystr) :
  Forall (fun p => p <> []) parts ->
  (List.length parts <= List.length (join sep parts))%nat.
Proof.
  induction parts as [|p parts IH]; simpl; intros H; [lia|].
  inversion H as [|? ? Hp Hps]; subst.
  assert (1 <= List.length p)%nat by (destruct p; [congruence|simpl; lia]).
  destruct parts as [|q parts].
  - simpl. lia.
  - rewrite !length_app. specialize (IH Hps). simpl in IH |- *. lia.
Qed.

(** The text [json.dumps] writes for tags made of strings is read back by
    [json.loads] as the same dictionary. *)
Lemma json_round_trip (tags : tags_t) :
  text_tags tags = true -> NoDup (Dict.keys tags) ->
  exists text,
    json_dumps_tags tags = Ok text /\ json_loads text = Some tags.
Proof.
  intros Ht Hnd. unfold json_dumps_tags.
  rewrite json_members_text by exact Ht. simpl rbind.
  eexists. split; [reflexivity|].
  destruct tags as [|kv tags].
  - reflexivity.
  - set (body := join (lit ", ") (map member_text (kv :: tags))).
    assert (Hhead : exists r, body = 34%N :: r).
    { apply join_head; [discriminate|].
      apply Forall_forall. intros p Hp. apply in_map_iff in Hp.
      destruct Hp as (kv' & <- & Hin). apply member_text_head.
      unfold text_tags in Ht. rewrite forallb_forall in Ht. auto. }
    assert (Hlen : (List.length (kv :: tags) <= List.length body)%nat).
    { unfold body. rewrite <- (length_map member_text (kv :: tags)).
      apply join_length.
      apply Forall_forall. intros p Hp. apply in_map_iff in Hp.
      destruct Hp as (kv' & <- & Hin).
      destruct (member_text_head kv') as [r ->]; [|discriminate].
      unfold text_tags in Ht. rewrite forallb_forall in Ht. auto. }
    pose proof (parse_members_written (tags := kv :: tags) []
                  (fuel := List.length (lit "{" ++ body ++ lit "}"))) as Hp.
    rewrite DictFacts.fold_set_fresh in Hp by exact Hnd.
    fold body in Hp. clearbody body.
    unfold json_loads.
    change (lit "{" ++ body ++ lit "}") with (123%N :: body ++ [125%N]) in *.
    rewrite skip_ws_other by reflexivity.
    change ((123 =? 123)%N) with true. cbn [negb].
    change (lit "}") with [125%N].
    destruct Hhead as [r Hr].
    assert (Hb : skip_ws (body ++ [125%N]) = body ++ [125%N])
      by (rewrite Hr; reflexivity).
    rewrite Hb.
    assert (Hb2 : body ++ [125%N] = 34%N :: r ++ [125%N])
      by (rewrite Hr; reflexivity).
    rewrite Hb2 at 1. change ((34 =? 125)%N) with false. cbn iota.
    rewrite <- Hb2. apply Hp; [discriminate|exact Ht|].
    simpl in Hlen |- *. rewrite length_app. simpl. lia.
Qed.

Lemma nodup_fold_set (kvs : list (key * pyval)) (tags : tags_t) :
  NoDup (Dict.keys tags) ->
  NoDup (Dict.keys
           (fold_left (fun t kv => Dict.set (fst kv) (snd kv) t) kvs tags)).
Proof.
  revert tags. induction kvs as [|kv kvs IH]; intros tags H; simpl.
  - exact H.
  - apply IH. apply DictFacts.nodup_set. exact H.
Qed.

(** C5. The tags cell of a written row, in either mode, is the JSON text of
    the tags of its row; when these tags are a dictionary of strings made of
    Unicode scalar values (as printable strings are), [json.loads] reads the
    cell back as the same dictionary.  Such tags are always written, and the
    tags of a built row have no duplicate key. *)
Theorem tags_cell_reads_back :
  (forall data_rows date_str output_filename w written cells,
     Dict.get output_filename
       (files (snd (write_csv_enumerated data_rows date_str output_filename w)))
     = Some (enumerated_header :: written) ->
     In cells written ->
     exists row,
       In row data_rows /\
       enumerated_cells date_str row = Ok cells /\
       json_dumps_tags (tags_dict row) = Ok (nth 9 cells []) /\
       (text_tags (tags_dict row) = true ->
        NoDup (Dict.keys (tags_dict row)) ->
        json_loads (nth 9 cells []) = Some (tags_dict row))) /\
  (forall dedup_rows date_str output_filename w written cells,
     Dict.get output_filename
       (files (snd (write_csv_dedup dedup_rows date_str output_filename w)))
     = Some (dedup_header :: written) ->
     In cells written ->
     exists row,
       In row dedup_rows /\
       dedup_cells date_str row = Ok cells /\
       json_dumps_tags (d_tags row) = Ok (nth 7 cells []) /\
       (text_tags (d_tags row) = true ->
        NoDup (Dict.keys (d_tags row)) ->
        json_loads (nth 7 cells []) = Some (d_tags row))) /\
  (forall tags,
     text_tags tags = true -> NoDup (Dict.keys tags) ->
     exists text,
       json_dumps_tags tags = Ok text /\ json_loads text = Some tags) /\
  (forall cluster it protocol exposure_type name_key fs_path_key free_space
          usable_space w row w1,
     process_exposure_item cluster it protocol exposure_type name_key
       fs_path_key free_space usable_space w = (Ok row, w1) ->
     NoDup (Dict.keys (tags_dict row))).
Proof.
  split; [|split; [|split]].
  - intros data_rows date_str output_filename w written cells Hfile Hin.
    rewrite write_csv_enumerated_run in Hfile. cbn [snd files] in Hfile.
    destruct (written_rows _ _ _ _ _ Hfile Hin) as (row & Hrow & Hcells).
    exists row. split; [exact Hrow|]. split; [exact Hcells|].
    unfold enumerated_cells in Hcells.
    destruct (format_number_3f (used_pct row)) as [pct|]; [|discriminate].
    destruct (json_dumps_tags (tags_dict row)) as [text|] eqn:Hdump;
      [|discriminate].
    injection Hcells as <-. cbn [nth]. split; [reflexivity|].
    intros Ht Hnd. destruct (json_round_trip _ Ht Hnd) as (text' & Hd & Hl).
    congruence.
  - intros dedup_rows date_str output_filename w written cells Hfile Hin.
    rewrite write_csv_dedup_run in Hfile. cbn [snd files] in Hfile.
    destruct (written_rows _ _ _ _ _ Hfile Hin) as (row & Hrow & Hcells).
    exists row. split; [exact Hrow|]. split; [exact Hcells|].
    unfold dedup_cells in Hcells.
    destruct (format_number_3f (d_used_pct row)) as [pct|]; [|discriminate].
    destruct (json_dumps_tags (d_tags row)) as [text|] eqn:Hdump;
      [|discriminate].
    injection Hcells as <-. cbn [nth]. split; [reflexivity|].
    intros Ht Hnd. destruct (json_round_trip _ Ht Hnd) as (text' & Hd & Hl).
    congruence.
  - exact json_round_trip.
  - intros cluster it protocol exposure_type name_key fs_path_key free_space
      usable_space w row w1 Hrow.
    apply process_exposure_item_ok_inv in Hrow.
    destruct Hrow as (name & path & used & tags & _ & _ & -> & w2 & w3 & Hm).
    apply get_user_metadata_ok_inv in Hm.
    destruct Hm as (records & _ & -> & _). cbn [tags_dict].
    apply nodup_fold_set. constructor.
Qed.

End JsonRoundTrip.

(** A row with two tags, written in enumerated mode and read back. *)
Lemma tags_cell_reads_back_witness :
  let tags :=
    [ (KStr (lit "owner"), VStr (lit "r&d \ team"));
      (KStr [233%N], VStr [34%N; 128512%N; 10%N]) ] in
  let row :=
    mkRow (lit "SMB") (lit "Share") (lit "eng") (lit "/eng") (gb 2) (gb 8)
      (gb 20) (PyFloat (gb 20)) tags in
  let name := lit "report.csv" in
  let w := snd (write_csv_enumerated [row] (lit "2025-01-02") name initial_world) in
  exists cells,
    Dict.get name (files w) = Some [enumerated_header; cells] /\
    text_tags tags = true /\
    json_loads (nth 9 cells []) = Some tags.
Proof.
  intros tags row name w.
  destruct (Dict.get name (files w)) as [[|h [|cells [|]]]|] eqn:E;
    try discriminate E.
  assert (Hh : h = enumerated_header)
    by (vm_compute in E; injection E as <- _; reflexivity).
  subst h. exists cells. split; [reflexivity|]. split; [reflexivity|].
  destruct (proj1 tags_cell_reads_back [row] (lit "2025-01-02") name
              initial_world [cells] cells E (or_introl eq_refl))
    as (row' & [<-|[]] & _ & _ & Hback).
  apply Hback; [reflexivity|].
  constructor; [simpl; intros [H|[]]; discriminate H|].
  constructor; [intros []|constructor].
Defined.

(** ** The models of the library functions, on known values *)

Section Library.

Lemma digits_value_from (s : pystr) (a : N) :
  fold_left (fun acc c => (10 * acc + (c - 48))%N) s a
  = (a * 10 ^ N.of_nat (List.length s) + digits_value s)%N.
Proof.
  unfold digits_value. revert a. induction s as [|c s IH]; intros a.
  - simpl. lia.
  - cbn [fold_left List.length]. rewrite IH, (IH (10 * 0 + (c - 48))%N).
    rewrite Nat2N.inj_succ, N.pow_succ_r'. ring.
Qed.

Lemma pos_size_nat_bound (p : positive) :
  (N.pos p < 2 ^ N.of_nat (Pos.size_nat p))%N.
Proof.
  induction p as [p IH|p IH|]; cbn [Pos.size_nat];
    rewrite ?Nat2N.inj_succ, ?N.pow_succ_r'.
  - revert IH. generalize (2 ^ N.of_nat (Pos.size_nat p))%N. lia.
  - revert IH. generalize (2 ^ N.of_nat (Pos.size_nat p))%N. lia.
  - reflexivity.
Qed.

(** [decimal_aux] writes the digits of [n] in front of [acc], as soon as
    its fuel covers the bits of [n]. *)
Lemma decimal_aux_value (fuel : nat) (n : N) (acc : pystr) :
  (n < 2 ^ N.of_nat fuel)%N ->
  digits_value (decimal_aux fuel n acc)
  = (n * 10 ^ N.of_nat (List.length acc) + digits_value acc)%N.
Proof.
  revert n acc. induction fuel as [|fuel IH]; intros n acc Hn.
  - simpl in *. assert (n = 0)%N by lia. subst n. reflexivity.
  - cbn [decimal_aux].
    rewrite Nat2N.inj_succ, N.pow_succ_r' in Hn.
    pose proof (N.div_mod n 10 ltac:(discriminate)) as Hdm.
    pose proof (N.mod_lt n 10 ltac:(discriminate)) as Hr.
    assert (Hq : (n / 10 < 2 ^ N.of_nat fuel)%N).
    { apply N.Div0.div_lt_upper_bound. lia. }
    assert (Hcons : forall d,
              digits_value ((48 + d)%N :: acc)
              = (d * 10 ^ N.of_nat (List.length acc) + digits_value acc)%N).
    { intros d. unfold digits_value at 1. cbn [fold_left].
      rewrite digits_value_from.
      replace (10 * 0 + (48 + d - 48))%N with d by lia. reflexivity. }
    destruct (n / 10 =? 0)%N eqn:E.
    + apply N.eqb_eq in E. rewrite Hcons. f_equal. f_equal. lia.
    + rewrite IH by exact Hq. rewrite Hcons. cbn [List.length].
      rewrite Nat2N.inj_succ, N.pow_succ_r'.
      revert Hdm Hr. generalize (n / 10)%N (n mod 10)%N. intros q r Hdm Hr.
      subst n. ring.
Qed.

(** The digits [decimal] writes denote the number. *)
Lemma decimal_value (n : N) : digits_value (decimal n) = n.
Proof.
  unfold decimal. rewrite decimal_aux_value.
  - simpl. unfold digits_value. simpl. lia.
  - rewrite Nat2N.inj_succ, N.pow_succ_r'. destruct n as [|p].
    + simpl. lia.
    + pose proof (pos_size_nat_bound p). simpl N.size_nat. lia.
Qed.

(** [bytes.decode] on ill-formed input, as Python decodes it. *)
Example decode_truncated_sequence :
  decode_utf8 [Byte.xe2; Byte.x82; Byte.x41] = None /\
  decode_utf8_replace [Byte.xe2; Byte.x82; Byte.x41] = [65533; 65]%N.
Proof. split; reflexivity. Qed.

Example decode_surrogate_bytes :
  decode_utf8_replace [Byte.xed; Byte.xa0; Byte.x80]
  = [65533; 65533; 65533]%N.
Proof. reflexivity. Qed.

Example decode_four_bytes :
  decode_utf8 [Byte.xf0; Byte.x9f; Byte.x98; Byte.x80] = Some [128512%N].
Proof. reflexivity. Qed.

(** [f"{x:.3f}"] rounds the exact binary value, ties to even. *)
Example format_half_thousandth :
  format_3f (fdiv (float_of_Z 1) (float_of_Z 2000)) = lit "0.001" /\
  format_3f (fdiv (float_of_Z 1) (float_of_Z 4000)) = lit "0.000" /\
  format_3f (fdiv (float_of_Z 10005) (float_of_Z 10000)) = lit "1.000" /\
  format_3f (S754_zero true) = lit "-0.000".
Proof. repeat split; reflexivity. Qed.

(** The scenario of two exposures of one path, in deduplicated mode. *)
Example shared_path_report :
  let run := main shared_env (mkArgs false None None) initial_world in
  fst run = Ok tt /\
  Dict.get (lit "qumulo_exposure_report_2025-01-02_dedup.csv")
    (files (snd run))
  = Some [ dedup_header;
           [ lit "2025-01-02"; lit "/shared"; lit "1.000"; lit "9.000";
             lit "20.000"; lit "10.000"; lit "SMB:Share:a, NFS:Export:b";
             lit "{}" ] ].
Proof. vm_compute. split; reflexivity. Qed.

End Library.

(* ================================================================== *)
(** * Further properties of the code *)
(* ================================================================== *)

(** ** One exposure record *)

Section ItemRuns.

Variable cluster : Cluster.

(** [process_exposure_item] on a record that has both fields, step by
    step. *)
Lemma process_exposure_item_run (it : item)
    (label kind name_key fs_path_key : pystr) (free usable : float)
    (w : World) (name path : pystr) :
  item_field it name_key = Ok name ->
  item_field it fs_path_key = Ok path ->
  process_exposure_item cluster it label kind name_key fs_path_key free usable w
  = match read_dir_aggregates cluster (calls w) path with
    | Raise e =>
        (Raise e,
         mkWorld (connections w) (calls w ++ [DirAggregates path]) (files w)
           (stdout w))
    | Ok total =>
        let stream :=
          list_user_metadata cluster (calls w ++ [DirAggregates path]) path in
        (rbind (fold_result store_page (pages stream) []) (fun tags =>
         match failure stream with
         | Some e => Raise e
         | None =>
             Ok (mkRow label kind name path (fdiv total f1e9) free usable
                   (compute_used_pct (fdiv total f1e9) free) tags)
         end),
         mkWorld (connections w) (calls w ++ item_calls path) (files w)
           (stdout w))
    end.
Proof.
  intros Hn Hp. unfold process_exposure_item, bind, lift. rewrite Hn, Hp.
  unfold get_directory_capacity, bind, request, ret. cbn [calls].
  destruct (read_dir_aggregates cluster (calls w) path) as [total|e];
    [|reflexivity].
  rewrite get_user_metadata_run. cbn [calls connections files stdout].
  unfold item_calls. rewrite <- app_assoc. cbn [app].
  destruct (fold_result store_page _ []) as [tags|e]; [|reflexivity].
  cbn [rbind]. destruct (failure _); reflexivity.
Qed.

(** X1. A record without its name field, or with the name but without its
    path field, makes [process_exposure_item] raise before anything is
    sent: the world is as it was.  The exception is a [KeyError] for a
    dictionary record and an [AttributeError] for an object. *)
Theorem missing_field_sends_no_request (it : item)
    (label kind name_key fs_path_key : pystr) (free usable : float)
    (w : World) (e : exn) :
  item_field it name_key = Raise e \/
  (exists name, item_field it name_key = Ok name) /\
  item_field it fs_path_key = Raise e ->
  process_exposure_item cluster it label kind name_key fs_path_key free usable w
  = (Raise e, w) /\
  match it with
  | DictItem _ => e = KeyError name_key \/ e = KeyError fs_path_key
  | ObjItem _ => e = AttributeError name_key \/ e = AttributeError fs_path_key
  end.
Proof.
  intros H. split.
  - unfold process_exposure_item, bind, lift.
    destruct H as [Hn|[[name Hn] Hp]]; rewrite Hn; [reflexivity|].
    rewrite Hp. reflexivity.
  - unfold item_field in H.
    destruct it as [d|attrs];
      destruct H as [Hn|[_ Hp]];
      repeat match goal with
             | H : match ?x with Some _ => _ | None => _ end = _ |- _ =>
                 destruct x; inversion H; subst; clear H
             end; auto.
Qed.

(** X2. [process_exposure_item] leaves connections, files and printed
    lines alone.  A row comes with exactly two requests, the capacity of
    its path and then the metadata of its path; when the capacity request
    fails, its exception is the outcome and no metadata is requested. *)
Theorem item_requests (it : item)
    (label kind name_key fs_path_key : pystr) (free usable : float)
    (w : World) (r : result Row) (w1 : World) :
  process_exposure_item cluster it label kind name_key fs_path_key free usable w
  = (r, w1) ->
  connections w1 = connections w /\
  files w1 = files w /\
  stdout w1 = stdout w /\
  (forall row, r = Ok row -> calls w1 = calls w ++ item_calls (fs_path row)) /\
  (forall name path e,
     item_field it name_key = Ok name ->
     item_field it fs_path_key = Ok path ->
     read_dir_aggregates cluster (calls w) path = Raise e ->
     r = Raise e /\ calls w1 = calls w ++ [DirAggregates path]).
Proof.
  intros H.
  destruct (item_field it name_key) as [name|e1] eqn:Hn.
  - destruct (item_field it fs_path_key) as [path|e2] eqn:Hp.
    + rewrite (process_exposure_item_run _ _ _ _ _ _ _ _ Hn Hp) in H.
      destruct (read_dir_aggregates cluster (calls w) path) as [total|e0]
        eqn:Hcap.
      * cbv zeta in H. injection H as Hr <-.
        cbn [connections files stdout calls].
        split; [reflexivity|]. split; [reflexivity|]. split; [reflexivity|].
        split.
        -- intros row ->.
           destruct (fold_result store_page _ []) as [tags|]; [|discriminate].
           cbn [rbind] in Hr. destruct (failure _); [discriminate|].
           injection Hr as <-. reflexivity.
        -- intros n p' e' _ [= <-] He'. congruence.
      * injection H as <- <-. cbn [connections files stdout calls].
        split; [reflexivity|]. split; [reflexivity|]. split; [reflexivity|].
        split.
        -- intros row [=].
        -- intros n p' e' _ [= <-] He'. split; congruence.
    + unfold process_exposure_item, bind, lift in H. rewrite Hn, Hp in H.
      injection H as <- <-.
      split; [reflexivity|]. split; [reflexivity|]. split; [reflexivity|].
      split; [intros row [=] | intros n p' e' _ [=]].
  - unfold process_exposure_item, bind, lift in H. rewrite Hn in H.
    injection H as <- <-.
    split; [reflexivity|]. split; [reflexivity|]. split; [reflexivity|].
    split; [intros row [=] | intros n p' e' [=]].
Qed.

End ItemRuns.

Lemma missing_field_sends_no_request_witness :
  let cluster := static_cluster [] [] [] (float_of_Z 2000000000) no_tags in
  let it := ObjItem [(lit "name", lit "logs")] in
  item_field it (lit "path") = Raise (AttributeError (lit "path")) /\
  process_exposure_item cluster it (lit "S3") (lit "Bucket") (lit "name")
    (lit "path") (gb 8) (gb 20) initial_world
  = (Raise (AttributeError (lit "path")), initial_world).
Proof.
  intros cluster it. split; [reflexivity|].
  apply (missing_field_sends_no_request cluster it (lit "S3") (lit "Bucket")
           (lit "name") (lit "path") (gb 8) (gb 20) initial_world).
  right. split; [exists (lit "logs")|]; reflexivity.
Defined.

Lemma item_requests_witness :
  let cluster := static_cluster [] [] [] (float_of_Z 2000000000) no_tags in
  let run :=
    process_exposure_item cluster (share "eng" "/eng") (lit "SMB")
      (lit "Share") (lit "share_name") (lit "fs_path") (gb 8) (gb 20)
      initial_world in
  run = (fst run, snd run) /\
  calls (snd run) = [DirAggregates (lit "/eng"); ListUserMetadata (lit "/eng")] /\
  files (snd run) = [].
Proof.
  intros cluster run.
  assert (Hrun : run = (fst run, snd run)) by (destruct run; reflexivity).
  split; [exact Hrun|].
  destruct (item_requests _ _ _ _ _ _ _ _ _ Hrun) as (_ & Hf & _ & Hc & _).
  split; [|exact Hf].
  destruct (fst run) as [row|e] eqn:E; [|discriminate E].
  rewrite (Hc row eq_refl).
  vm_compute in E. injection E as <-. reflexivity.
Defined.

(** ** Whole runs *)

Section Runs.

Variable cluster : Cluster.

Lemma process_exposure_item_ok_full (it : item)
    (label kind name_key fs_path_key : pystr) (free usable : float)
    (w w1 : World) (row : Row) :
  process_exposure_item cluster it label kind name_key fs_path_key free usable w
  = (Ok row, w1) ->
  built_from label kind name_key fs_path_key free usable it row /\
  w1 = mkWorld (connections w) (calls w ++ item_calls (fs_path row)) (files w)
         (stdout w).
Proof.
  intros H. pose proof H as H'.
  apply process_exposure_item_ok_inv in H'.
  destruct H' as (name & path & used & tags & Hn & Hp & -> & _).
  split; [repeat split; assumption|].
  rewrite (@process_exposure_item_run cluster it label kind name_key
             fs_path_key free usable w name path Hn Hp) in H.
  destruct (read_dir_aggregates cluster (calls w) path); [|discriminate].
  cbv zeta in H. injection H as _ <-. reflexivity.
Qed.

Lemma process_all_ok_full (items : list item)
    (label kind name_key fs_path_key : pystr) (free usable : float)
    (data_rows rows : list Row) (w w1 : World) :
  process_all cluster items label kind name_key fs_path_key free usable
    data_rows w = (Ok rows, w1) ->
  exists built,
    rows = data_rows ++ built /\
    Forall2 (built_from label kind name_key fs_path_key free usable) items built /\
    w1 = mkWorld (connections w)
           (calls w ++ flat_map item_calls (map fs_path built)) (files w)
           (stdout w).
Proof.
  unfold process_all.
  revert data_rows w. induction items as [|it items IH]; intros data_rows w H.
  - simpl in H. apply ret_inv in H. destruct H as [-> ->].
    exists []. rewrite !app_nil_r, world_eta. auto.
  - simpl in H.
    apply bind_ok_inv in H. destruct H as (acc & w2 & Hbody & Hrest).
    apply bind_ok_inv in Hbody. destruct Hbody as (row & w3 & Hrow & Hret).
    apply ret_inv in Hret. destruct Hret as [-> ->].
    apply process_exposure_item_ok_full in Hrow. destruct Hrow as [Hb ->].
    apply IH in Hrest. destruct Hrest as (built & -> & Hbuilt & ->).
    exists (row :: built). rewrite <- app_assoc. split; [reflexivity|].
    split; [constructor; assumption|].
    cbn [connections calls files stdout map flat_map].
    rewrite <- !app_assoc. reflexivity.
Qed.

(** What [gather] has done when it returns. *)
Lemma gather_ok_full (w w1 : World) (rows : list Row)
    (counts : nat * nat * nat) :
  gather cluster w = (Ok (rows, counts), w1) ->
  exists free total smb nfs s3 rows1 rows2 rows3,
    read_fs_stats cluster (calls w) = Ok (free, total) /\
    smb_list_shares cluster (calls w ++ [FsStats]) = Ok smb /\
    nfs_list_exports cluster
      (calls w ++ [FsStats; SmbListShares]
       ++ flat_map item_calls (map fs_path rows1)) = Ok nfs /\
    s3_list_buckets cluster
      (calls w ++ [FsStats; SmbListShares]
       ++ flat_map item_calls (map fs_path rows1) ++ [NfsListExports]
       ++ flat_map item_calls (map fs_path rows2)) = Ok s3 /\
    rows = rows1 ++ rows2 ++ rows3 /\
    Forall2 (built_from (lit "SMB") (lit "Share") (lit "share_name")
               (lit "fs_path") (fdiv free f1e9) (fdiv total f1e9)) smb rows1 /\
    Forall2 (built_from (lit "NFS") (lit "Export") (lit "export_path")
               (lit "fs_path") (fdiv free f1e9) (fdiv total f1e9)) nfs rows2 /\
    Forall2 (built_from (lit "S3") (lit "Bucket") (lit "name") (lit "path")
               (fdiv free f1e9) (fdiv total f1e9)) s3 rows3 /\
    counts = (List.length smb, List.length nfs, List.length s3) /\
    w1 = mkWorld (connections w)
           (calls w ++ run_calls (map fs_path rows1) (map fs_path rows2)
                         (map fs_path rows3))
           (files w) (stdout w).
Proof.
  unfold gather. intros H.
  apply bind_ok_inv in H. destruct H as (stats & wa & Hstats & H).
  apply bind_ok_inv in H. destruct H as (smb & wb & Hsmb & H).
  apply bind_ok_inv in H. destruct H as (r1 & wc & Hr1 & H).
  apply bind_ok_inv in H. destruct H as (nfs & wd & Hnfs & H).
  apply bind_ok_inv in H. destruct H as (r2 & we & Hr2 & H).
  apply bind_ok_inv in H. destruct H as (s3 & wf & Hs3 & H).
  apply bind_ok_inv in H. destruct H as (r3 & wg & Hr3 & H).
  apply ret_inv in H. destruct H as [[= -> ->] ->].
  unfold get_cluster_stats in Hstats.
  apply bind_ok_inv in Hstats. destruct Hstats as ([free total] & wa' & Hq & Hret).
  apply ret_inv in Hret. destruct Hret as [-> ->].
  unfold request in Hq. injection Hq as Hq <-.
  unfold get_smb_shares, request in Hsmb. injection Hsmb as Hsmb <-.
  cbn [calls connections files stdout fst snd] in *.
  apply process_all_ok_full in Hr1. destruct Hr1 as (b1 & -> & F1 & ->).
  unfold get_nfs_exports, request in Hnfs. injection Hnfs as Hnfs <-.
  cbn [calls connections files stdout] in *.
  apply process_all_ok_full in Hr2. destruct Hr2 as (b2 & -> & F2 & ->).
  unfold get_s3_buckets, request in Hs3. injection Hs3 as Hs3 <-.
  cbn [calls connections files stdout] in *.
  apply process_all_ok_full in Hr3. destruct Hr3 as (b3 & -> & F3 & ->).
  cbn [calls connections files stdout app] in *.
  exists free, total, smb, nfs, s3, b1, b2, b3.
  rewrite <- !app_assoc in *. cbn [app] in *.
  repeat split; auto.
Qed.

End Runs.

Section MainRuns.

Variables (env : Env) (args : Args).

(** The second phase, step by step. *)
Lemma emit_run (today_str : pystr) (rows : list Row)
    (counts : nat * nat * nat) (w : World) :
  emit args today_str rows counts w
  = let written :=
      Dict.set (output_name args today_str) (report_rows args today_str rows)
        (files w) in
    match report_outcome args today_str rows with
    | Ok _ =>
        (Ok tt,
         mkWorld (connections w) (calls w) written
           (stdout w
            ++ [ lit "Report written to " ++ output_name args today_str;
                 summary (fst (fst counts)) (snd (fst counts)) (snd counts) ]))
    | Raise e =>
        (Raise e, mkWorld (connections w) (calls w) written (stdout w))
    end.
Proof.
  unfold emit, report_rows, report_outcome, bind.
  destruct (enumerate_exposures args).
  - rewrite write_csv_enumerated_run.
    destruct (rendered_result _ _) as [[]|e]; [|reflexivity].
    unfold print. cbn [connections calls files stdout].
    rewrite <- app_assoc. reflexivity.
  - rewrite write_csv_dedup_run.
    destruct (rendered_result _ _) as [[]|e]; [|reflexivity].
    unfold print. cbn [connections calls files stdout].
    rewrite <- app_assoc. reflexivity.
Qed.

(** [main], step by step. *)
Lemma main_run (w : World) :
  main env args w =
  match effective (host args) "host" env,
        effective (access_token args) "access_token" env with
  | Some ((_ :: _) as h), Some ((_ :: _) as t) =>
      match gather (cluster env)
              (mkWorld (connections w ++ [(h, t)]) (calls w) (files w)
                 (stdout w)) with
      | (Ok (rows, counts), w1) => emit args (today env) rows counts w1
      | (Raise e, w1) => (Raise e, w1)
      end
  | _, _ => (Raise (SystemExit 2), w)
  end.
Proof.
  rewrite main_phases.
  destruct (effective (host args) "host" env) as [[|c0 h0]|];
    destruct (effective (access_token args) "access_token" env)
      as [[|c1 t1]|]; try reflexivity.
  unfold bind at 1. unfold get_connection at 1. unfold bind at 1.
  destruct (gather _ _) as [[[rows counts]|e] w1]; reflexivity.
Qed.

(** A run that returns: everything it has done. *)
Lemma main_ok_full (w w' : World) :
  main env args w = (Ok tt, w') ->
  exists h t free total smb nfs s3 rows1 rows2 rows3,
    effective (host args) "host" env = Some h /\
    effective (access_token args) "access_token" env = Some t /\
    read_fs_stats (cluster env) (calls w) = Ok (free, total) /\
    smb_list_shares (cluster env) (calls w ++ [FsStats]) = Ok smb /\
    nfs_list_exports (cluster env)
      (calls w ++ [FsStats; SmbListShares]
       ++ flat_map item_calls (map fs_path rows1)) = Ok nfs /\
    s3_list_buckets (cluster env)
      (calls w ++ [FsStats; SmbListShares]
       ++ flat_map item_calls (map fs_path rows1) ++ [NfsListExports]
       ++ flat_map item_calls (map fs_path rows2)) = Ok s3 /\
    Forall2 (built_from (lit "SMB") (lit "Share") (lit "share_name")
               (lit "fs_path") (fdiv free f1e9) (fdiv total f1e9)) smb rows1 /\
    Forall2 (built_from (lit "NFS") (lit "Export") (lit "export_path")
               (lit "fs_path") (fdiv free f1e9) (fdiv total f1e9)) nfs rows2 /\
    Forall2 (built_from (lit "S3") (lit "Bucket") (lit "name") (lit "path")
               (fdiv free f1e9) (fdiv total f1e9)) s3 rows3 /\
    report_outcome args (today env) (rows1 ++ rows2 ++ rows3) = Ok tt /\
    w' = mkWorld (connections w ++ [(h, t)])
           (calls w ++ run_calls (map fs_path rows1) (map fs_path rows2)
                         (map fs_path rows3))
           (Dict.set (output_name args (today env))
              (report_rows args (today env) (rows1 ++ rows2 ++ rows3))
              (files w))
           (stdout w
            ++ [ lit "Report written to " ++ output_name args (today env);
                 summary (List.length smb) (List.length nfs)
                   (List.length s3) ]).
Proof.
  rewrite main_run.
  destruct (effective (host args) "host" env) as [[|c0 h0]|];
    destruct (effective (access_token args) "access_token" env)
      as [[|c1 t1]|]; try discriminate.
  destruct (gather _ _) as [[[rows counts]|e] w1] eqn:G; [|discriminate].
  apply gather_ok_full in G.
  destruct G as (free & total & smb & nfs & s3 & r1 & r2 & r3 & Hst & Hsmb
                 & Hnfs & Hs3 & -> & F1 & F2 & F3 & -> & ->).
  rewrite emit_run. cbv zeta.
  destruct (report_outcome _ _ _) as [[]|e] eqn:R; [|discriminate].
  intros [= <-]. cbn [connections calls files stdout fst snd] in *.
  exists (c0 :: h0), (c1 :: t1), free, total, smb, nfs, s3, r1, r2, r3.
  repeat split; auto.
Qed.

Lemma effective_cases (cli : option pystr) (k : string) :
  (truthy cli = true -> effective cli k env = cli) /\
  (truthy cli = false ->
   effective cli k env = Dict.get (lit k) (config env)).
Proof. unfold effective. split; intros ->; reflexivity. Qed.

Lemma gather_frame (w : World) :
  connections (snd (gather (cluster env) w)) = connections w /\
  files (snd (gather (cluster env) w)) = files w /\
  stdout (snd (gather (cluster env) w)) = stdout w.
Proof.
  destruct (reads_only_gather (cluster env) w) as (new & -> & _).
  repeat split.
Qed.

(** X3. A run builds no connection without credentials, and exactly one
    with them, whether it later fails or not: to the host and with the
    token of the command line when these are non-empty, of the
    configuration otherwise. *)
Theorem one_connection_with_effective_credentials (w : World) :
  match effective (host args) "host" env,
        effective (access_token args) "access_token" env with
  | Some ((_ :: _) as h), Some ((_ :: _) as t) =>
      connections (snd (main env args w)) = connections w ++ [(h, t)]
  | _, _ => snd (main env args w) = w
  end /\
  (truthy (host args) = true ->
   effective (host args) "host" env = host args) /\
  (truthy (host args) = false ->
   effective (host args) "host" env = Dict.get (lit "host") (config env)) /\
  (truthy (access_token args) = true ->
   effective (access_token args) "access_token" env = access_token args) /\
  (truthy (access_token args) = false ->
   effective (access_token args) "access_token" env
   = Dict.get (lit "access_token") (config env)).
Proof.
  split; [|split; [apply effective_cases|split; [apply effective_cases|
           split; apply effective_cases]]].
  rewrite main_run.
  destruct (effective (host args) "host" env) as [[|c0 h0]|];
    destruct (effective (access_token args) "access_token" env)
      as [[|c1 t1]|]; try reflexivity.
  set (w0 := mkWorld _ _ _ _).
  destruct (gather_frame w0) as (Hc & _ & _).
  destruct (gather (cluster env) w0) as [[[rows counts]|e] w1];
    cbn [snd] in *; [|exact Hc].
  rewrite emit_run. cbv zeta.
  destruct (report_outcome _ _ _); cbn [snd connections]; exact Hc.
Qed.

Lemma length_item_calls (paths : list pystr) :
  List.length (flat_map item_calls paths) = (2 * List.length paths)%nat.
Proof. induction paths as [|p paths IH]; simpl; lia. Qed.

(** X4. The requests of a run that returns are, in this order: the cluster
    statistics, the share listing, for every share the capacity and then the
    metadata of its path, the export listing, the same pair for every
    export, the bucket listing, the same pair for every bucket; each
    listing is the answer to the request sent at that point.  That is four
    requests and two per exposure, none repeated. *)
Theorem requests_of_a_completed_run (w w' : World) :
  main env args w = (Ok tt, w') ->
  exists smb nfs s3 paths1 paths2 paths3,
    smb_list_shares (cluster env) (calls w ++ [FsStats]) = Ok smb /\
    nfs_list_exports (cluster env)
      (calls w ++ [FsStats; SmbListShares] ++ flat_map item_calls paths1)
    = Ok nfs /\
    s3_list_buckets (cluster env)
      (calls w ++ [FsStats; SmbListShares] ++ flat_map item_calls paths1
       ++ [NfsListExports] ++ flat_map item_calls paths2) = Ok s3 /\
    map Ok paths1 = map (fun it => item_field it (lit "fs_path")) smb /\
    map Ok paths2 = map (fun it => item_field it (lit "fs_path")) nfs /\
    map Ok paths3 = map (fun it => item_field it (lit "path")) s3 /\
    calls w' = calls w ++ run_calls paths1 paths2 paths3 /\
    List.length (calls w')
    = (List.length (calls w) + 4
       + 2 * (List.length smb + List.length nfs + List.length s3))%nat.
Proof.
  intros H. apply main_ok_full in H.
  destruct H as (h & t & free & total & smb & nfs & s3 & r1 & r2 & r3 & _ & _
                 & _ & Hsmb & Hnfs & Hs3 & F1 & F2 & F3 & _ & ->).
  assert (Hpaths : forall label kind nk pk items rows,
            Forall2 (built_from label kind nk pk (fdiv free f1e9)
                       (fdiv total f1e9)) items rows ->
            map Ok (map fs_path rows)
            = map (fun it => item_field it pk) items).
  { intros label kind nk pk items rows F.
    induction F as [|it row items rows Hb F IH]; simpl; [reflexivity|].
    destruct Hb as (_ & _ & _ & Hp & _). rewrite Hp, IH. reflexivity. }
  exists smb, nfs, s3, (map fs_path r1), (map fs_path r2), (map fs_path r3).
  cbn [calls]. repeat split; auto; try (eapply Hpaths; eassumption).
  unfold run_calls.
  rewrite !length_app, !length_item_calls, !length_map. simpl.
  rewrite <- (Forall2_length F1), <- (Forall2_length F2),
    <- (Forall2_length F3). lia.
Qed.

(** X5. A run that fails prints nothing.  A run that returns prints two
    lines: the name of the report, and the summary with the lengths of the
    three listings and their sum. *)
Theorem printed_lines (w : World) :
  (forall e, fst (main env args w) = Raise e ->
   stdout (snd (main env args w)) = stdout w) /\
  (forall w', main env args w = (Ok tt, w') ->
   exists h1 h2 h3 smb nfs s3,
     smb_list_shares (cluster env) h1 = Ok smb /\
     nfs_list_exports (cluster env) h2 = Ok nfs /\
     s3_list_buckets (cluster env) h3 = Ok s3 /\
     stdout w'
     = stdout w
       ++ [ lit "Report written to " ++ output_name args (today env);
            lit "Summary: Processed "
            ++ str_of_int (Z.of_nat (List.length smb))
            ++ lit " SMB shares, "
            ++ str_of_int (Z.of_nat (List.length nfs))
            ++ lit " NFS exports, and "
            ++ str_of_int (Z.of_nat (List.length s3))
            ++ lit " S3 buckets ("
            ++ str_of_int
                 (Z.of_nat
                    (List.length smb + List.length nfs + List.length s3))
            ++ lit " total exposures)." ]).
Proof.
  split.
  - intros e. rewrite main_run.
    destruct (effective (host args) "host" env) as [[|c0 h0]|];
      destruct (effective (access_token args) "access_token" env)
        as [[|c1 t1]|]; try reflexivity.
    set (w0 := mkWorld _ _ _ _).
    destruct (gather_frame w0) as (_ & _ & Hs).
    destruct (gather (cluster env) w0) as [[[rows counts]|e0] w1];
      cbn [snd fst] in *; [|intros _; exact Hs].
    rewrite emit_run. cbv zeta.
    destruct (report_outcome _ _ _); cbn [fst snd stdout];
      [discriminate | intros _; exact Hs].
  - intros w' H. apply main_ok_full in H.
    destruct H as (h & t & free & total & smb & nfs & s3 & r1 & r2 & r3 & _ & _
                   & _ & Hsmb & Hnfs & Hs3 & _ & _ & _ & _ & ->).
    do 3 eexists. exists smb, nfs, s3.
    split; [exact Hsmb|]. split; [exact Hnfs|]. split; [exact Hs3|].
    reflexivity.
Qed.

End MainRuns.

(** ** The rows of the two reports *)

Section ReportRows.

Lemma dedup_entry_merged (rows : list Row) (e : DedupRow) :
  In e (deduplicate_rows rows) -> merged_entry (d_fs_path e) rows = Some e.
Proof.
  intros Hin. destruct (dedup_fold_inv rows) as [Hkeys Hget].
  unfold deduplicate_rows, Dict.values in Hin.
  apply in_map_iff in Hin. destruct Hin as ([p e'] & He & Hin).
  simpl in He. subst e'.
  apply DictFacts.in_get in Hin; [|rewrite Hkeys; apply first_seen_nodup].
  rewrite Hget in Hin.
  assert (Hp : d_fs_path e = p).
  { unfold merged_entry in Hin.
    destruct (find (has_path p) rows) as [r|] eqn:E; [|discriminate].
    injection Hin as <-. simpl.
    apply find_some in E. destruct E as [_ E]. apply pystr_eqb_eq. exact E. }
  rewrite Hp. exact Hin.
Qed.

(** An entry of the deduplicated rows takes its figures from one of the
    rows. *)
Lemma dedup_entry_origin (rows : list Row) (e : DedupRow) :
  In e (deduplicate_rows rows) ->
  exists r,
    In r rows /\ fs_path r = d_fs_path e /\
    d_used_space e = used_space r /\ d_free_space e = free_space r /\
    d_usable_space e = usable_space r /\ d_used_pct e = used_pct r /\
    d_tags e = tags_dict r /\
    d_exposures e
    = map exposure_label (filter (has_path (d_fs_path e)) rows).
Proof.
  intros Hin. apply dedup_entry_merged in Hin. unfold merged_entry in Hin.
  destruct (find (has_path (d_fs_path e)) rows) as [r|] eqn:E; [|discriminate].
  apply find_some in E. destruct E as [Hr Hp]. apply pystr_eqb_eq in Hp.
  injection Hin as <-. simpl in *. exists r. repeat split; auto.
  rewrite Hp. reflexivity.
Qed.

Lemma built_rows_snapshot (label kind nk pk : pystr) (free usable : float)
    (items : list item) (rows : list Row) :
  Forall2 (built_from label kind nk pk free usable) items rows ->
  Forall (fun row => free_space row = free /\ usable_space row = usable) rows.
Proof.
  induction 1 as [|it row items rows Hb F IH]; constructor; [|exact IH].
  destruct Hb as (_ & _ & _ & _ & Hf & Hu & _). auto.
Qed.

Lemma built_rows_labels (label kind nk pk : pystr) (free usable : float)
    (items : list item) (rows : list Row) :
  Forall2 (built_from label kind nk pk free usable) items rows ->
  map (fun row => Ok (row_labels row)) rows
  = map (item_labels label kind nk pk) items.
Proof.
  induction 1 as [|it row items rows Hb F IH]; simpl; [reflexivity|].
  destruct Hb as (Hl & Hk & Hn & Hp & _). rewrite IH. f_equal.
  unfold item_labels, row_labels. rewrite Hn, Hp, Hl, Hk. reflexivity.
Qed.

Variables (env : Env) (args : Args).

(** X6. The capacity snapshot is read once, by the first request of the
    run, and never refreshed: in the report of a run that returns, in
    either mode, the free-space and usable-space cells of every data row
    are the two figures of that one answer, divided by 10^9 and
    formatted. *)
Theorem one_capacity_snapshot (w w' : World) :
  main env args w = (Ok tt, w') ->
  exists free total header data,
    read_fs_stats (cluster env) (calls w) = Ok (free, total) /\
    Dict.get (output_name args (today env)) (files w')
    = Some (header :: data) /\
    forall cells, In cells data ->
      let column := if enumerate_exposures args then 6%nat else 3%nat in
      nth column cells [] = format_3f (fdiv free f1e9) /\
      nth (S column) cells [] = format_3f (fdiv total f1e9).
Proof.
  intros H. apply main_ok_full in H.
  destruct H as (h & t & free & total & smb & nfs & s3 & r1 & r2 & r3 & _ & _
                 & Hst & _ & _ & _ & F1 & F2 & F3 & Hout & ->).
  assert (Hsnap : Forall (fun row => free_space row = fdiv free f1e9 /\
                                     usable_space row = fdiv total f1e9)
                    (r1 ++ r2 ++ r3)).
  { apply built_rows_snapshot in F1, F2, F3.
    apply Forall_app. split; [exact F1|]. apply Forall_app. auto. }
  rewrite Forall_forall in Hsnap.
  set (rows := r1 ++ r2 ++ r3) in *.
  exists free, total. unfold report_rows, report_outcome in *. cbn [files].
  destruct (enumerate_exposures args).
  - eexists. eexists. split; [exact Hst|].
    split; [apply DictFacts.get_set_eq|].
    intros cells Hin. apply in_rendered_prefix in Hin.
    destruct Hin as (row & Hrow & Hcells). unfold enumerated_cells in Hcells.
    destruct (format_number_3f (used_pct row)); [|discriminate].
    destruct (json_dumps_tags (tags_dict row)); [|discriminate].
    injection Hcells as <-. cbn [nth].
    destruct (Hsnap row Hrow) as [-> ->]. auto.
  - eexists. eexists. split; [exact Hst|].
    split; [apply DictFacts.get_set_eq|].
    intros cells Hin. apply in_rendered_prefix in Hin.
    destruct Hin as (e & He & Hcells). unfold dedup_cells in Hcells.
    destruct (format_number_3f (d_used_pct e)); [|discriminate].
    destruct (json_dumps_tags (d_tags e)); [|discriminate].
    injection Hcells as <-. cbn [nth].
    apply dedup_entry_origin in He.
    destruct He as (r & Hr & _ & _ & -> & -> & _).
    destruct (Hsnap r Hr) as [-> ->]. auto.
Qed.


End ReportRows.

(** ** What the writers do to the files *)

Section WriterEffects.

Lemma rendered_all {R} (render : R -> result (list pystr)) (rows : list R)
    (cells : list (list pystr)) :
  map Ok cells = map render rows ->
  rendered_prefix render rows = cells /\ rendered_result render rows = Ok tt.
Proof.
  revert cells. induction rows as [|r rows IH]; intros [|c cells]; simpl;
    try discriminate; [auto|].
  intros [= Hc Hrest]. rewrite <- Hc. destruct (IH _ Hrest) as [-> ->]. auto.
Qed.

Lemma rendered_until {R} (render : R -> result (list pystr))
    (before : list R) (r : R) (after : list R)
    (cells : list (list pystr)) (e : exn) :
  map Ok cells = map render before -> render r = Raise e ->
  rendered_prefix render (before ++ r :: after) = cells /\
  rendered_result render (before ++ r :: after) = Raise e.
Proof.
  revert cells. induction before as [|b before IH]; intros [|c cells]; simpl;
    try discriminate.
  - intros _ ->. auto.
  - intros [= Hc Hrest] Hr. rewrite <- Hc.
    destruct (IH _ Hrest Hr) as [-> ->]. auto.
Qed.


Lemma json_dumps_error (v : pyval) (e : exn) :
  json_dumps v = Raise e -> e = TypeError.
Proof.
  revert v e. fix IH 1. intros v e. destruct v as [ |n|s0|b|l|d].
  - discriminate.
  - discriminate.
  - discriminate.
  - simpl. intros [= <-]. reflexivity.
  - simpl.
    match goal with
    | |- rbind ?x _ = _ -> _ =>
        assert (Hl : forall e', x = Raise e' -> e' = TypeError)
    end.
    { induction l as [|x l IHl]; [discriminate|].
      intros e'. destruct (json_dumps x) as [px|ex] eqn:Ex; simpl.
      - match goal with
        | |- rbind ?y _ = _ -> _ => destruct y eqn:Ey
        end; simpl; [discriminate|].
        intros [= <-]. apply IHl. reflexivity.
      - intros [= <-]. apply (IH x). exact Ex. }
    match goal with
    | |- rbind ?x _ = _ -> _ => destruct x eqn:Ex
    end; simpl; [discriminate|]. intros [= <-]. apply Hl. reflexivity.
  - simpl.
    match goal with
    | |- rbind ?x _ = _ -> _ =>
        assert (Hl : forall e', x = Raise e' -> e' = TypeError)
    end.
    { induction d as [|[k x] d IHd]; [discriminate|].
      intros e'. destruct (json_dumps x) as [px|ex] eqn:Ex; simpl.
      - match goal with
        | |- rbind ?y _ = _ -> _ => destruct y eqn:Ey
        end; simpl; [discriminate|].
        intros [= <-]. apply IHd. reflexivity.
      - intros [= <-]. apply (IH x). exact Ex. }
    match goal with
    | |- rbind ?x _ = _ -> _ => destruct x eqn:Ex
    end; simpl; [discriminate|]. intros [= <-]. apply Hl. reflexivity.
Qed.

Lemma json_dumps_tags_error (tags : tags_t) (e : exn) :
  json_dumps_tags tags = Raise e -> e = TypeError.
Proof.
  unfold json_dumps_tags.
  destruct (json_members tags) as [parts|e'] eqn:Hm; [discriminate|].
  simpl. intros [= <-]. revert e' Hm.
  induction tags as [|[k x] tags IHt]; simpl; [discriminate|].
  intros e'. destruct k as [n|s0|b]; simpl.
  - destruct (json_dumps x) eqn:Ex; simpl.
    + destruct (json_members tags); simpl; [discriminate|].
      intros [= <-]. apply IHt. reflexivity.
    + intros [= <-]. eapply json_dumps_error. exact Ex.
  - destruct (json_dumps x) eqn:Ex; simpl.
    + destruct (json_members tags); simpl; [discriminate|].
      intros [= <-]. apply IHt. reflexivity.
    + intros [= <-]. eapply json_dumps_error. exact Ex.
  - intros [= <-]. reflexivity.
Qed.


End WriterEffects.

(** ** Tags in the report *)

Section TagsInReport.

Lemma second_ok_spec (b0 b1 : N) :
  second_ok b0 b1 = true ->
  (128 <= b1 <= 191)%N /\
  (b0 = 224 -> 160 <= b1)%N /\ (b0 = 237 -> b1 <= 159)%N /\
  (b0 = 240 -> 144 <= b1)%N /\ (b0 = 244 -> b1 <= 143)%N.
Proof.
  unfold second_ok, is_cont.
  destruct (b0 =? 224)%N eqn:E1; [apply N.eqb_eq in E1|apply N.eqb_neq in E1];
    [rewrite in_range_spec; lia|].
  destruct (b0 =? 237)%N eqn:E2; [apply N.eqb_eq in E2|apply N.eqb_neq in E2];
    [rewrite in_range_spec; lia|].
  destruct (b0 =? 240)%N eqn:E3; [apply N.eqb_eq in E3|apply N.eqb_neq in E3];
    [rewrite in_range_spec; lia|].
  destruct (b0 =? 244)%N eqn:E4; [apply N.eqb_eq in E4|apply N.eqb_neq in E4];
    rewrite in_range_spec; lia.
Qed.

(** The decoder yields scalar values only. *)
Lemma utf8_scan_scalar (n : nat) (bs : list N) :
  (List.length bs <= n)%nat ->
  Forall (fun o => match o with
                   | Some c => is_scalar c = true
                   | None => True
                   end) (utf8_scan bs).
Proof.
  revert bs. induction n as [|n IH]; intros bs Hl.
  - destruct bs; [constructor|simpl in Hl; lia].
  - destruct bs as [|b0 r0]; [constructor|]. cbn [utf8_scan].
    assert (Hrec : forall r, (List.length r <= List.length r0)%nat ->
              Forall (fun o => match o with
                               | Some c => is_scalar c = true
                               | None => True
                               end) (utf8_scan r)).
    { intros r Hr. apply IH. simpl in Hl. lia. }
    destruct (b0 <? 128)%N eqn:E1.
    { apply N.ltb_lt in E1. constructor; [|apply Hrec; lia].
      apply is_scalar_spec. lia. }
    destruct (in_range 194 223 b0) eqn:E2.
    { apply in_range_spec in E2. destruct r0 as [|b1 r1]; [repeat constructor|].
      destruct (is_cont b1) eqn:C1.
      - apply in_range_spec in C1. constructor; [|apply Hrec; simpl; lia].
        apply is_scalar_spec. lia.
      - constructor; [exact I|apply Hrec; lia]. }
    destruct (in_range 224 239 b0) eqn:E3.
    { apply in_range_spec in E3. destruct r0 as [|b1 r1]; [repeat constructor|].
      destruct (second_ok b0 b1) eqn:S1;
        [|constructor; [exact I|apply Hrec; lia]].
      apply second_ok_spec in S1.
      destruct r1 as [|b2 r2]; [repeat constructor|].
      destruct (is_cont b2) eqn:C2.
      - apply in_range_spec in C2. constructor; [|apply Hrec; simpl; lia].
        apply is_scalar_spec.
        assert (b0 < 237 \/ b0 = 237 \/ 237 < b0)%N as [?|[?|?]] by lia; lia.
      - constructor; [exact I|apply Hrec; simpl; lia]. }
    destruct (in_range 240 244 b0) eqn:E4.
    { apply in_range_spec in E4. destruct r0 as [|b1 r1]; [repeat constructor|].
      destruct (second_ok b0 b1) eqn:S1;
        [|constructor; [exact I|apply Hrec; lia]].
      apply second_ok_spec in S1.
      destruct r1 as [|b2 r2]; [repeat constructor|].
      destruct (is_cont b2) eqn:C2;
        [|constructor; [exact I|apply Hrec; simpl; lia]].
      apply in_range_spec in C2.
      destruct r2 as [|b3 r3]; [repeat constructor|].
      destruct (is_cont b3) eqn:C3.
      - apply in_range_spec in C3. constructor; [|apply Hrec; simpl; lia].
        apply is_scalar_spec.
        assert (b0 = 240 \/ (240 < b0 /\ b0 < 244) \/ b0 = 244)%N
          as [?|[?|?]] by lia; lia.
      - constructor; [exact I|apply Hrec; simpl; lia]. }
    constructor; [exact I|apply Hrec; lia].
Qed.

Lemma all_some_scalar (l : list (option N)) (s : pystr) :
  Forall (fun o => match o with
                   | Some c => is_scalar c = true
                   | None => True
                   end) l ->
  all_some l = Some s -> forallb is_scalar s = true.
Proof.
  revert s. induction l as [|[c|] l IH]; intros s Hl; simpl.
  - intros [= <-]. reflexivity.
  - inversion Hl as [|? ? Hc Hl']; subst.
    destruct (all_some l) as [r|]; [|discriminate].
    intros [= <-]. simpl. rewrite Hc. apply IH; auto.
  - discriminate.
Qed.

(** The text of a bytes value is made of scalar values. *)
Lemma text_of_bytes_scalar (b : list byte) :
  forallb is_scalar (text_of_bytes b) = true.
Proof.
  pose proof (@utf8_scan_scalar (List.length (map Byte.to_N b))
                (map Byte.to_N b) (le_n _)) as H.
  unfold text_of_bytes, decode_utf8, decode_utf8_replace.
  destruct (all_some (utf8_scan (map Byte.to_N b))) as [s|] eqn:E.
  - eapply all_some_scalar; eassumption.
  - clear E. induction H as [|[c|] l Hc Hl IH]; simpl; [reflexivity| |].
    + rewrite Hc. exact IH.
    + exact IH.
Qed.

Lemma text_tags_set (k : key) (v : pyval) (tags : tags_t) :
  text_tags tags = true -> text_entry (k, v) = true ->
  text_tags (Dict.set k v tags) = true.
Proof.
  unfold text_tags. intros Ht Hkv.
  induction tags as [|[k' v'] tags IH]; cbn [Dict.set forallb].
  - rewrite Hkv. reflexivity.
  - cbn [forallb] in Ht. apply andb_true_iff in Ht. destruct Ht as [H1 H2].
    destruct (eq_dec k k') as [<-|Hne]; cbn [forallb].
    + rewrite Hkv. exact H2.
    + rewrite H1. apply IH. exact H2.
Qed.

Lemma binding_textual (record : pyval) (kv : key * pyval) :
  textual_record record = true -> binding record = Some kv ->
  text_entry kv = true.
Proof.
  unfold textual_record, binding. intros H.
  apply andb_true_iff in H. destruct H as [Hk Hv].
  destruct (key_field record) as [ |n|k|b|l|d]; simpl; try discriminate.
  intros [= <-]. unfold decode_value.
  destruct (value_field record) as [ |n|v|b|l|d]; try discriminate.
  - simpl. rewrite Hk, Hv. reflexivity.
  - fold (text_of_bytes b).
    assert (Hb : match decode_utf8 b with
                 | Some s => VStr s
                 | None => VStr (decode_utf8_replace b)
                 end = VStr (text_of_bytes b))
      by (unfold text_of_bytes; destruct (decode_utf8 b); reflexivity).
    rewrite Hb. simpl. rewrite Hk, text_of_bytes_scalar. reflexivity.
Qed.

Lemma text_tags_bindings (records : list pyval) (tags : tags_t) :
  forallb textual_record records = true -> text_tags tags = true ->
  text_tags (fold_left (fun t kv => Dict.set (fst kv) (snd kv) t)
               (bindings records) tags) = true.
Proof.
  revert tags. induction records as [|record records IH]; intros tags Hr Ht.
  - exact Ht.
  - simpl in Hr. apply andb_true_iff in Hr. destruct Hr as [H1 H2].
    simpl. destruct (binding record) as [[k v]|] eqn:E.
    + simpl. apply IH; [exact H2|]. apply text_tags_set; [exact Ht|].
      eapply binding_textual; eassumption.
    + apply IH; assumption.
Qed.

Variable cluster : Cluster.

(** X10. When the records of a path have string keys and values that are
    bytes or strings (the strings made of scalar values), the tags
    [get_user_metadata] returns are a dictionary of strings without
    duplicate keys, whatever the bytes are: [json.dumps] writes them, and
    [json.loads] reads the written text back as these tags. *)
Theorem bytes_tags_are_written_and_read_back (path : pystr) (w w' : World)
    (tags : tags_t) :
  get_user_metadata cluster path w = (Ok tags, w') ->
  (forall records,
     all_records (pages (list_user_metadata cluster (calls w) path))
     = Ok records ->
     forallb textual_record records = true) ->
  text_tags tags = true /\
  NoDup (Dict.keys tags) /\
  exists text,
    json_dumps_tags tags = Ok text /\ json_loads text = Some tags.
Proof.
  intros H Hrec. apply get_user_metadata_ok_inv in H.
  destruct H as (records & Hall & -> & _).
  specialize (Hrec records Hall).
  assert (Ht : text_tags
                 (fold_left (fun t kv => Dict.set (fst kv) (snd kv) t)
                    (bindings records) []) = true)
    by (apply text_tags_bindings; [exact Hrec|reflexivity]).
  assert (Hnd : NoDup (Dict.keys
                 (fold_left (fun t kv => Dict.set (fst kv) (snd kv) t)
                    (bindings records) [])))
    by (apply nodup_fold_set; constructor).
  split; [exact Ht|]. split; [exact Hnd|].
  apply json_round_trip; assumption.
Qed.

(** The loops over pages and records are one loop over all the records. *)
Lemma fold_store_page_all_records (pgs : list page) (records : list pyval)
    (tags : tags_t) :
  all_records pgs = Ok records ->
  fold_result store_page pgs tags = fold_result store_record records tags.
Proof.
  revert records tags. induction pgs as [|pg pgs IH]; intros records tags.
  - simpl. intros [= <-]. reflexivity.
  - destruct pg as [|data]; [apply IH|].
    destruct data as [ | | | | |d]; try apply IH.
    cbn [all_records fold_result store_page].
    set (entries := match Dict.get (lit "entries") d with
                    | Some v => v
                    | None => VList []
                    end).
    destruct (iterate entries) as [rs|e]; cbn [rbind]; [|discriminate].
    destruct (all_records pgs) as [rs'|e] eqn:E; cbn [rbind]; [|discriminate].
    intros [= <-]. rewrite fold_result_app.
    destruct (fold_result store_record rs tags) as [tags1|e]; cbn [rbind];
      [|reflexivity].
    apply IH. reflexivity.
Qed.

(** X11. A record that is not a dictionary makes [get_user_metadata] raise
    [AttributeError], and a record whose key is a list or a dictionary
    makes it raise [TypeError], as soon as the records before it have been
    stored: the tags gathered so far are lost and the end of the listing is
    not looked at. *)
Theorem bad_record_raises (path : pystr) (w : World)
    (records1 : list pyval) (bad : pyval) (records2 : list pyval)
    (tags1 : tags_t) :
  all_records (pages (list_user_metadata cluster (calls w) path))
  = Ok (records1 ++ bad :: records2) ->
  fold_result store_record records1 [] = Ok tags1 ->
  ((forall d, bad <> VDict d) ->
   fst (get_user_metadata cluster path w) = Raise (AttributeError (lit "get")))
  /\
  ((exists d, bad = VDict d) ->
   (exists l, key_field bad = VList l) \/ (exists d, key_field bad = VDict d) ->
   fst (get_user_metadata cluster path w) = Raise TypeError).
Proof.
  intros Hall H1. rewrite get_user_metadata_run. cbv zeta. cbn [fst].
  rewrite (fold_store_page_all_records _ _ Hall), fold_result_app, H1.
  cbn [rbind fold_result]. split.
  - intros Hnd. unfold store_record, record_get.
    destruct bad as [ | | | | |d]; try reflexivity.
    exfalso. apply (Hnd d). reflexivity.
  - intros [d ->] Hk. unfold store_record, record_get, key_field in *.
    cbn [rbind].
    destruct Hk as [[l Hk]|[d' Hk]];
      destruct (Dict.get (lit "key") d) as [k|]; try discriminate;
      subst k; reflexivity.
Qed.

Lemma distinct_keys_in (k : key) (l : list key) :
  In k (distinct_keys l) <-> In k l.
Proof.
  induction l as [|a l IH]; simpl; [tauto|].
  rewrite filter_In, IH.
  destruct (key_eq_dec k a) as [->|Hne]; [tauto|].
  split; [tauto | intros [?|?]; [congruence | auto]].
Qed.

Lemma distinct_keys_snoc (k : key) (l : list key) :
  distinct_keys (l ++ [k])
  = distinct_keys l ++ (if in_dec key_eq_dec k l then [] else [k]).
Proof.
  induction l as [|a l IH]; simpl; [reflexivity|].
  rewrite IH, filter_app. f_equal. f_equal.
  destruct (in_dec key_eq_dec k l) as [Hin|Hnin]; simpl.
  - destruct (key_eq_dec a k); reflexivity.
  - destruct (key_eq_dec a k) as [->|Hne].
    + destruct (key_eq_dec k k); [reflexivity|congruence].
    + destruct (key_eq_dec k a); [congruence|].
      destruct (in_dec key_eq_dec k l); [tauto|reflexivity].
Qed.

Lemma keys_fold_set (kvs : list (key * pyval)) :
  Dict.keys (fold_left (fun t kv => Dict.set (fst kv) (snd kv) t) kvs [])
  = distinct_keys (map fst kvs).
Proof.
  induction kvs as [|[k v] kvs IH] using rev_ind; [reflexivity|].
  rewrite fold_left_app, map_app. simpl. rewrite distinct_keys_snoc.
  set (tags := fold_left (fun (t : tags_t) (kv : key * pyval) =>
                            Dict.set (fst kv) (snd kv) t) kvs []) in *.
  destruct (in_dec key_eq_dec k (map fst kvs)) as [Hin|Hnin].
  - rewrite DictFacts.keys_set_old, app_nil_r; [exact IH|].
    rewrite IH. apply distinct_keys_in. exact Hin.
  - rewrite DictFacts.keys_set_new, IH; [reflexivity|].
    rewrite IH, distinct_keys_in. exact Hnin.
Qed.

(** X12. The keys of the tags [get_user_metadata] returns are the keys of
    the records, each once, in the order in which they first appear; a key
    that comes again keeps its place. *)
Theorem tags_keep_first_key_order (path : pystr) (w w' : World)
    (tags : tags_t) :
  get_user_metadata cluster path w = (Ok tags, w') ->
  exists records,
    all_records (pages (list_user_metadata cluster (calls w) path))
    = Ok records /\
    Dict.keys tags = distinct_keys (map fst (bindings records)) /\
    NoDup (Dict.keys tags).
Proof.
  intros H. apply get_user_metadata_ok_inv in H.
  destruct H as (records & Hall & -> & _).
  exists records. split; [exact Hall|]. split; [apply keys_fold_set|].
  apply nodup_fold_set. constructor.
Qed.

End TagsInReport.

(** ** More on deduplicate_rows *)

Section DedupMore.

Lemma exposures_adjust (l p : pystr) (d : Dict.t pystr DedupRow) :
  In p (Dict.keys d) ->
  Permutation
    (List.concat (map d_exposures
               (Dict.values (Dict.adjust (append_exposure l) p d))))
    (l :: List.concat (map d_exposures (Dict.values d))).
Proof.
  induction d as [|[k v] d IH]; simpl; [tauto|]. intros Hin.
  destruct (eq_dec p k) as [->|Hne]; simpl.
  - rewrite <- app_assoc. simpl.
    apply Permutation_sym, Permutation_middle.
  - destruct Hin as [Heq|Hin]; [congruence|].
    eapply Permutation_trans; [apply Permutation_app_head, IH, Hin|].
    apply Permutation_sym, Permutation_middle.
Qed.

Lemma exposures_fold (rows : list Row) :
  Permutation
    (List.concat (map d_exposures (Dict.values (fold_left dedup_step rows []))))
    (map exposure_label rows).
Proof.
  induction rows as [|r rows IH] using rev_ind; [constructor|].
  rewrite fold_left_app, map_app. simpl.
  set (d := fold_left dedup_step rows []) in *. unfold dedup_step.
  destruct (Dict.contains (fs_path r) d) eqn:Hc.
  - apply DictFacts.contains_in in Hc.
    eapply Permutation_trans; [apply exposures_adjust, Hc|].
    eapply Permutation_trans; [apply Permutation_cons_append|].
    apply Permutation_app_tail. exact IH.
  - assert (Hnin : ~ In (fs_path r) (Dict.keys d))
      by (rewrite <- DictFacts.contains_in; congruence).
    rewrite DictFacts.set_new by exact Hnin.
    unfold Dict.values. rewrite map_app, map_app, List.concat_app. simpl.
    apply Permutation_app_tail. exact IH.
Qed.

Lemma first_seen_length (l : list pystr) :
  (List.length (first_seen l) <= List.length l)%nat.
Proof.
  induction l as [|a l IH]; simpl; [lia|].
  pose proof (filter_length_le (fun q => negb (pystr_eqb q a)) (first_seen l)).
  lia.
Qed.

(** X13. Deduplication loses and invents no exposure: the exposures of the
    entries, taken together, are the labels of the input rows, each as
    often as it occurs; and there are never more entries than rows. *)
Theorem deduplication_keeps_every_exposure (data_rows : list Row) :
  Permutation (List.concat (map d_exposures (deduplicate_rows data_rows)))
    (map exposure_label data_rows) /\
  List.length (List.concat (map d_exposures (deduplicate_rows data_rows)))
  = List.length data_rows /\
  (List.length (deduplicate_rows data_rows) <= List.length data_rows)%nat.
Proof.
  pose proof (exposures_fold data_rows) as Hp.
  split; [exact Hp|]. split.
  - apply Permutation_length in Hp. unfold deduplicate_rows.
    rewrite Hp, length_map. reflexivity.
  - rewrite <- (length_map d_fs_path), dedup_values_keys.
    destruct (dedup_fold_inv data_rows) as [-> _].
    rewrite <- (length_map fs_path data_rows). apply first_seen_length.
Qed.

Lemma dedup_fold_distinct (rows : list Row) :
  NoDup (map fs_path rows) ->
  fold_left dedup_step rows [] = map (fun r => (fs_path r, new_entry r)) rows.
Proof.
  induction rows as [|r rows IH] using rev_ind; [reflexivity|].
  rewrite map_app. simpl. intros Hnd.
  apply NoDup_remove in Hnd. rewrite app_nil_r in Hnd.
  destruct Hnd as [Hnd Hnin].
  rewrite fold_left_app, IH by exact Hnd. simpl. unfold dedup_step.
  assert (Hkeys : Dict.keys (map (fun r => (fs_path r, new_entry r)) rows)
                  = map fs_path rows)
    by (unfold Dict.keys; rewrite map_map; reflexivity).
  destruct (Dict.contains _ _) eqn:Hc.
  - apply DictFacts.contains_in in Hc. rewrite Hkeys in Hc. tauto.
  - rewrite DictFacts.set_new, map_app; [reflexivity|].
    rewrite Hkeys. exact Hnin.
Qed.

(** X14. Rows of pairwise distinct paths are not merged: each becomes one
    entry with its own figures, its tags and its single label, in input
    order. *)
Theorem distinct_paths_are_not_merged (data_rows : list Row) :
  NoDup (map fs_path data_rows) ->
  deduplicate_rows data_rows
  = map (fun row =>
           mkDedupRow (fs_path row) (used_space row) (free_space row)
             (usable_space row) (used_pct row)
             [protocol row ++ lit ":" ++ exposure_type row ++ lit ":"
              ++ name row]
             (tags_dict row))
      data_rows.
Proof.
  intros Hnd. unfold deduplicate_rows.
  rewrite dedup_fold_distinct by exact Hnd.
  unfold Dict.values. rewrite map_map. reflexivity.
Qed.

End DedupMore.

(** ** Runs that complete *)

Section Completion.

Lemma format_used_pct_ok (used free : float) :
  exists pct, format_number_3f (compute_used_pct used free) = Ok pct.
Proof.
  unfold compute_used_pct. destruct (SFltb f0 free); eexists; reflexivity.
Qed.

Lemma rendered_result_all {R} (render : R -> result (list pystr))
    (rows : list R) :
  (forall r, In r rows -> exists cells, render r = Ok cells) ->
  rendered_result render rows = Ok tt.
Proof.
  induction rows as [|r rows IH]; intros H; simpl; [reflexivity|].
  destruct (H r (or_introl eq_refl)) as [cells ->].
  apply IH. intros r' Hin. apply H. right. exact Hin.
Qed.

Lemma report_outcome_renderable (args : Args) (date_str : pystr)
    (rows : list Row) :
  Forall renderable rows -> report_outcome args date_str rows = Ok tt.
Proof.
  intros H. rewrite Forall_forall in H. unfold report_outcome.
  destruct (enumerate_exposures args); apply rendered_result_all.
  - intros r Hin. destruct (H r Hin) as [[pct Hp] [text Ht]].
    unfold enumerated_cells. rewrite Hp, Ht. eexists. reflexivity.
  - intros e Hin. apply dedup_entry_origin in Hin.
    destruct Hin as (r & Hr & _ & _ & _ & _ & Hpct & Htags & _).
    destruct (H r Hr) as [[pct Hp] [text Ht]].
    unfold dedup_cells. rewrite Hpct, Htags, Hp, Ht. eexists. reflexivity.
Qed.

Variable cluster : Cluster.

Hypothesis Hdep : dependable cluster.

Lemma process_exposure_item_completes (it : item)
    (label kind name_key fs_path_key : pystr) (free usable : float)
    (w : World) :
  (exists name, item_field it name_key = Ok name) ->
  (exists path, item_field it fs_path_key = Ok path) ->
  exists row w1,
    process_exposure_item cluster it label kind name_key fs_path_key free
      usable w = (Ok row, w1) /\
    renderable row.
Proof.
  intros [name Hn] [path Hp].
  rewrite (@process_exposure_item_run cluster it label kind name_key
             fs_path_key free usable w name path Hn Hp).
  destruct Hdep as (_ & _ & _ & _ & Hcap & Hmeta).
  destruct (Hcap (calls w) path) as [total ->]. cbv zeta.
  destruct (Hmeta (calls w ++ [DirAggregates path]) path)
    as (Hfail & tags & text & Hfold & Htext).
  rewrite Hfold, Hfail. cbn [rbind].
  eexists. eexists. split; [reflexivity|].
  split; cbn [used_pct tags_dict]; [apply format_used_pct_ok|].
  exists text. exact Htext.
Qed.

Lemma process_all_completes (items : list item)
    (label kind : pystr) (name_key fs_path_key : string) (free usable : float)
    (data_rows : list Row) (w : World) :
  Forall (has_fields name_key fs_path_key) items ->
  Forall renderable data_rows ->
  exists rows w1,
    process_all cluster items label kind (lit name_key) (lit fs_path_key) free
      usable data_rows w = (Ok rows, w1) /\
    Forall renderable rows.
Proof.
  unfold process_all. intros Hitems. revert data_rows w.
  induction Hitems as [|it items [Hn Hp] _ IH]; intros data_rows w Hrows.
  - exists data_rows, w. split; [reflexivity|exact Hrows].
  - destruct (@process_exposure_item_completes it label kind (lit name_key)
                (lit fs_path_key) free usable w Hn Hp)
      as (row & w1 & Hrow & Hr).
    destruct (IH (data_rows ++ [row]) w1) as (rows & w2 & Hrest & Hall).
    { apply Forall_app. split; [exact Hrows|]. constructor; [exact Hr|].
      constructor. }
    exists rows, w2. split; [|exact Hall].
    cbn [for_each]. unfold bind at 1. unfold bind at 1. rewrite Hrow.
    unfold ret at 1. exact Hrest.
Qed.

Lemma gather_completes (w : World) :
  exists rows counts w1,
    gather cluster w = (Ok (rows, counts), w1) /\ Forall renderable rows.
Proof.
  destruct Hdep as (Hstats & Hsmb & Hnfs & Hs3 & _ & _).
  unfold gather, get_cluster_stats, get_smb_shares, get_nfs_exports,
    get_s3_buckets.
  unfold bind at 1. unfold bind at 1. unfold request at 1.
  destruct (Hstats (calls w)) as [stats ->]. unfold ret at 1.
  cbn beta iota. unfold bind at 1. unfold request at 1. cbn [calls].
  destruct (Hsmb (calls w ++ [FsStats])) as (smb & -> & F1).
  unfold bind at 1.
  match goal with
  | |- context [process_all cluster smb ?l ?k _ _ ?f ?u [] ?w0] =>
      destruct (@process_all_completes smb l k "share_name" "fs_path" f u []
                  w0 F1 (Forall_nil _)) as (r1 & w1 & -> & R1)
  end.
  unfold bind at 1. unfold request at 1.
  destruct (Hnfs (calls w1)) as (nfs & -> & F2).
  unfold bind at 1.
  match goal with
  | |- context [process_all cluster nfs ?l ?k _ _ ?f ?u r1 ?w0] =>
      destruct (@process_all_completes nfs l k "export_path" "fs_path" f u r1
                  w0 F2 R1) as (r2 & w2 & -> & R2)
  end.
  unfold bind at 1. unfold request at 1.
  destruct (Hs3 (calls w2)) as (s3 & -> & F3).
  unfold bind at 1.
  match goal with
  | |- context [process_all cluster s3 ?l ?k _ _ ?f ?u r2 ?w0] =>
      destruct (@process_all_completes s3 l k "name" "path" f u r2
                  w0 F3 R2) as (r3 & w3 & -> & R3)
  end.
  unfold ret. eexists. eexists. eexists. split; [reflexivity|exact R3].
Qed.

End Completion.

Section CompletedRuns.

Variables (env : Env) (args : Args).


End CompletedRuns.

(** ** The name of the report *)

Section ReportName.

(** X16. The name of the report determines the mode and the date: reports
    of different modes or of different days never share a file, so a run
    overwrites only a report of its own mode and day. *)
Theorem report_name_determines_mode_and_date (args1 args2 : Args)
    (today1 today2 : pystr) :
  output_name args1 today1 = output_name args2 today2 ->
  enumerate_exposures args1 = enumerate_exposures args2 /\ today1 = today2.
Proof.
  unfold output_name.
  destruct (enumerate_exposures args1), (enumerate_exposures args2); intros H.
  - apply app_inv_tail, app_inv_head in H. auto.
  - apply (f_equal (fun l => firstn 5 (rev l))) in H.
    rewrite !rev_app_distr in H. discriminate H.
  - apply (f_equal (fun l => firstn 5 (rev l))) in H.
    rewrite !rev_app_distr in H. discriminate H.
  - apply app_inv_tail, app_inv_head in H. auto.
Qed.

End ReportName.

(** ** Without free space *)

Section NoFreeSpace.

Variable cluster : Cluster.

(** X17. When the free space of the cluster is not above zero (zero,
    negative or not a number), the percentage of a row is the integer 0
    whatever its used space, nothing is divided, and its Used % cell
    reads 0.000. *)
Theorem no_free_space_gives_zero_percent (it : item)
    (label kind name_key fs_path_key : pystr) (free usable : float)
    (w w1 : World) (row : Row) :
  process_exposure_item cluster it label kind name_key fs_path_key free usable w
  = (Ok row, w1) ->
  SFltb f0 free = false ->
  used_pct row = PyInt 0 /\
  format_number_3f (used_pct row) = Ok (lit "0.000") /\
  forall date_str cells,
    enumerated_cells date_str row = Ok cells ->
    nth 8 cells [] = lit "0.000".
Proof.
  intros H Hfree. apply process_exposure_item_ok_inv in H.
  destruct H as (name & path & used & tags & _ & _ & -> & _).
  cbn [used_pct tags_dict]. unfold compute_used_pct. rewrite Hfree.
  split; [reflexivity|]. split; [reflexivity|].
  intros date_str cells. unfold enumerated_cells. cbn [used_pct tags_dict].
  change (format_number_3f (PyInt 0)) with (@Ok pystr (lit "0.000")).
  cbn [rbind]. destruct (json_dumps_tags tags); [|discriminate].
  intros [= <-]. reflexivity.
Qed.

End NoFreeSpace.

(** ** The configuration file *)

Section Config.

Variable disk : Disk.


End Config.

(** ** The statements at work *)

(** A run over one share, one export and one bucket: ten requests. *)
Lemma requests_of_a_completed_run_witness :
  let env :=
    mkEnv [(lit "host", lit "cluster.example"); (lit "access_token", lit "t")]
      (lit "2025-01-02")
      (static_cluster [share "eng" "/eng"] [export "/home" "/users"]
         [bucket "logs" "/logs"] (float_of_Z 2000000000) no_tags) in
  let args := mkArgs false None None in
  let w' := snd (main env args initial_world) in
  main env args initial_world = (Ok tt, w') /\
  calls w'
  = [ FsStats; SmbListShares;
      DirAggregates (lit "/eng"); ListUserMetadata (lit "/eng");
      NfsListExports;
      DirAggregates (lit "/users"); ListUserMetadata (lit "/users");
      S3ListBuckets;
      DirAggregates (lit "/logs"); ListUserMetadata (lit "/logs") ] /\
  exists smb nfs s3 paths1 paths2 paths3,
    smb_list_shares (cluster env) (calls initial_world ++ [FsStats]) = Ok smb /\
    nfs_list_exports (cluster env)
      (calls initial_world ++ [FsStats; SmbListShares]
       ++ flat_map item_calls paths1)
    = Ok nfs /\
    s3_list_buckets (cluster env)
      (calls initial_world ++ [FsStats; SmbListShares]
       ++ flat_map item_calls paths1
       ++ [NfsListExports] ++ flat_map item_calls paths2) = Ok s3 /\
    map Ok paths1 = map (fun it => item_field it (lit "fs_path")) smb /\
    map Ok paths2 = map (fun it => item_field it (lit "fs_path")) nfs /\
    map Ok paths3 = map (fun it => item_field it (lit "path")) s3 /\
    calls w' = calls initial_world ++ run_calls paths1 paths2 paths3 /\
    List.length (calls w')
    = (List.length (calls initial_world) + 4
       + 2 * (List.length smb + List.length nfs + List.length s3))%nat.
Proof.
  intros env args w'.
  assert (Hrun : main env args initial_world = (Ok tt, w'))
    by (vm_compute; reflexivity).
  split; [exact Hrun|]. split; [vm_compute; reflexivity|].
  exact (@requests_of_a_completed_run env args initial_world w' Hrun).
Defined.

(** The two exposures of "/shared": one data row, 9 GB free of 20 GB. *)
Lemma one_capacity_snapshot_witness :
  let args := mkArgs false None None in
  let w' := snd (main shared_env args initial_world) in
  main shared_env args initial_world = (Ok tt, w') /\
  exists free total header data,
    read_fs_stats (cluster shared_env) (calls initial_world)
    = Ok (free, total) /\
    Dict.get (output_name args (today shared_env)) (files w')
    = Some (header :: data) /\
    forall cells, In cells data ->
      let column := if enumerate_exposures args then 6%nat else 3%nat in
      nth column cells [] = format_3f (fdiv free f1e9) /\
      nth (S column) cells [] = format_3f (fdiv total f1e9).
Proof.
  intros args w'.
  assert (Hrun : main shared_env args initial_world = (Ok tt, w'))
    by (vm_compute; reflexivity).
  split; [exact Hrun|].
  exact (@one_capacity_snapshot shared_env args initial_world w' Hrun).
Defined.



(** The sample stream: the bytes that are not UTF-8 are written and read
    back as the replacement character and "A". *)
Lemma bytes_tags_are_written_and_read_back_witness :
  let cluster := static_cluster [] [] [] f0 sample_stream in
  let tags :=
    [ (KStr (lit "env"), VStr (lit "prod"));
      (KStr (lit "raw"), VStr [65533%N; 65%N]) ] in
  let w' := mkWorld [] [ListUserMetadata (lit "/eng")] [] [] in
  get_user_metadata cluster (lit "/eng") initial_world = (Ok tags, w') /\
  text_tags tags = true /\
  NoDup (Dict.keys tags) /\
  exists text,
    json_dumps_tags tags = Ok text /\ json_loads text = Some tags.
Proof.
  intros cluster tags w'. split; [reflexivity|].
  apply (@bytes_tags_are_written_and_read_back cluster (lit "/eng")
           initial_world w' tags eq_refl).
  intros records H. vm_compute in H. injection H as <-. reflexivity.
Defined.

(** A record that is an integer, between two good records. *)
Lemma bad_record_raises_witness :
  let first := record (VStr (lit "a")) (VStr (lit "b")) in
  let last := record (VStr (lit "c")) (VStr (lit "d")) in
  let cluster :=
    static_cluster [] [] [] f0
      (mkStream [tag_page [first; VInt 3; last]] None) in
  all_records (pages (list_user_metadata cluster (calls initial_world)
                        (lit "/eng")))
  = Ok ([first] ++ VInt 3 :: [last]) /\
  fold_result store_record [first] [] = Ok [(KStr (lit "a"), VStr (lit "b"))] /\
  fst (get_user_metadata cluster (lit "/eng") initial_world)
  = Raise (AttributeError (lit "get")).
Proof.
  intros first last cluster.
  assert (H1 : all_records
                 (pages (list_user_metadata cluster (calls initial_world)
                           (lit "/eng")))
               = Ok ([first] ++ VInt 3 :: [last])) by reflexivity.
  assert (H2 : fold_result store_record [first] []
               = Ok [(KStr (lit "a"), VStr (lit "b"))]) by reflexivity.
  split; [exact H1|]. split; [exact H2|].
  apply (proj1 (@bad_record_raises cluster (lit "/eng") initial_world [first]
                  (VInt 3) [last] _ H1 H2)).
  intros d. discriminate.
Defined.

(** The sample stream: "env" comes twice and keeps the first place. *)
Lemma tags_keep_first_key_order_witness :
  let cluster := static_cluster [] [] [] f0 sample_stream in
  let tags :=
    [ (KStr (lit "env"), VStr (lit "prod"));
      (KStr (lit "raw"), VStr [65533%N; 65%N]) ] in
  let w' := mkWorld [] [ListUserMetadata (lit "/eng")] [] [] in
  get_user_metadata cluster (lit "/eng") initial_world = (Ok tags, w') /\
  exists records,
    all_records (pages (list_user_metadata cluster (calls initial_world)
                          (lit "/eng")))
    = Ok records /\
    Dict.keys tags = distinct_keys (map fst (bindings records)) /\
    NoDup (Dict.keys tags).
Proof.
  intros cluster tags w'. split; [reflexivity|].
  exact (@tags_keep_first_key_order cluster (lit "/eng") initial_world w' tags
           eq_refl).
Defined.

(** Two exposures of two paths: two entries. *)
Lemma distinct_paths_are_not_merged_witness :
  let a :=
    mkRow (lit "SMB") (lit "Share") (lit "eng") (lit "/eng") (gb 2) (gb 8)
      (gb 20) (compute_used_pct (gb 2) (gb 8)) [] in
  let b :=
    mkRow (lit "NFS") (lit "Export") (lit "/home") (lit "/users") (gb 1) (gb 8)
      (gb 20) (compute_used_pct (gb 1) (gb 8)) [] in
  NoDup (map fs_path [a; b]) /\
  deduplicate_rows [a; b]
  = [ mkDedupRow (lit "/eng") (gb 2) (gb 8) (gb 20)
        (compute_used_pct (gb 2) (gb 8)) [lit "SMB:Share:eng"] [];
      mkDedupRow (lit "/users") (gb 1) (gb 8) (gb 20)
        (compute_used_pct (gb 1) (gb 8)) [lit "NFS:Export:/home"] [] ].
Proof.
  intros a b.
  assert (Hnd : NoDup (map fs_path [a; b])).
  { constructor; [intros [H|[]]; discriminate H|].
    constructor; [intros []|constructor]. }
  split; [exact Hnd|].
  exact (@distinct_paths_are_not_merged [a; b] Hnd).
Defined.


(** The same day and mode: the same name, whatever the credentials. *)
Lemma report_name_determines_mode_and_date_witness :
  let args1 := mkArgs true None None in
  let args2 := mkArgs true (Some (lit "cluster.example")) (Some (lit "t")) in
  output_name args1 (lit "2025-01-02") = output_name args2 (lit "2025-01-02") /\
  enumerate_exposures args1 = enumerate_exposures args2.
Proof.
  intros args1 args2. split; [reflexivity|].
  exact (proj1 (@report_name_determines_mode_and_date args1 args2
                  (lit "2025-01-02") (lit "2025-01-02") eq_refl)).
Defined.

(** A full cluster: 2 GB under "/eng", nothing free. *)
Lemma no_free_space_gives_zero_percent_witness :
  let cluster := static_cluster [] [] [] (float_of_Z 2000000000) no_tags in
  let built :=
    process_exposure_item cluster (share "eng" "/eng") (lit "SMB")
      (lit "Share") (lit "share_name") (lit "fs_path") f0 (gb 20)
      initial_world in
  SFltb f0 f0 = false /\
  exists row w1,
    built = (Ok row, w1) /\
    used_space row = gb 2 /\
    used_pct row = PyInt 0 /\
    format_number_3f (used_pct row) = Ok (lit "0.000").
Proof.
  intros cluster built. split; [reflexivity|].
  destruct built as [[row|e] w1] eqn:E; [|discriminate E].
  exists row, w1. split; [reflexivity|].
  split; [vm_compute in E; injection E as <- _; reflexivity|].
  destruct (@no_free_space_gives_zero_percent cluster (share "eng" "/eng")
              (lit "SMB") (lit "Share") (lit "share_name") (lit "fs_path")
              f0 (gb 20) initial_world w1 row E eq_refl) as (H0 & H1 & _).
  split; [exact H0|exact H1].
Defined.
